(** * Dependency-graph builder and analyzers: a shallow embedding

    The development follows the JavaScript sources:
    - [src/graph/neo4jClient.js]           the store gateway ([executeQuery]);
    - [src/graph/builder.js]               [GraphBuilder];
    - [src/analysis/circularDependencies.js] [CircularDependencyAnalyzer];
    - [src/analysis/versionConflicts.js]   [VersionConflictAnalyzer];
    - [src/parsers/javascriptParser.js]    [JavaScriptParser], from the
      parsed [package.json] on.

    Strings are byte strings ([string]); JavaScript numbers are recorded by
    the rational value they denote; the graph store is a record of node and
    relationship lists in creation order; every Cypher statement the code
    sends is a constructor of [Query] with its meaning given by [evalQuery];
    [async] methods are computations in a state-and-exception monad over
    the store.  Calls of [logger] only write to the console and are left
    out. *)

From Stdlib Require Import String Ascii ZArith QArith Qround List Bool Lia Arith.
From Stdlib Require Import Sorted Permutation OrderedTypeEx.
Import ListNotations.
Local Open Scope string_scope.
Local Open Scope Z_scope.

Set Implicit Arguments.

(* ===================================================================== *)
(** * JavaScript values *)
(* ===================================================================== *)

(** An IEEE-754 double, by the value it denotes.  Only non-negative values
    and [Infinity] arise in this program. *)
Inductive Number : Type :=
| Finite (q : Q)
| Infinity.

(** What a result row of the driver, or a field of a returned object, can
    hold.  The driver is created by [neo4j.driver(uri, auth)] with no
    configuration object, so Cypher integers arrive as the driver's
    [Integer] objects (the ones with a [.low] property that
    [linkPackageDependencies] and [getStats] unwrap), not as numbers. *)
Inductive JsValue : Type :=
| JsNull
| JsNum (n : Number)
| JsInteger (i : Z).

Definition numEq (x y : Number) : bool :=
  match x, y with
  | Finite p, Finite q => Qeq_bool p q
  | Infinity, Infinity => true
  | _, _ => false
  end.

(** [a === b] on values that are a number or [null]. *)
Definition strictEq (a b : option Number) : bool :=
  match a, b with
  | None, None => true
  | Some x, Some y => numEq x y
  | _, _ => false
  end.

(** [v === 0]: an object (a driver [Integer]) is never strictly equal to a
    number. *)
Definition strictEqZero (v : JsValue) : bool :=
  match v with
  | JsNum (Finite q) => Qeq_bool q 0
  | _ => false
  end.

(** Round a non-negative integer to the nearest double, ties to even: the
    value [parseInt] returns for a run of decimal digits. *)
Definition roundToDouble (n : Z) : Number :=
  if n <? 2 ^ 53 then Finite (inject_Z n)
  else
    let e := Z.log2 n - 52 in
    let q := Z.shiftr n e in
    let r := n - Z.shiftl q e in
    let half := 2 ^ (e - 1) in
    let q' := if (half <? r) || ((r =? half) && Z.odd q) then q + 1 else q in
    let v := Z.shiftl q' e in
    if 2 ^ 1024 <=? v then Infinity else Finite (inject_Z v).

(* ===================================================================== *)
(** * Strings and the two regular expressions of [isCompatible] *)
(* ===================================================================== *)

Definition isDigit (c : ascii) : bool :=
  ((48 <=? nat_of_ascii c) && (nat_of_ascii c <=? 57))%nat.

Definition digitValue (c : ascii) : Z := Z.of_nat (nat_of_ascii c) - 48.

(** [s.startsWith(p)] *)
Definition startsWith (s p : string) : bool := String.prefix p s.

(** The longest prefix of digits, and what follows it: a greedy [\d*]. *)
Fixpoint takeDigits (s : string) : string * string :=
  match s with
  | String c s' =>
      if isDigit c then let (ds, rest) := takeDigits s' in (String c ds, rest)
      else (EmptyString, s)
  | EmptyString => (EmptyString, EmptyString)
  end.

(** [parseInt(ds)] for a non-empty string of decimal digits. *)
Definition decimalValue (ds : string) : Z :=
  fold_left (fun acc c => 10 * acc + digitValue c) (list_ascii_of_string ds) 0.

Definition parseInt (ds : string) : Number := roundToDouble (decimalValue ds).

(** [v.match(/\d+/)]: the match starts at the first digit of [v] and takes
    the whole run; [None] is JavaScript's [null]. *)
Fixpoint matchDigits (v : string) : option string :=
  match v with
  | EmptyString => None
  | String c v' =>
      if isDigit c then Some (fst (takeDigits v)) else matchDigits v'
  end.

(** [v.match(/\d+\.(\d+)/)], returning capture group 1.  The start positions
    are tried from left to right.  At a start position [\d+] takes the whole
    run of digits; a shorter choice is followed by a digit, never by the
    dot, so backtracking inside the run cannot succeed. *)
Fixpoint matchDotted (v : string) : option string :=
  match v with
  | EmptyString => None
  | String c v' =>
      if isDigit c then
        match snd (takeDigits v) with
        | String "."%char rest =>
            match fst (takeDigits rest) with
            | EmptyString => matchDotted v'
            | group1 => Some group1
            end
        | _ => matchDotted v'
        end
      else matchDotted v'
  end.

(* ===================================================================== *)
(** * The graph store *)
(* ===================================================================== *)

(** Nodes carry the properties the builder sets.  A relationship names its
    end nodes by label and name: the three uniqueness constraints of
    [createConstraints] make (label, name) the identity of a node, and the
    store never holds a relationship without its end nodes, so a pattern
    over relationships is matched on the relationship list alone. *)

Module Project.
Record t : Type := mk
  { name : string; path : string; language : string; version : string;
    description : string; totalDependencies : Z; updatedAt : Z }.
End Project.

Module Package.
Record t : Type := mk
  { name : string; version : string; operator : string; language : string;
    updatedAt : Z }.
End Package.

Module File.
Record t : Type := mk
  { path : string; name : string; type : string; language : string;
    updatedAt : Z }.
End File.

Inductive NodeRef : Type :=
| ProjectRef (name : string)
| PackageRef (name : string).

Definition NodeRef_eqb (a b : NodeRef) : bool :=
  match a, b with
  | ProjectRef x, ProjectRef y => String.eqb x y
  | PackageRef x, PackageRef y => String.eqb x y
  | _, _ => false
  end.

(** A [DEPENDS_ON] relationship; it always ends in a [Package] node.
    Properties that a statement never sets on a relationship are absent
    ([None]). *)
Module DependsOn.
Record t : Type := mk
  { from : NodeRef; to : string;
    versionConstraint : string; type : string;
    direct : option bool; lineNumber : option Z;
    source : option string;
    updatedAt : option Z; createdAt : option Z }.
End DependsOn.

(** A [HAS_FILE] relationship from a project to a file. *)
Module HasFile.
Record t : Type := mk { project : string; file : string }.
End HasFile.

Record Graph : Type := mkGraph
  { projects : list Project.t;
    packages : list Package.t;
    files : list File.t;
    dependsOn : list DependsOn.t;
    hasFile : list HasFile.t }.

(** The store after [MATCH (n) DETACH DELETE n]. *)
Definition emptyGraph : Graph := mkGraph [] [] [] [] [].

(** What [Neo4jClient.getStats] counts, and the [HAS_FILE] relationships. *)
Record Counts : Type := mkCounts
  { countProjects : nat; countPackages : nat; countFiles : nat;
    countDependsOn : nat; countHasFile : nat }.

Definition counts (g : Graph) : Counts :=
  mkCounts (length (projects g)) (length (packages g)) (length (files g))
           (length (dependsOn g)) (length (hasFile g)).

(* ===================================================================== *)
(** * Generic pieces of Cypher *)
(* ===================================================================== *)

Section Cypher.
Variable A : Type.

(** [MERGE pattern SET ...]: every element the pattern matches is updated
    by [set]; when there is none, one is created from [fresh] and updated
    the same way. *)
Definition mergeSet (matches : A -> bool) (set : A -> A) (fresh : A)
           (l : list A) : list A :=
  if existsb matches l
  then map (fun a => if matches a then set a else a) l
  else l ++ [set fresh].

(** [MERGE pattern ON CREATE SET ...]: an existing match is left as it is. *)
Definition mergeOnCreate (matches : A -> bool) (created : A)
           (l : list A) : list A :=
  if existsb matches l then l else l ++ [created].

Variable eqb : A -> A -> bool.

(** Distinct values in order of first occurrence: [collect(DISTINCT ...)],
    [apoc.coll.toSet(...)] and [[...new Set(...)]]. *)
Fixpoint distinctAcc (seen : list A) (l : list A) : list A :=
  match l with
  | [] => []
  | x :: l' =>
      if existsb (eqb x) seen then distinctAcc seen l'
      else x :: distinctAcc (x :: seen) l'
  end.

Definition distinct (l : list A) : list A := distinctAcc [] l.

Variable key : A -> string.

(** [ORDER BY key] ascending: insertion into an ordered list. *)
Fixpoint insertBy (x : A) (l : list A) : list A :=
  match l with
  | [] => [x]
  | y :: l' =>
      if String.leb (key x) (key y) then x :: l else y :: insertBy x l'
  end.

Definition orderBy (l : list A) : list A := fold_right insertBy [] l.

(** The list ascends by [key]. *)
Definition ordered : list A -> Prop :=
  StronglySorted (fun x y => String.leb (key x) (key y) = true).
End Cypher.

(** [text.includes(part)] *)
Definition includes (text part : string) : bool :=
  match String.index 0 part text with
  | Some _ => true
  | None => false
  end.

(** [path.split('/').pop()] *)
Fixpoint lastSegmentAcc (acc s : string) : string :=
  match s with
  | EmptyString => acc
  | String c s' =>
      if Ascii.eqb c "/" then lastSegmentAcc EmptyString s'
      else lastSegmentAcc (acc ++ String c EmptyString) s'
  end.

Definition lastSegment (s : string) : string := lastSegmentAcc EmptyString s.

(** [x || fallback] on strings: the empty string is falsy. *)
Definition orString (x fallback : string) : string :=
  if String.eqb x "" then fallback else x.

(** [x || fallback] on an optional string field: missing is falsy too. *)
Definition orOptString (x : option string) (fallback : string) : string :=
  match x with
  | Some s => orString s fallback
  | None => fallback
  end.

(** [x || 0] on an optional number field. *)
Definition orZero (x : option Z) : Z :=
  match x with
  | Some n => n
  | None => 0
  end.

(* ===================================================================== *)
(** * Records exchanged with the parsers and returned by the queries *)
(* ===================================================================== *)

(** One entry of [parsedData.dependencies].  [lineNumber] and [language]
    are optional fields. *)
Module Dependency.
Record t : Type := mk
  { name : string; version : string; versionRange : string;
    operator : string; type : string;
    lineNumber : option Z; language : option string }.
End Dependency.

(** The Manifest Record a parser hands to [buildProjectGraph]. *)
Module ParsedData.
Record t : Type := mk
  { projectName : string; projectPath : string; language : string;
    version : option string; description : option string;
    dependencyFile : string;
    dependencies : list Dependency.t;
    totalDependencies : Z }.
End ParsedData.

(** [{project: proj.name, version: r.versionConstraint, type: r.type}] *)
Module ConflictDep.
Record t : Type := mk { project : string; version : string; type : string }.

Definition eqb (a b : t) : bool :=
  String.eqb (project a) (project b) && String.eqb (version a) (version b)
  && String.eqb (type a) (type b).
End ConflictDep.

(** A row [{packageName, dependencies}] of the conflict queries. *)
Module Conflict.
Record t : Type := mk
  { packageName : string; dependencies : list ConflictDep.t }.
End Conflict.

(** [{package1, package2}] *)
Module DirectCycle.
Record t : Type := mk { package1 : string; package2 : string }.
End DirectCycle.

(** The row of the cycle-statistics query, and the object
    [CircularDependencyAnalyzer.getStatistics] returns. *)
Module CycleStats.
Record t : Type := mk
  { totalCycles : JsValue; shortestCycle : JsValue;
    longestCycle : JsValue; avgCycleLength : JsValue }.
End CycleStats.

Module SharedRow.
Record t : Type := mk { totalPackages : JsValue; sharedPackages : JsValue }.
End SharedRow.

(** The object [VersionConflictAnalyzer.getStatistics] returns. *)
Module ConflictStats.
Record t : Type := mk
  { totalPackages : JsValue; sharedPackages : JsValue;
    conflictingPackages : JsValue }.
End ConflictStats.

Module LinkRow.
Record t : Type := mk { linksCreated : JsValue }.
End LinkRow.

(* ===================================================================== *)
(** * The Cypher statements of the program *)
(* ===================================================================== *)

(** One constructor per query text in the sources, with its parameters; the
    index is the type of a result row. *)
Inductive Query : Type -> Type :=
| MergeProject (name path language version description : string)
               (totalDeps : Z) : Query Project.t
| MergePackage (name version operator language : string) : Query Package.t
| MergeDependsOn (projectName packageName versionConstraint type : string)
                 (lineNumber : Z) : Query DependsOn.t
| MergeFile (projectName filePath fileName fileType language : string)
    : Query File.t
| LinkPackages : Query LinkRow.t
| DirectCycles : Query DirectCycle.t
| CycleStatistics : Query CycleStats.t
| ConflictsToSet : Query Conflict.t
| ConflictsBasic : Query Conflict.t
| PackageConflict (packageName : string) : Query Conflict.t
| SharedStatistics : Query SharedRow.t.

Definition withProjects (g : Graph) (ps : list Project.t) : Graph :=
  mkGraph ps (packages g) (files g) (dependsOn g) (hasFile g).

Definition withPackages (g : Graph) (ps : list Package.t) : Graph :=
  mkGraph (projects g) ps (files g) (dependsOn g) (hasFile g).

Definition withDependsOn (g : Graph) (rs : list DependsOn.t) : Graph :=
  mkGraph (projects g) (packages g) (files g) rs (hasFile g).

Definition withFile (g : Graph) (fs : list File.t) (hs : list HasFile.t)
  : Graph :=
  mkGraph (projects g) (packages g) fs (dependsOn g) hs.

Definition hasProject (g : Graph) (name : string) : bool :=
  existsb (fun p => String.eqb (Project.name p) name) (projects g).

Definition hasPackage (g : Graph) (name : string) : bool :=
  existsb (fun p => String.eqb (Package.name p) name) (packages g).

(** The relationships from node [a] to package [b]. *)
Definition joins (a : NodeRef) (b : string) (r : DependsOn.t) : bool :=
  NodeRef_eqb (DependsOn.from r) a && String.eqb (DependsOn.to r) b.

(** [MERGE (p:Project {name: $name}) SET p.path = ..., p.updatedAt =
    datetime() RETURN p] *)
Definition evalMergeProject (now : Z)
           (name path language version description : string) (totalDeps : Z)
           (g : Graph) : Graph * list Project.t :=
  let node := Project.mk name path language version description totalDeps now in
  let matches p := String.eqb (Project.name p) name in
  let ps := mergeSet matches (fun _ => node) node (projects g) in
  (withProjects g ps, filter matches ps).

(** [MERGE (pkg:Package {name: $name}) SET pkg.version = ..., pkg.updatedAt
    = datetime() RETURN pkg] *)
Definition evalMergePackage (now : Z) (name version operator language : string)
           (g : Graph) : Graph * list Package.t :=
  let node := Package.mk name version operator language now in
  let matches p := String.eqb (Package.name p) name in
  let ps := mergeSet matches (fun _ => node) node (packages g) in
  (withPackages g ps, filter matches ps).

(** [MATCH (proj:Project {name: $projectName})
     MATCH (pkg:Package {name: $packageName})
     MERGE (proj)-[r:DEPENDS_ON]->(pkg)
     SET r.versionConstraint = ..., r.type = ..., r.direct = true,
         r.lineNumber = ..., r.updatedAt = datetime() RETURN r]
    No row, and no write, when one of the two nodes is missing.  [SET]
    leaves the properties it does not name as they are. *)
Definition evalMergeDependsOn (now : Z)
           (projectName packageName versionConstraint type : string)
           (lineNumber : Z) (g : Graph) : Graph * list DependsOn.t :=
  if hasProject g projectName && hasPackage g packageName then
    let matches := joins (ProjectRef projectName) packageName in
    let set r :=
      DependsOn.mk (DependsOn.from r) (DependsOn.to r) versionConstraint type
                   (Some true) (Some lineNumber) (DependsOn.source r)
                   (Some now) (DependsOn.createdAt r) in
    let fresh :=
      DependsOn.mk (ProjectRef projectName) packageName "" "" None None None
                   None None in
    let rs := mergeSet matches set fresh (dependsOn g) in
    (withDependsOn g rs, filter matches rs)
  else (g, []).

(** [MATCH (proj:Project {name: $projectName})
     MERGE (f:File {path: $filePath})
     SET f.name = ..., f.type = ..., f.language = ..., f.updatedAt = datetime()
     MERGE (proj)-[:HAS_FILE]->(f) RETURN f] *)
Definition evalMergeFile (now : Z)
           (projectName filePath fileName fileType language : string)
           (g : Graph) : Graph * list File.t :=
  if hasProject g projectName then
    let node := File.mk filePath fileName fileType language now in
    let matches f := String.eqb (File.path f) filePath in
    let fs := mergeSet matches (fun _ => node) node (files g) in
    let link := HasFile.mk projectName filePath in
    let linked h :=
      String.eqb (HasFile.project h) projectName
      && String.eqb (HasFile.file h) filePath in
    let hs := mergeOnCreate linked link (hasFile g) in
    (withFile g fs hs, filter matches fs)
  else (g, []).

(** The rows of
    [MATCH (proj:Project) MATCH (pkg:Package {name: proj.name})
     MATCH (proj)-[r:DEPENDS_ON]->(depPkg:Package)]:
    the name of [pkg] and the relationship [r] (whose end is [depPkg]). *)
Definition linkRows (g : Graph) : list (string * DependsOn.t) :=
  flat_map (fun proj =>
    flat_map (fun pkg =>
      if String.eqb (Package.name pkg) (Project.name proj) then
        map (fun r => (Package.name pkg, r))
            (filter (fun r => NodeRef_eqb (DependsOn.from r)
                                          (ProjectRef (Project.name proj)))
                    (dependsOn g))
      else [])
      (packages g))
    (projects g).

(** The relationship [ON CREATE SET] builds for one row. *)
Definition derivedFrom (now : Z) (row : string * DependsOn.t) : DependsOn.t :=
  DependsOn.mk (PackageRef (fst row)) (DependsOn.to (snd row))
               (DependsOn.versionConstraint (snd row))
               (DependsOn.type (snd row))
               None None (Some "derived") None (Some now).

(** [MERGE (pkg)-[r2:DEPENDS_ON]->(depPkg) ON CREATE SET ...] for one row;
    it sees the relationships created for the rows before it. *)
Definition linkOne (now : Z) (rs : list DependsOn.t)
           (row : string * DependsOn.t) : list DependsOn.t :=
  mergeOnCreate (joins (PackageRef (fst row)) (DependsOn.to (snd row)))
                (derivedFrom now row) rs.

(** The whole statement of [linkPackageDependencies];
    [count(DISTINCT r2)] counts the relationships some row bound to [r2]. *)
Definition evalLinkPackages (now : Z) (g : Graph) : Graph * list LinkRow.t :=
  let rows := linkRows g in
  let rs := fold_left (linkOne now) rows (dependsOn g) in
  let bound r2 :=
    existsb (fun row => joins (PackageRef (fst row)) (DependsOn.to (snd row)) r2)
            rows in
  (withDependsOn g rs,
   [LinkRow.mk (JsInteger (Z.of_nat (length (filter bound rs))))]).

(** [MATCH (p1:Package)-[:DEPENDS_ON]->(p2:Package)-[:DEPENDS_ON]->(p1)
     WHERE p1.name < p2.name RETURN p1.name as package1, p2.name as package2]:
    one row per pair of relationships.  The two relationships of a match
    differ, as Cypher requires, because [p1] and [p2] do. *)
Definition evalDirectCycles (g : Graph) : list DirectCycle.t :=
  flat_map (fun r1 =>
    match DependsOn.from r1 with
    | PackageRef p1 =>
        let p2 := DependsOn.to r1 in
        flat_map (fun r2 =>
          if joins (PackageRef p2) p1 r2 && String.ltb p1 p2
          then [DirectCycle.mk p1 p2] else [])
          (dependsOn g)
    | ProjectRef _ => []
    end)
    (dependsOn g).

(** Relationships with their position in the store, which identifies them. *)
Definition indexed (g : Graph) : list (nat * DependsOn.t) :=
  combine (seq 0 (length (dependsOn g))) (dependsOn g).

(** The paths [(at)-[:DEPENDS_ON*]->(target)] that avoid the relationships
    in [used], as lists of positions.  A path never repeats a relationship;
    it may pass through [target] before it ends there.  [fuel] bounds the
    length of the paths. *)
Fixpoint trails (fuel : nat) (rels : list (nat * DependsOn.t))
         (used : list nat) (at_ target : string) : list (list nat) :=
  match fuel with
  | O => []
  | S fuel' =>
      flat_map (fun ir =>
        if NodeRef_eqb (DependsOn.from (snd ir)) (PackageRef at_)
           && negb (existsb (Nat.eqb (fst ir)) used)
        then
          ((if String.eqb (DependsOn.to (snd ir)) target then [[fst ir]] else [])
           ++ map (cons (fst ir))
                  (trails fuel' rels (fst ir :: used)
                          (DependsOn.to (snd ir)) target))%list
        else [])
        rels
  end.

(** [MATCH path = (p:Package)-[:DEPENDS_ON*]->(p) WHERE length(path) > 1]:
    a path has at most as many steps as the store has relationships. *)
Definition cyclePaths (g : Graph) : list (list nat) :=
  filter (fun path => (1 <? length path)%nat)
    (flat_map (fun p =>
       trails (length (dependsOn g)) (indexed g) []
              (Package.name p) (Package.name p))
       (packages g)).

Definition listNatEqb (a b : list nat) : bool :=
  if list_eq_dec Nat.eq_dec a b then true else false.

Definition minimum (l : list nat) : JsValue :=
  match l with
  | [] => JsNull
  | x :: l' => JsInteger (Z.of_nat (fold_left Nat.min l' x))
  end.

Definition maximum (l : list nat) : JsValue :=
  match l with
  | [] => JsNull
  | x :: l' => JsInteger (Z.of_nat (fold_left Nat.max l' x))
  end.

(** The double nearest to the non-negative rational [n / d], ties to even:
    the quotient of two integers in floating point.  Values below the
    normal range of doubles do not occur for a mean of lengths. *)
Definition nearestDouble (n : Z) (d : positive) : Number :=
  if n <=? 0 then Finite 0
  else
    let e0 := Z.log2 n - Z.log2 (Zpos d) in
    let e := if (if 0 <=? e0 then 2 ^ e0 * Zpos d <=? n
                 else Zpos d <=? n * 2 ^ (- e0))
             then e0 else e0 - 1 in
    let s := 52 - e in
    let num := if 0 <=? s then n * 2 ^ s else n in
    let den := if 0 <=? s then Zpos d else Zpos d * 2 ^ (- s) in
    let m0 := num / den in
    let r := num mod den in
    let m := if (den <? 2 * r) || ((2 * r =? den) && Z.odd m0)
             then m0 + 1 else m0 in
    if 0 <=? s then Finite (Qred (Qmake m (Z.to_pos (2 ^ s))))
    else if 2 ^ 1024 <=? m * 2 ^ (- s) then Infinity
    else Finite (inject_Z (m * 2 ^ (- s))).

(** Cypher's [avg] of integers is a float: the sum divided by the count. *)
Definition average (l : list nat) : JsValue :=
  match l with
  | [] => JsNull
  | _ :: _ =>
      JsNum (nearestDouble (Z.of_nat (fold_left Nat.add l 0%nat))
                           (Pos.of_nat (length l)))
  end.

(** [... WITH path, length(path) as cycleLength
     RETURN count(DISTINCT path) as totalCycles, min(cycleLength) as
     shortestCycle, max(cycleLength) as longestCycle, avg(cycleLength) as
     avgCycleLength]: an aggregation without a grouping key returns one row
     also when nothing matched, with [null] for [min], [max] and [avg]. *)
Definition evalCycleStatistics (g : Graph) : list CycleStats.t :=
  let paths := cyclePaths g in
  let lengths := map (@length nat) paths in
  [CycleStats.mk (JsInteger (Z.of_nat (length (distinct listNatEqb paths))))
                 (minimum lengths) (maximum lengths) (average lengths)].

(** The rows of [MATCH (proj:Project)-[r:DEPENDS_ON]->(pkg:Package)]. *)
Definition projectRows (g : Graph) : list DependsOn.t :=
  filter (fun r => match DependsOn.from r with
                   | ProjectRef _ => true
                   | PackageRef _ => false
                   end)
         (dependsOn g).

Definition fromName (r : DependsOn.t) : string :=
  match DependsOn.from r with
  | ProjectRef n => n
  | PackageRef n => n
  end.

Definition conflictDep (r : DependsOn.t) : ConflictDep.t :=
  ConflictDep.mk (fromName r) (DependsOn.versionConstraint r) (DependsOn.type r).

(** Grouping rows by [pkg.name]: one group per name, in order of first
    occurrence. *)
Definition groupByPackage (rows : list DependsOn.t)
  : list (string * list DependsOn.t) :=
  map (fun k => (k, filter (fun r => String.eqb (DependsOn.to r) k) rows))
      (distinct String.eqb (map DependsOn.to rows)).

Definition versionsOf (deps : list ConflictDep.t) : list string :=
  map ConflictDep.version deps.

(** The query of [findVersionConflicts]:
    [WITH pkg.name as packageName, collect(DISTINCT {...}) as dependencies
     WHERE size(dependencies) > 1
     WITH packageName, dependencies, [dep IN dependencies | dep.version] as versions
     WHERE size(apoc.coll.toSet(versions)) > 1
     RETURN packageName, dependencies ORDER BY packageName] *)
Definition evalConflictsToSet (g : Graph) : list Conflict.t :=
  let collected :=
    map (fun kv => Conflict.mk (fst kv)
                     (distinct ConflictDep.eqb (map conflictDep (snd kv))))
        (groupByPackage (projectRows g)) in
  let several :=
    filter (fun c => (1 <? length (Conflict.dependencies c))%nat) collected in
  let differing :=
    filter (fun c => (1 <? length (distinct String.eqb
                                     (versionsOf (Conflict.dependencies c))))%nat)
           several in
  orderBy Conflict.packageName differing.

(** The query of [findVersionConflictsBasic]:
    [WITH pkg.name as packageName, collect({...}) as dependencies
     WHERE size(dependencies) > 1
     RETURN packageName, dependencies ORDER BY packageName] *)
Definition evalConflictsBasic (g : Graph) : list Conflict.t :=
  let collected :=
    map (fun kv => Conflict.mk (fst kv) (map conflictDep (snd kv)))
        (groupByPackage (projectRows g)) in
  orderBy Conflict.packageName
    (filter (fun c => (1 <? length (Conflict.dependencies c))%nat) collected).

(** The query of [findPackageConflict]:
    [MATCH (proj:Project)-[r:DEPENDS_ON]->(pkg:Package {name: $packageName})
     RETURN pkg.name as packageName, collect({...}) as dependencies]:
    grouped by [pkg.name], so there is no row when nothing matched. *)
Definition evalPackageConflict (packageName : string) (g : Graph)
  : list Conflict.t :=
  map (fun kv => Conflict.mk (fst kv) (map conflictDep (snd kv)))
      (groupByPackage
         (filter (fun r => String.eqb (DependsOn.to r) packageName)
                 (projectRows g))).

(** The query of [VersionConflictAnalyzer.getStatistics]:
    [MATCH (pkg:Package) WITH count(DISTINCT pkg.name) as totalPackages
     MATCH (proj:Project)-[:DEPENDS_ON]->(pkg:Package)
     WITH totalPackages, pkg.name as packageName, count(proj) as usageCount
     WHERE usageCount > 1
     WITH totalPackages, count(packageName) as sharedPackages
     RETURN totalPackages, sharedPackages]:
    the last aggregation is grouped by [totalPackages], so it returns no row
    when no package passes the filter. *)
Definition evalSharedStatistics (g : Graph) : list SharedRow.t :=
  let total := length (distinct String.eqb (map Package.name (packages g))) in
  let shared :=
    filter (fun kv => (1 <? length (snd kv))%nat)
           (groupByPackage (projectRows g)) in
  match shared with
  | [] => []
  | _ :: _ => [SharedRow.mk (JsInteger (Z.of_nat total))
                            (JsInteger (Z.of_nat (length shared)))]
  end.

(** The store after a statement, and the rows it returns.  [now] is what
    [datetime()] evaluates to. *)
Definition evalQuery (now : Z) (R : Type) (query : Query R) (g : Graph)
  : Graph * list R :=
  match query in Query R return Graph * list R with
  | MergeProject name path language version description totalDeps =>
      evalMergeProject now name path language version description totalDeps g
  | MergePackage name version operator language =>
      evalMergePackage now name version operator language g
  | MergeDependsOn projectName packageName versionConstraint type lineNumber =>
      evalMergeDependsOn now projectName packageName versionConstraint type
                         lineNumber g
  | MergeFile projectName filePath fileName fileType language =>
      evalMergeFile now projectName filePath fileName fileType language g
  | LinkPackages => evalLinkPackages now g
  | DirectCycles => (g, evalDirectCycles g)
  | CycleStatistics => (g, evalCycleStatistics g)
  | ConflictsToSet => (g, evalConflictsToSet g)
  | ConflictsBasic => (g, evalConflictsBasic g)
  | PackageConflict packageName => (g, evalPackageConflict packageName g)
  | SharedStatistics => (g, evalSharedStatistics g)
  end.

(* ===================================================================== *)
(** * The store gateway and asynchronous methods *)
(* ===================================================================== *)

(** How an awaited call ends: with a value, or with a thrown [Error] (kept
    by its [message]). *)
Inductive Outcome (A : Type) : Type :=
| Returned (value : A)
| Thrown (message : string).

Arguments Thrown {A} message.

(** The store and its clock; every statement takes one tick. *)
Record World : Type := mkWorld { graph : Graph; clock : Z }.

Definition Async (A : Type) : Type := World -> Outcome A * World.

Definition ret (A : Type) (a : A) : Async A := fun w => (Returned a, w).

Definition throw (A : Type) (message : string) : Async A :=
  fun w => (Thrown message, w).

Arguments throw {A} message _.

Definition bind (A B : Type) (m : Async A) (k : A -> Async B) : Async B :=
  fun w =>
    match m w with
    | (Returned a, w') => k a w'
    | (Thrown message, w') => (Thrown message, w')
    end.

(** [try { body } catch (error) { handler }] *)
Definition tryCatch (A : Type) (body : Async A) (handler : string -> Async A)
  : Async A :=
  fun w =>
    match body w with
    | (Returned a, w') => (Returned a, w')
    | (Thrown message, w') => handler message w'
    end.

Notation "x <- m ;; k" := (bind m (fun x => k))
  (at level 61, m at next level, right associativity).

(** The deployment behind [Neo4jClient]: whether the APOC plugin is
    installed, and which statement fails at which time for a reason of the
    store's own (connection lost, ...); [None] is no failure. *)
Record Neo4jClient : Type := mkClient
  { apocInstalled : bool;
    failure : Z -> forall R : Type, Query R -> option string }.

Definition usesApoc (R : Type) (query : Query R) : bool :=
  match query with
  | ConflictsToSet => true
  | _ => false
  end.

(** The message of the store for a call of a function it does not have. *)
Definition unknownFunction : string := "Unknown function 'apoc.coll.toSet'".

(** [Neo4jClient.executeQuery]: run the statement, rethrow its error. *)
Definition executeQuery (client : Neo4jClient) (R : Type) (query : Query R)
  : Async (list R) :=
  fun w =>
    let later := mkWorld (graph w) (clock w + 1) in
    match failure client (clock w) query with
    | Some message => (Thrown message, later)
    | None =>
        if usesApoc query && negb (apocInstalled client)
        then (Thrown unknownFunction, later)
        else
          let (g, rows) := evalQuery (clock w) query (graph w) in
          (Returned rows, mkWorld g (clock w + 1))
    end.

(** A number holding a length or a counter. *)
Definition jsNat (n : nat) : JsValue := JsNum (Finite (inject_Z (Z.of_nat n))).

(** The [.low] word of a driver [Integer]. *)
Definition low32 (i : Z) : Z :=
  let m := i mod 2 ^ 32 in
  if m <? 2 ^ 31 then m else m - 2 ^ 32.

Module GraphBuilder.
Section Methods.
Variable client : Neo4jClient.

(** [_createProjectNode(parsedData)] *)
Definition _createProjectNode (parsedData : ParsedData.t)
  : Async (option Project.t) :=
  result <- executeQuery client
              (MergeProject (ParsedData.projectName parsedData)
                            (ParsedData.projectPath parsedData)
                            (ParsedData.language parsedData)
                            (orOptString (ParsedData.version parsedData) "1.0.0")
                            (orOptString (ParsedData.description parsedData) "")
                            (ParsedData.totalDependencies parsedData)) ;;
  ret (hd_error result).

(** The [for (const dep of dependencies)] loop of [_createDependencyNodes],
    with the counter [packagesCreated]. *)
Fixpoint createDependencyLoop (projectName : string)
         (dependencies : list Dependency.t) (packagesCreated : nat)
  : Async nat :=
  match dependencies with
  | [] => ret packagesCreated
  | dep :: rest =>
      _ <- executeQuery client
             (MergePackage (Dependency.name dep) (Dependency.version dep)
                           (orString (Dependency.operator dep) "")
                           (orOptString (Dependency.language dep) "javascript")) ;;
      _ <- executeQuery client
             (MergeDependsOn projectName (Dependency.name dep)
                             (orString (Dependency.versionRange dep)
                                       (Dependency.version dep))
                             (orString (Dependency.type dep) "production")
                             (orZero (Dependency.lineNumber dep))) ;;
      createDependencyLoop projectName rest (S packagesCreated)
  end.

(** [_createDependencyNodes(projectName, dependencies)] *)
Definition _createDependencyNodes (projectName : string)
           (dependencies : list Dependency.t) : Async nat :=
  createDependencyLoop projectName dependencies 0.

(** [_createFileNode(parsedData)] *)
Definition _createFileNode (parsedData : ParsedData.t)
  : Async (option File.t) :=
  let fileName := lastSegment (ParsedData.dependencyFile parsedData) in
  result <- executeQuery client
              (MergeFile (ParsedData.projectName parsedData)
                         (ParsedData.dependencyFile parsedData)
                         fileName "dependency_manifest"
                         (ParsedData.language parsedData)) ;;
  ret (hd_error result).

(** [buildProjectGraph(parsedData)] *)
Definition buildProjectGraph (parsedData : ParsedData.t) : Async bool :=
  tryCatch
    (_ <- _createProjectNode parsedData ;;
     _ <- _createDependencyNodes (ParsedData.projectName parsedData)
                                 (ParsedData.dependencies parsedData) ;;
     _ <- _createFileNode parsedData ;;
     ret true)
    (fun error => throw error).

(** [result[0]?.linksCreated?.low || result[0]?.linksCreated || 0] *)
Definition unwrapLinks (result : list LinkRow.t) : JsValue :=
  match result with
  | [] => jsNat 0
  | row :: _ =>
      match LinkRow.linksCreated row with
      | JsInteger i =>
          if low32 i =? 0 then JsInteger i
          else JsNum (Finite (inject_Z (low32 i)))
      | JsNum (Finite q) => if Qeq_bool q 0 then jsNat 0 else JsNum (Finite q)
      | JsNum Infinity => JsNum Infinity
      | JsNull => jsNat 0
      end
  end.

(** [linkPackageDependencies()] *)
Definition linkPackageDependencies : Async JsValue :=
  tryCatch
    (result <- executeQuery client LinkPackages ;;
     ret (unwrapLinks result))
    (fun error => throw error).

End Methods.
End GraphBuilder.

Module CircularDependencyAnalyzer.
Section Methods.
Variable client : Neo4jClient.

(** [findDirectCircularDependencies()] *)
Definition findDirectCircularDependencies : Async (list DirectCycle.t) :=
  tryCatch
    (result <- executeQuery client DirectCycles ;;
     ret (map (fun record =>
                 DirectCycle.mk (DirectCycle.package1 record)
                                (DirectCycle.package2 record))
              result))
    (fun error => throw error).

Definition noCycles : CycleStats.t :=
  CycleStats.mk (jsNat 0) (jsNat 0) (jsNat 0) (jsNat 0).

(** [x.toFixed(2)] read back by [parseFloat]: the nearest multiple of 0.01,
    the larger one on a tie. *)
Definition toFixed2 (x : Number) : Number :=
  match x with
  | Finite q => Finite (Qred (Qmake (Qfloor (q * 100 + (1 # 2))) 100))
  | Infinity => Infinity
  end.

(** [parseFloat(record.avgCycleLength?.toFixed(2) || 0)]; a driver
    [Integer] has no method [toFixed], so the call throws a [TypeError]. *)
Definition roundAverage (avg : JsValue) : Async JsValue :=
  match avg with
  | JsNull => ret (jsNat 0)
  | JsNum x => ret (JsNum (toFixed2 x))
  | JsInteger _ => throw "record.avgCycleLength?.toFixed is not a function"
  end.

(** [getStatistics()]; [None] is the [null] of the [catch] block. *)
Definition getStatistics : Async (option CycleStats.t) :=
  tryCatch
    (result <- executeQuery client CycleStatistics ;;
     match result with
     | [] => ret (Some noCycles)
     | record :: _ =>
         if strictEqZero (CycleStats.totalCycles record)
         then ret (Some noCycles)
         else
           avg <- roundAverage (CycleStats.avgCycleLength record) ;;
           ret (Some (CycleStats.mk (CycleStats.totalCycles record)
                                    (CycleStats.shortestCycle record)
                                    (CycleStats.longestCycle record)
                                    avg))
     end)
    (fun error => ret None).

End Methods.
End CircularDependencyAnalyzer.

Module VersionConflictAnalyzer.
Section Methods.
Variable client : Neo4jClient.

(** The [filter] callback of [findVersionConflictsBasic]:
    [versions = record.dependencies.map(dep => dep.version);
     uniqueVersions = [...new Set(versions)];
     return uniqueVersions.length > 1] *)
Definition hasSeveralVersions (record : Conflict.t) : bool :=
  let versions := map ConflictDep.version (Conflict.dependencies record) in
  let uniqueVersions := distinct String.eqb versions in
  (1 <? length uniqueVersions)%nat.

(** [findVersionConflictsBasic()] *)
Definition findVersionConflictsBasic : Async (list Conflict.t) :=
  tryCatch
    (result <- executeQuery client ConflictsBasic ;;
     let conflicts := filter hasSeveralVersions result in
     match conflicts with
     | [] => ret []
     | _ :: _ => ret conflicts
     end)
    (fun error => throw error).

(** [findVersionConflicts()] *)
Definition findVersionConflicts : Async (list Conflict.t) :=
  tryCatch
    (result <- executeQuery client ConflictsToSet ;;
     match result with
     | [] => ret []
     | _ :: _ => ret result
     end)
    (fun error =>
       if includes error "apoc" then findVersionConflictsBasic
       else throw error).

(** [findPackageConflict(packageName)]; [None] is [null]. *)
Definition findPackageConflict (packageName : string)
  : Async (option Conflict.t) :=
  tryCatch
    (result <- executeQuery client (PackageConflict packageName) ;;
     match result with
     | [] => ret None
     | record :: _ =>
         let versions := map ConflictDep.version (Conflict.dependencies record) in
         let uniqueVersions := distinct String.eqb versions in
         if (length uniqueVersions =? 1)%nat then ret None
         else ret (Some record)
     end)
    (fun error => throw error).

(** [getStatistics()]; [None] is the [null] of the [catch] block. *)
Definition getStatistics : Async (option ConflictStats.t) :=
  tryCatch
    (result <- executeQuery client SharedStatistics ;;
     match result with
     | [] => ret (Some (ConflictStats.mk (jsNat 0) (jsNat 0) (jsNat 0)))
     | row :: _ =>
         conflicts <- findVersionConflicts ;;
         ret (Some (ConflictStats.mk (SharedRow.totalPackages row)
                                     (SharedRow.sharedPackages row)
                                     (jsNat (length conflicts))))
     end)
    (fun error => ret None).

End Methods.

(** [const getMajor = (v) => { const match = v.match(/\d+/);
      return match ? parseInt(match[0]) : null; }] *)
Definition getMajor (v : string) : option Number :=
  match matchDigits v with
  | Some m0 => Some (parseInt m0)
  | None => None
  end.

(** [const getMinor = (v) => { const match = v.match(/\d+\.(\d+)/);
      return match ? parseInt(match[1]) : null; }] *)
Definition getMinor (v : string) : option Number :=
  match matchDotted v with
  | Some m1 => Some (parseInt m1)
  | None => None
  end.

(** [isCompatible(version1, version2)] *)
Definition isCompatible (version1 version2 : string) : bool :=
  if String.eqb version1 version2 then true
  else
    let major1 := getMajor version1 in
    let major2 := getMajor version2 in
    if startsWith version1 "^" && startsWith version2 "^" then
      strictEq major1 major2
    else if startsWith version1 "~" && startsWith version2 "~" then
      strictEq major1 major2 && strictEq (getMinor version1) (getMinor version2)
    else false.
End VersionConflictAnalyzer.

(* ===================================================================== *)
(** * The sample workspace of [createCircularSamples.js] *)
(* ===================================================================== *)

Module Samples.

(** What [JavaScriptParser._extractDependencies] yields for an entry
    [name: "^version"] of [dependencies]. *)
Definition caret (name version : string) : Dependency.t :=
  Dependency.mk name version ("^" ++ version) "^" "production" None None.

(** What [JavaScriptParser.parse] yields for one of the sample projects. *)
Definition sample (name : string) (deps : list Dependency.t) : ParsedData.t :=
  ParsedData.mk name ("sample_projects/company_A/" ++ name) "javascript"
                (Some "1.0.0") (Some "")
                ("sample_projects/company_A/" ++ name ++ "/package.json")
                deps (Z.of_nat (length deps)).

Definition projectA : ParsedData.t :=
  sample "authService"
         [caret "userService" "1.0.0"; caret "paymentService" "1.0.0";
          caret "express" "4.18.0"; caret "lodash" "4.17.21"].

Definition projectB : ParsedData.t :=
  sample "userService"
         [caret "paymentService" "1.0.0"; caret "express" "4.17.0";
          caret "lodash" "4.17.0"].

Definition projectC : ParsedData.t :=
  sample "paymentService"
         [caret "authService" "1.0.0"; caret "axios" "1.0.0";
          caret "express" "4.18.2"].

Definition projectD : ParsedData.t :=
  sample "sharedUtils"
         [caret "dataAnalytics" "1.0.0"; caret "lodash" "4.16.0"].

Definition projectE : ParsedData.t :=
  sample "dataAnalytics"
         [caret "sharedUtils" "1.0.0"; caret "axios" "0.27.0"].

(** A deployment with APOC in which no statement fails. *)
Definition healthy : Neo4jClient := mkClient true (fun _ _ _ => None).

(** The same without the APOC plugin. *)
Definition plain : Neo4jClient := mkClient false (fun _ _ _ => None).


(** [analyzeProject]'s two writes for one project: build, then link. *)
Definition load (client : Neo4jClient) (parsedData : ParsedData.t)
  : Async JsValue :=
  _ <- GraphBuilder.buildProjectGraph client parsedData ;;
  GraphBuilder.linkPackageDependencies client.

Definition start : World := mkWorld emptyGraph 0.

(** The store after the five sample projects are loaded in the order the
    script prints. *)
Definition company : World :=
  snd ((_ <- load healthy projectA ;;
        _ <- load healthy projectB ;;
        _ <- load healthy projectC ;;
        _ <- load healthy projectD ;;
        load healthy projectE) start).

(** The store after [authService] is loaded and [userService] is built,
    before the packages of the second are linked. *)
Definition beforeLink : World :=
  snd ((_ <- load healthy projectA ;;
        GraphBuilder.buildProjectGraph healthy projectB) start).

(** The store after [authService] is built. *)
Definition builtA : World :=
  snd (GraphBuilder.buildProjectGraph healthy projectA start).

(** Two projects that depend on each other, loaded one after the other. *)
Definition mutual : World :=
  snd ((_ <- load healthy (sample "D" [caret "E" "1.0.0"]) ;;
        load healthy (sample "E" [caret "D" "1.0.0"])) start).

(** A manifest that names [lodash] in two sections. *)
Definition twice : ParsedData.t :=
  sample "app"
         [caret "lodash" "4.17.21"; caret "jest" "29.6.1";
          caret "lodash" "4.17.0"].

End Samples.

(* ===================================================================== *)
(** * Vocabulary of the statements *)
(* ===================================================================== *)

(** The string contains a decimal digit. *)
Definition hasDigit (s : string) : bool :=
  existsb isDigit (list_ascii_of_string s).

(** The relationships from a project to the package [packageName]. *)
Definition dependents (g : Graph) (packageName : string) : list DependsOn.t :=
  filter (fun r => String.eqb (DependsOn.to r) packageName) (projectRows g).

(** The distinct version-constraint strings among the projects that depend
    on [packageName]. *)
Definition constraintsOn (g : Graph) (packageName : string) : list string :=
  distinct String.eqb (map DependsOn.versionConstraint (dependents g packageName)).

(** The end nodes of a relationship: what [MERGE] identifies it by. *)
Definition ends (r : DependsOn.t) : NodeRef * string :=
  (DependsOn.from r, DependsOn.to r).

(** At most one [DEPENDS_ON] relationship between two nodes. *)
Definition singleRelationships (g : Graph) : Prop :=
  NoDup (map ends (dependsOn g)).

(** The stores the program can produce: from the cleared store, by any of
    its statements, at any time. *)
Inductive reachable : Graph -> Prop :=
| reachable_empty : reachable emptyGraph
| reachable_step (R : Type) (query : Query R) (now : Z) (g : Graph) :
    reachable g -> reachable (fst (evalQuery now query g)).

(** There is a relationship from node [a] to the package [b]. *)
Definition hasRelationship (g : Graph) (a : NodeRef) (b : string) : bool :=
  existsb (joins a b) (dependsOn g).

Definition hasFileNode (g : Graph) (path : string) : bool :=
  existsb (fun f => String.eqb (File.path f) path) (files g).

Definition hasLink (g : Graph) (project path : string) : bool :=
  existsb (fun h => String.eqb (HasFile.project h) project
                    && String.eqb (HasFile.file h) path)
          (hasFile g).

(** Everything [g] holds, by its identity, [g'] holds too. *)
Definition extends (g g' : Graph) : Prop :=
  (forall n, hasProject g n = true -> hasProject g' n = true)
  /\ (forall n, hasPackage g n = true -> hasPackage g' n = true)
  /\ (forall a b, hasRelationship g a b = true -> hasRelationship g' a b = true)
  /\ (forall p, hasFileNode g p = true -> hasFileNode g' p = true)
  /\ (forall n p, hasLink g n p = true -> hasLink g' n p = true).

(** The store holds every node and relationship that [buildProjectGraph]
    merges for [parsedData]. *)
Definition covered (parsedData : ParsedData.t) (g : Graph) : Prop :=
  hasProject g (ParsedData.projectName parsedData) = true
  /\ Forall (fun dep =>
              hasPackage g (Dependency.name dep) = true
              /\ hasRelationship g (ProjectRef (ParsedData.projectName parsedData))
                                 (Dependency.name dep) = true)
            (ParsedData.dependencies parsedData)
  /\ hasFileNode g (ParsedData.dependencyFile parsedData) = true
  /\ hasLink g (ParsedData.projectName parsedData)
             (ParsedData.dependencyFile parsedData) = true.

(** What a row of the link statement is made of. *)
Definition linkable (g : Graph) (row : string * DependsOn.t) : Prop :=
  hasProject g (fst row) = true
  /\ hasPackage g (fst row) = true
  /\ In (snd row) (dependsOn g)
  /\ DependsOn.from (snd row) = ProjectRef (fst row).

(** Run from a store of the program, the computation ends in one. *)
Definition keepsReachable (A : Type) (m : Async A) : Prop :=
  forall w, reachable (graph w) -> reachable (graph (snd (m w))).

(** The relationship carries [source = 'derived']. *)
Definition isDerived (r : DependsOn.t) : bool :=
  match DependsOn.source r with
  | Some s => String.eqb s "derived"
  | None => false
  end.

(** No statement of a client ever fails for a reason of the store's own. *)
Definition reliable (client : Neo4jClient) : Prop :=
  forall (now : Z) (R : Type) (query : Query R), failure client now query = None.

(* ===================================================================== *)
(** * Further vocabulary: the shape of a store *)
(* ===================================================================== *)

(** No two nodes of a label share their identity, and no two [HAS_FILE]
    relationships join the same project and file. *)
Definition uniqueNodes (g : Graph) : Prop :=
  NoDup (map Project.name (projects g))
  /\ NoDup (map Package.name (packages g))
  /\ NoDup (map File.path (files g))
  /\ NoDup (hasFile g).

(** The node a relationship starts at is in the store. *)
Definition hasNode (g : Graph) (a : NodeRef) : bool :=
  match a with
  | ProjectRef n => hasProject g n
  | PackageRef n => hasPackage g n
  end.

(** Every relationship joins nodes that are in the store. *)
Definition endsExist (g : Graph) : Prop :=
  (forall r, In r (dependsOn g) ->
             hasNode g (DependsOn.from r) = true
             /\ hasPackage g (DependsOn.to r) = true)
  /\ (forall h, In h (hasFile g) ->
                hasProject g (HasFile.project h) = true
                /\ hasFileNode g (HasFile.file h) = true).

(** The sample workspace before the last [linkPackageDependencies] of
    [Samples.company]. *)
Definition companyBuilt : World :=
  snd ((_ <- Samples.load Samples.healthy Samples.projectA ;;
        _ <- Samples.load Samples.healthy Samples.projectB ;;
        _ <- Samples.load Samples.healthy Samples.projectC ;;
        _ <- Samples.load Samples.healthy Samples.projectD ;;
        GraphBuilder.buildProjectGraph Samples.healthy Samples.projectE)
         Samples.start).

(** The last record of [dependencies] that names the package [n]. *)
Fixpoint lastNamed (n : string) (dependencies : list Dependency.t)
  : option Dependency.t :=
  match dependencies with
  | [] => None
  | dep :: rest =>
      match lastNamed n rest with
      | Some later => Some later
      | None => if String.eqb (Dependency.name dep) n then Some dep else None
      end
  end.

(** The package node carries what [_createDependencyNodes] sets from [dep]. *)
Definition packageWritten (dep : Dependency.t) (p : Package.t) : Prop :=
  Package.version p = Dependency.version dep
  /\ Package.operator p = orString (Dependency.operator dep) ""
  /\ Package.language p = orOptString (Dependency.language dep) "javascript".

(** The relationship carries what [_createDependencyNodes] sets from [dep]. *)
Definition relationshipWritten (dep : Dependency.t) (r : DependsOn.t) : Prop :=
  DependsOn.versionConstraint r
  = orString (Dependency.versionRange dep) (Dependency.version dep)
  /\ DependsOn.type r = orString (Dependency.type dep) "production"
  /\ DependsOn.direct r = Some true
  /\ DependsOn.lineNumber r = Some (orZero (Dependency.lineNumber dep)).

(** The package nodes named [n] and the relationships from the project to
    [n] in [g'] are those of [g]. *)
Definition untouched (projectName n : string) (g g' : Graph) : Prop :=
  (forall p, In p (packages g') -> Package.name p = n -> In p (packages g))
  /\ (forall r, In r (dependsOn g') -> ends r = (ProjectRef projectName, n) ->
                In r (dependsOn g)).

(** The package nodes named [n] and the relationships from the project to
    [n] carry what the loop sets from [dep]. *)
Definition written (projectName n : string) (dep : Dependency.t) (g : Graph)
  : Prop :=
  (forall p, In p (packages g) -> Package.name p = n -> packageWritten dep p)
  /\ (forall r, In r (dependsOn g) -> ends r = (ProjectRef projectName, n) ->
                relationshipWritten dep r).

(** The store after the manifest [Samples.twice] is built. *)
Definition builtTwice : World :=
  snd (GraphBuilder.buildProjectGraph Samples.healthy Samples.twice
                                      Samples.start).

(* ===================================================================== *)
(** * The remaining statements of the program *)
(* ===================================================================== *)

(** A row of [getProjectDependencies]. *)
Module DependencyRow.
Record t : Type := mk
  { name : string; version : string; constraint : string; type : string;
    lineNumber : JsValue }.
End DependencyRow.

(** A row of [findSharedDependencies]. *)
Module SharedDependency.
Record t : Type := mk
  { package : string; version : string; usageCount : JsValue;
    projects : list string }.
End SharedDependency.

(** A row of [getDependencyStats]. *)
Module TypeCount.
Record t : Type := mk { type : string; count : JsValue }.
End TypeCount.

(** A row of [findProjectsUsingPackage]. *)
Module UsingProject.
Record t : Type := mk
  { project : string; language : string; versionConstraint : string;
    dependencyType : string }.
End UsingProject.

Module CountRow.
Record t : Type := mk { count : JsValue }.
End CountRow.

Module TestRow.
Record t : Type := mk { test : JsValue }.
End TestRow.

(** A row [{packageNames, cycleLength}] of the cycle listings. *)
Module CycleRow.
Record t : Type := mk { packageNames : list string; cycleLength : nat }.
End CycleRow.

(** [{packages, length}], what the cycle listings return. *)
Module Cycle.
Record t : Type := mk { packages : list string; length : JsValue }.
End Cycle.

(** The object [getStats] returns. *)
Module DatabaseStats.
Record t : Type := mk
  { projects : JsValue; packages : JsValue; dependencies : JsValue;
    files : JsValue }.
End DatabaseStats.

(** The statements of [Neo4jClient]'s own methods, of the read methods of
    [GraphBuilder] and of the two cycle listings. *)
Inductive Statement : Type -> Type :=
| ProjectDependencies (projectName : string) : Statement DependencyRow.t
| SharedDependencies : Statement SharedDependency.t
| DependencyStats (projectName : string) : Statement TypeCount.t
| ProjectsUsingPackage (packageName : string) : Statement UsingProject.t
| CountProjects : Statement CountRow.t
| CountPackages : Statement CountRow.t
| CountDependencies : Statement CountRow.t
| CountFiles : Statement CountRow.t
| ReturnOne : Statement TestRow.t
| AllCycles : Statement CycleRow.t
| ProjectCycles (projectName : string) : Statement CycleRow.t
| DetachDeleteAll : Statement unit
| CreateConstraint (name : string) : Statement unit.

(** A number property written from a JavaScript number comes back as a
    number; an absent property as [null]. *)
Definition numberProperty (v : option Z) : JsValue :=
  match v with
  | Some z => JsNum (Finite (inject_Z z))
  | None => JsNull
  end.

(** The relationships [(proj:Project {name: $projectName})-[r:DEPENDS_ON]->]. *)
Definition relationshipsOf (g : Graph) (projectName : string)
  : list DependsOn.t :=
  filter (fun r => NodeRef_eqb (DependsOn.from r) (ProjectRef projectName))
         (dependsOn g).

(** The Package nodes named [n]. *)
Definition packagesNamed (g : Graph) (n : string) : list Package.t :=
  filter (fun p => String.eqb (Package.name p) n) (packages g).

(** The Project nodes named [n]. *)
Definition projectsNamed (g : Graph) (n : string) : list Project.t :=
  filter (fun p => String.eqb (Project.name p) n) (projects g).

(** [MATCH (proj:Project {name: $projectName})-[r:DEPENDS_ON]->(pkg:Package)
     RETURN pkg.name as name, pkg.version as version,
            r.versionConstraint as constraint, r.type as type,
            r.lineNumber as lineNumber
     ORDER BY pkg.name] *)
Definition evalProjectDependencies (projectName : string) (g : Graph)
  : list DependencyRow.t :=
  orderBy DependencyRow.name
    (flat_map (fun r =>
       map (fun pkg =>
              DependencyRow.mk (Package.name pkg) (Package.version pkg)
                               (DependsOn.versionConstraint r)
                               (DependsOn.type r)
                               (numberProperty (DependsOn.lineNumber r)))
           (packagesNamed g (DependsOn.to r)))
       (relationshipsOf g projectName)).

(** [ORDER BY count DESC]: insertion into a descending list. *)
Fixpoint insertDescending (A : Type) (count : A -> nat) (x : A) (l : list A)
  : list A :=
  match l with
  | [] => [x]
  | y :: l' =>
      if (count y <=? count x)%nat then x :: l
      else y :: insertDescending count x l'
  end.

Definition orderDescending (A : Type) (count : A -> nat) (l : list A)
  : list A :=
  fold_right (insertDescending count) [] l.

(** [ORDER BY count ASC]: insertion into an ascending list. *)
Fixpoint insertAscending (A : Type) (count : A -> nat) (x : A) (l : list A)
  : list A :=
  match l with
  | [] => [x]
  | y :: l' =>
      if (count x <=? count y)%nat then x :: l
      else y :: insertAscending count x l'
  end.

Definition orderAscending (A : Type) (count : A -> nat) (l : list A)
  : list A :=
  fold_right (insertAscending count) [] l.

(** [MATCH (proj:Project)-[:DEPENDS_ON]->(pkg:Package)
     WITH pkg, count(proj) as usageCount, collect(proj.name) as projects
     WHERE usageCount > 1
     RETURN pkg.name as package, pkg.version as version, usageCount, projects
     ORDER BY usageCount DESC]: one group per package node. *)
Definition evalSharedDependencies (g : Graph) : list SharedDependency.t :=
  map (fun kv =>
         SharedDependency.mk (Package.name (fst kv)) (Package.version (fst kv))
                             (JsInteger (Z.of_nat (length (snd kv))))
                             (map fromName (snd kv)))
      (orderDescending (fun kv => length (snd kv))
         (filter (fun kv => (1 <? length (snd kv))%nat)
            (flat_map (fun kv => map (fun pkg => (pkg, snd kv))
                                     (packagesNamed g (fst kv)))
                      (groupByPackage (projectRows g))))).

(** [MATCH (proj:Project {name: $projectName})-[r:DEPENDS_ON]->(pkg:Package)
     RETURN r.type as type, count(pkg) as count ORDER BY type]:
    one row per type. *)
Definition evalDependencyStats (projectName : string) (g : Graph)
  : list TypeCount.t :=
  let rows := relationshipsOf g projectName in
  orderBy TypeCount.type
    (map (fun t =>
            TypeCount.mk t
              (JsInteger
                 (Z.of_nat
                    (length (filter (fun r => String.eqb (DependsOn.type r) t)
                                    rows)))))
         (distinct String.eqb (map DependsOn.type rows))).

(** [MATCH (proj:Project)-[r:DEPENDS_ON]->(pkg:Package {name: $packageName})
     RETURN proj.name as project, proj.language as language,
            r.versionConstraint as versionConstraint,
            r.type as dependencyType
     ORDER BY proj.name] *)
Definition evalProjectsUsingPackage (packageName : string) (g : Graph)
  : list UsingProject.t :=
  orderBy UsingProject.project
    (flat_map (fun r =>
       map (fun proj =>
              UsingProject.mk (Project.name proj) (Project.language proj)
                              (DependsOn.versionConstraint r)
                              (DependsOn.type r))
           (projectsNamed g (fromName r)))
       (dependents g packageName)).

(** The package a relationship ends at, by the relationship's position. *)
Definition endOf (g : Graph) (i : nat) : string :=
  match nth_error (dependsOn g) i with
  | Some r => DependsOn.to r
  | None => ""
  end.

(** The rows [path, [node in nodes(path) | node.name], length(path)] of
    [MATCH path = (p1)-[:DEPENDS_ON*]->(p1) WHERE length(path) > 1] for the
    start node [start]. *)
Definition cyclesFrom (g : Graph) (start : string) : list CycleRow.t :=
  map (fun path => CycleRow.mk (start :: map (endOf g) path) (length path))
      (filter (fun path => (1 <? length path)%nat)
              (trails (length (dependsOn g)) (indexed g) [] start start)).

Definition CycleRow_eqb (a b : CycleRow.t) : bool :=
  (if list_eq_dec string_dec (CycleRow.packageNames a) (CycleRow.packageNames b)
   then true else false)
  && Nat.eqb (CycleRow.cycleLength a) (CycleRow.cycleLength b).

(** [... RETURN DISTINCT packageNames, cycleLength
     ORDER BY cycleLength ASC LIMIT limit] *)
Definition listCycles (limit : nat) (rows : list CycleRow.t)
  : list CycleRow.t :=
  firstn limit (orderAscending CycleRow.cycleLength
                               (distinct CycleRow_eqb rows)).

(** The query of [findCircularDependencies]: every package is a start. *)
Definition evalAllCycles (g : Graph) : list CycleRow.t :=
  listCycles 100
    (flat_map (fun p => cyclesFrom g (Package.name p)) (packages g)).

(** The query of [findProjectCircularDependencies]:
    [MATCH (proj:Project {name: $projectName})-[:DEPENDS_ON]->(p1:Package)]
    gives the starts. *)
Definition evalProjectCycles (projectName : string) (g : Graph)
  : list CycleRow.t :=
  listCycles 50
    (flat_map (fun r => cyclesFrom g (DependsOn.to r))
              (relationshipsOf g projectName)).

Definition countRow (n : nat) : list CountRow.t :=
  [CountRow.mk (JsInteger (Z.of_nat n))].

(** The store after a statement, and its rows.  A uniqueness constraint
    changes no node and no relationship. *)
Definition evalStatement (R : Type) (statement : Statement R) (g : Graph)
  : Graph * list R :=
  match statement in Statement R return Graph * list R with
  | ProjectDependencies projectName => (g, evalProjectDependencies projectName g)
  | SharedDependencies => (g, evalSharedDependencies g)
  | DependencyStats projectName => (g, evalDependencyStats projectName g)
  | ProjectsUsingPackage packageName =>
      (g, evalProjectsUsingPackage packageName g)
  | CountProjects => (g, countRow (length (projects g)))
  | CountPackages => (g, countRow (length (packages g)))
  | CountDependencies => (g, countRow (length (dependsOn g)))
  | CountFiles => (g, countRow (length (files g)))
  | ReturnOne => (g, [TestRow.mk (JsInteger 1)])
  | AllCycles => (g, evalAllCycles g)
  | ProjectCycles projectName => (g, evalProjectCycles projectName g)
  | DetachDeleteAll => (emptyGraph, [])
  | CreateConstraint _ => (g, [])
  end.

(** A deployment with the failures of these statements as well. *)
Record Deployment : Type := mkDeployment
  { core : Neo4jClient;
    statementFailure : Z -> forall R : Type, Statement R -> option string }.

(** [Neo4jClient.executeQuery] and [executeWrite] for these statements. *)
Definition executeStatement (deployment : Deployment) (R : Type)
           (statement : Statement R) : Async (list R) :=
  fun w =>
    match statementFailure deployment (clock w) statement with
    | Some message => (Thrown message, mkWorld (graph w) (clock w + 1))
    | None =>
        let (g, rows) := evalStatement statement (graph w) in
        (Returned rows, mkWorld g (clock w + 1))
    end.

(** An object created by [{}] and used as a map, recorded by the
    assignments [object[key] = value] made to it, in their order. *)
Definition JsObject : Type := list (string * JsValue).

(** [object[key] = value] *)
Definition setProperty (key : string) (value : JsValue) (object : JsObject)
  : JsObject :=
  (object ++ [(key, value)])%list.

(** The names of the members of [Object.prototype], which an object created
    by [{}] inherits. *)
Definition objectPrototypeMembers : list string :=
  ["constructor"; "__defineGetter__"; "__defineSetter__"; "hasOwnProperty";
   "__lookupGetter__"; "__lookupSetter__"; "isPrototypeOf";
   "propertyIsEnumerable"; "toString"; "valueOf"; "__proto__";
   "toLocaleString"].

(** What reading [object[key]] yields: the value of an own property, the
    member of [Object.prototype] of that name, or [undefined].  [Unresolved]
    stands for an object whose prototype was replaced: what it yields
    depends on the new prototype, which is not followed. *)
Inductive Member : Type :=
| Own (value : JsValue)
| Inherited (name : string)
| Undefined
| Unresolved.

(** The assignment reaches the setter [__proto__] of [Object.prototype] with
    an object or [null], which replaces the prototype; a primitive value is
    ignored by the setter.  Neither creates an own property. *)
Definition replacesPrototype (assignment : string * JsValue) : bool :=
  String.eqb (fst assignment) "__proto__"
  && match snd assignment with
     | JsNum _ => false
     | JsNull | JsInteger _ => true
     end.

(** The value of the last assignment to [key]. *)
Fixpoint lastAssigned (object : JsObject) (key : string) : option JsValue :=
  match object with
  | [] => None
  | (k, v) :: rest =>
      match lastAssigned rest key with
      | Some later => Some later
      | None => if String.eqb k key then Some v else None
      end
  end.

(** [object[key]] *)
Definition getProperty (object : JsObject) (key : string) : Member :=
  if existsb replacesPrototype object then Unresolved
  else if String.eqb key "__proto__" then Inherited key
  else
    match lastAssigned object key with
    | Some value => Own value
    | None =>
        if existsb (String.eqb key) objectPrototypeMembers
        then Inherited key else Undefined
    end.

(** [v === 1] *)
Definition strictEqOne (v : JsValue) : bool :=
  match v with
  | JsNum (Finite q) => Qeq_bool q 1
  | _ => false
  end.

(** [result[0]?.count?.low || result[0]?.count || 0] *)
Definition unwrapCount (result : list CountRow.t) : JsValue :=
  match result with
  | [] => jsNat 0
  | row :: _ =>
      match CountRow.count row with
      | JsInteger i =>
          if low32 i =? 0 then JsInteger i
          else JsNum (Finite (inject_Z (low32 i)))
      | JsNum (Finite q) => if Qeq_bool q 0 then jsNat 0 else JsNum (Finite q)
      | JsNum Infinity => JsNum Infinity
      | JsNull => jsNat 0
      end
  end.

Module Neo4jClientMethods.
Section Methods.
Variable deployment : Deployment.

(** [clearDatabase()] *)
Definition clearDatabase : Async unit :=
  _ <- executeStatement deployment DetachDeleteAll ;;
  ret tt.

(** One round of the loop of [createConstraints]: the error of a failed
    statement is at most logged. *)
Definition createConstraint (name : string) : Async unit :=
  tryCatch
    (_ <- executeStatement deployment (CreateConstraint name) ;;
     ret tt)
    (fun error => ret tt).

(** [createConstraints()] *)
Definition createConstraints : Async unit :=
  _ <- createConstraint "package_name" ;;
  _ <- createConstraint "file_path" ;;
  createConstraint "project_name".

(** [getStats()]: the four counts, in the order of [Object.entries]. *)
Definition getStats : Async DatabaseStats.t :=
  projects <- executeStatement deployment CountProjects ;;
  packages <- executeStatement deployment CountPackages ;;
  dependencies <- executeStatement deployment CountDependencies ;;
  files <- executeStatement deployment CountFiles ;;
  ret (DatabaseStats.mk (unwrapCount projects) (unwrapCount packages)
                        (unwrapCount dependencies) (unwrapCount files)).

(** [testConnection()]: [result[0].test] of an empty result throws a
    [TypeError], which the [catch] turns into [false] as well. *)
Definition testConnection : Async bool :=
  tryCatch
    (result <- executeStatement deployment ReturnOne ;;
     match result with
     | [] => throw "Cannot read properties of undefined (reading 'test')"
     | row :: _ => ret (strictEqOne (TestRow.test row))
     end)
    (fun error => ret false).

End Methods.
End Neo4jClientMethods.

Module GraphBuilderReads.
Section Methods.
Variable deployment : Deployment.

(** [getProjectDependencies(projectName)] *)
Definition getProjectDependencies (projectName : string)
  : Async (list DependencyRow.t) :=
  executeStatement deployment (ProjectDependencies projectName).

(** [findSharedDependencies()] *)
Definition findSharedDependencies : Async (list SharedDependency.t) :=
  executeStatement deployment SharedDependencies.

(** [getDependencyStats(projectName)]:
    [results.forEach(row => { stats[row.type] = row.count; })] *)
Definition getDependencyStats (projectName : string)
  : Async JsObject :=
  results <- executeStatement deployment (DependencyStats projectName) ;;
  ret (fold_left (fun stats row =>
                    setProperty (TypeCount.type row) (TypeCount.count row) stats)
                 results []).

(** [findProjectsUsingPackage(packageName)] *)
Definition findProjectsUsingPackage (packageName : string)
  : Async (list UsingProject.t) :=
  executeStatement deployment (ProjectsUsingPackage packageName).

(** [getDatabaseStats()] *)
Definition getDatabaseStats : Async DatabaseStats.t :=
  Neo4jClientMethods.getStats deployment.

End Methods.
End GraphBuilderReads.

Module CycleListings.
Section Methods.
Variable deployment : Deployment.

(** [result.map(record => ({packages: record.packageNames,
                            length: record.cycleLength}))] *)
Definition toCycle (record : CycleRow.t) : Cycle.t :=
  Cycle.mk (CycleRow.packageNames record)
           (JsInteger (Z.of_nat (CycleRow.cycleLength record))).

(** [findCircularDependencies()] *)
Definition findCircularDependencies : Async (list Cycle.t) :=
  tryCatch
    (result <- executeStatement deployment AllCycles ;;
     let cycles := map toCycle result in
     match cycles with
     | [] => ret []
     | _ :: _ => ret cycles
     end)
    (fun error => throw error).

(** [findProjectCircularDependencies(projectName)] *)
Definition findProjectCircularDependencies (projectName : string)
  : Async (list Cycle.t) :=
  tryCatch
    (result <- executeStatement deployment (ProjectCycles projectName) ;;
     ret (map toCycle result))
    (fun error => throw error).

End Methods.
End CycleListings.

(** A deployment in which nothing fails. *)
Definition sound : Deployment :=
  mkDeployment Samples.healthy (fun _ _ _ => None).

(** No statement of the deployment ever fails. *)
Definition dependable (deployment : Deployment) : Prop :=
  forall (now : Z) (R : Type) (statement : Statement R),
    statementFailure deployment now statement = None.


(** The list descends by [count]; ties are in any order. *)
Definition descending (A : Type) (count : A -> nat) : list A -> Prop :=
  StronglySorted (fun x y => (count y <= count x)%nat).

(** The list ascends by [count]. *)
Definition ascending (A : Type) (count : A -> nat) : list A -> Prop :=
  StronglySorted (fun x y => (count x <= count y)%nat).

(** Each name of the list has a relationship to the next one. *)
Fixpoint chained (g : Graph) (names : list string) : bool :=
  match names with
  | x :: (y :: _) as rest => hasRelationship g (PackageRef x) y && chained g rest
  | _ => true
  end.

(** What [getStats] makes of a count below 2^31: a number, except for zero,
    which stays the driver's [Integer] object. *)
Definition reportedCount (n : nat) : JsValue :=
  if Nat.eqb n 0 then JsInteger 0 else jsNat n.

(** The store has fewer than 2^31 nodes of each label and relationships. *)
Definition small (g : Graph) : Prop :=
  Z.of_nat (length (projects g)) < 2 ^ 31
  /\ Z.of_nat (length (packages g)) < 2 ^ 31
  /\ Z.of_nat (length (dependsOn g)) < 2 ^ 31
  /\ Z.of_nat (length (files g)) < 2 ^ 31.


(** The number of relationships of a listed cycle. *)
Definition steps (c : Cycle.t) : nat :=
  match Cycle.length c with
  | JsInteger z => Z.to_nat z
  | _ => 0
  end.

(** A listed cycle is a closed walk along stored relationships: it has at
    least two relationships and one name more than relationships, each name
    has a relationship to the next, and the last name is the first. *)
Definition closedWalk (g : Graph) (c : Cycle.t) : Prop :=
  exists n : nat,
    Cycle.length c = JsInteger (Z.of_nat n)
    /\ (2 <= n)%nat
    /\ length (Cycle.packages c) = S n
    /\ chained g (Cycle.packages c) = true
    /\ hd_error (Cycle.packages c) = Some (last (Cycle.packages c) "").


(* ===================================================================== *)
(** * [JavaScriptParser]: from [package.json] to the Manifest Record *)
(* ===================================================================== *)

(** [{version, operator}], the result of [_parseVersion]. *)
Module ParsedVersion.
Record t : Type := mk { version : string; operator : string }.
End ParsedVersion.

(** What [JSON.parse] yields for a [package.json], as far as the parser
    reads it; a section is the list of its entries in the order of
    [Object.entries].  A field that is absent is [None]. *)
Module PackageJson.
Record t : Type := mk
  { name : option string; version : option string;
    description : option string;
    dependencies : option (list (string * string));
    devDependencies : option (list (string * string));
    peerDependencies : option (list (string * string)) }.
End PackageJson.

(** The rest of [s] after the literal [p], when [s] starts with it. *)
Fixpoint afterPrefix (p s : string) : option string :=
  match p with
  | EmptyString => Some s
  | String c p' =>
      match s with
      | String d s' => if Ascii.eqb c d then afterPrefix p' s' else None
      | EmptyString => None
      end
  end.

(** The line terminators, which [.] does not match: LF, CR, and U+2028 and
    U+2029 in their UTF-8 encoding. *)
Definition lineTerminators : list string :=
  [String (ascii_of_nat 10) EmptyString;
   String (ascii_of_nat 13) EmptyString;
   String (ascii_of_nat 226)
          (String (ascii_of_nat 128) (String (ascii_of_nat 168) EmptyString));
   String (ascii_of_nat 226)
          (String (ascii_of_nat 128) (String (ascii_of_nat 169) EmptyString))].

(** [(.+)$]: all that is left, when it is not empty and has no line
    terminator. *)
Definition dotPlus (s : string) : option string :=
  if String.eqb s "" || existsb (includes s) lineTerminators then None
  else Some s.

Module JavaScriptParser.

(** The fields the constructor sets: [resolve(projectPath)] and its
    [basename]. *)
Record t : Type := mk { projectPath : string; projectName : string }.

(** The operators of the [patterns] of [_parseVersion], in their order; the
    regular expression of the operator [op] is [^op(.+)$]. *)
Definition patterns : list string :=
  ["^"; "~"; ">="; "<="; ">"; "<"; "="; ""].

(** The loop over [patterns]: the first one that matches. *)
Fixpoint firstMatch (operators : list string) (versionStr : string)
  : option ParsedVersion.t :=
  match operators with
  | [] => None
  | operator :: rest =>
      match afterPrefix operator versionStr with
      | Some tail =>
          match dotPlus tail with
          | Some version => Some (ParsedVersion.mk version operator)
          | None => firstMatch rest versionStr
          end
      | None => firstMatch rest versionStr
      end
  end.

(** [_parseVersion(versionStr)] *)
Definition _parseVersion (versionStr : string) : ParsedVersion.t :=
  if String.eqb versionStr "*" || String.eqb versionStr "latest"
  then ParsedVersion.mk "latest" ""
  else if includes versionStr "git" || includes versionStr "github"
  then ParsedVersion.mk versionStr "git"
  else if startsWith versionStr "file:"
  then ParsedVersion.mk versionStr "file"
  else
    match firstMatch patterns versionStr with
    | Some parsed => parsed
    | None => ParsedVersion.mk versionStr ""
    end.

(** [_extractDependencies(deps, type)]; the field [raw] of its records is
    read nowhere and is left out. *)
Definition _extractDependencies (deps : list (string * string)) (type : string)
  : list Dependency.t :=
  map (fun entry =>
         let parsed := _parseVersion (snd entry) in
         Dependency.mk (fst entry) (ParsedVersion.version parsed) (snd entry)
                       (ParsedVersion.operator parsed) type None None)
      deps.

(** [section || {}] *)
Definition orEmpty (section : option (list (string * string)))
  : list (string * string) :=
  match section with
  | Some entries => entries
  | None => []
  end.

(** [_parsePackageJson(filePath)] from the parsed content on; reading the
    file and [JSON.parse] come before.  The field [stats] of the result is
    only printed and is left out. *)
Definition _parsePackageJson (this : t) (filePath : string)
           (packageJson : PackageJson.t) : ParsedData.t :=
  let dependencies :=
    _extractDependencies (orEmpty (PackageJson.dependencies packageJson))
                         "production" in
  let devDependencies :=
    _extractDependencies (orEmpty (PackageJson.devDependencies packageJson))
                         "development" in
  let peerDependencies :=
    _extractDependencies (orEmpty (PackageJson.peerDependencies packageJson))
                         "peer" in
  let allDependencies :=
    (dependencies ++ devDependencies ++ peerDependencies)%list in
  ParsedData.mk (orOptString (PackageJson.name packageJson) (projectName this))
                (projectPath this) "javascript"
                (Some (orOptString (PackageJson.version packageJson) "1.0.0"))
                (Some (orOptString (PackageJson.description packageJson) ""))
                filePath allDependencies
                (Z.of_nat (length allDependencies)).

End JavaScriptParser.

(** The entries of the three sections of a manifest, each with the type of
    its section: [(name, constraint, type)]. *)
Definition manifestEntries (packageJson : PackageJson.t)
  : list (string * string * string) :=
  (map (fun entry => (fst entry, snd entry, "production"))
       (JavaScriptParser.orEmpty (PackageJson.dependencies packageJson))
   ++ map (fun entry => (fst entry, snd entry, "development"))
          (JavaScriptParser.orEmpty (PackageJson.devDependencies packageJson))
   ++ map (fun entry => (fst entry, snd entry, "peer"))
          (JavaScriptParser.orEmpty (PackageJson.peerDependencies packageJson)))%list.

(** A manifest with [lodash] in two sections. *)
Definition manifest : PackageJson.t :=
  PackageJson.mk (Some "shop") None None
                 (Some [("lodash", "^4.17.21"); ("express", ">=4.18.0")])
                 (Some [("lodash", "~4.17.0"); ("jest", "*")])
                 None.

Definition shopParser : JavaScriptParser.t :=
  JavaScriptParser.mk "/work/shop" "shop".

(** The store after the manifest is parsed and built. *)
Definition builtShop : World :=
  snd (GraphBuilder.buildProjectGraph
         Samples.healthy
         (JavaScriptParser._parsePackageJson shopParser "/work/shop/package.json"
                                             manifest)
         Samples.start).


(* ===================================================================== *)
(** * The verdict of [VersionConflictAnalyzer.printReport] *)
(* ===================================================================== *)

(** The [allCompatible] of [printReport]:
    [versions.every((v1, i) =>
       versions.slice(i + 1).every(v2 => this.isCompatible(v1, v2)))] *)
Fixpoint allCompatible (versions : list string) : bool :=
  match versions with
  | [] => true
  | v1 :: rest =>
      forallb (VersionConflictAnalyzer.isCompatible v1) rest
      && allCompatible rest
  end.

(** The line [printReport] prints under a conflict: [true] for "Versions may
    be compatible", [false] for "Potential incompatibility". *)
Definition mayBeCompatible (conflict : Conflict.t) : bool :=
  allCompatible (map ConflictDep.version (Conflict.dependencies conflict)).

(* ===================================================================== *)
(** * Properties of [isCompatible] *)
(* ===================================================================== *)

Section Compatibility.
Import VersionConflictAnalyzer.

Lemma numEq_sym (x y : Number) : numEq x y = numEq y x.
Proof.
  destruct x as [p|], y as [q|]; simpl; try reflexivity.
  unfold Qeq_bool. apply Z.eqb_sym.
Qed.


Lemma strictEq_sym (a b : option Number) : strictEq a b = strictEq b a.
Proof.
  destruct a, b; simpl; try reflexivity. apply numEq_sym.
Qed.


Lemma startsWith_char (v : string) (c : ascii) :
  startsWith v (String c EmptyString) = true <-> exists v', v = String c v'.
Proof.
  unfold startsWith. destruct v as [|d v]; cbn [prefix].
  - split; [discriminate | intros [v' H]; discriminate].
  - destruct (ascii_dec c d) as [<-|Hne].
    + split; [eauto | destruct v; reflexivity].
    + split; [discriminate | intros [v' H]; congruence].
Qed.

(** A string cannot start with both operators. *)
Lemma tilde_not_caret (v : string) :
  startsWith v "~" = true -> startsWith v "^" = false.
Proof.
  intros H. apply startsWith_char in H as [v' ->].
  destruct (startsWith (String "~" v') "^") eqn:E; [|reflexivity].
  apply startsWith_char in E as [v'' E]. discriminate.
Qed.

Lemma matchDigits_none (v : string) :
  hasDigit v = false -> matchDigits v = None.
Proof.
  unfold hasDigit. induction v as [|c v IH]; simpl; [reflexivity|].
  intros H. apply orb_false_iff in H as [Hc Hv].
  rewrite Hc. auto.
Qed.

Example getMajor_takes_first_run :
  getMajor "^4.18.0" = Some (Finite (inject_Z 4))
  /\ getMajor ">=12.0.1 <13" = Some (Finite (inject_Z 12))
  /\ getMajor "latest" = None.
Proof. repeat split; reflexivity. Qed.

Example getMinor_takes_first_dotted_run :
  getMinor "~1.2.0" = Some (Finite (inject_Z 2))
  /\ getMinor "~1.a2.37" = Some (Finite (inject_Z 37))
  /\ getMinor "~1" = None
  /\ getMinor "~1." = None.
Proof. repeat split; reflexivity. Qed.

(** Above 2^53 [parseInt] rounds, to even on a tie. *)
Example parseInt_rounds :
  parseInt "9007199254740993" = Finite (inject_Z 9007199254740992)
  /\ parseInt "9007199254740995" = Finite (inject_Z 9007199254740996)
  /\ parseInt "0042" = Finite (inject_Z 42).
Proof. repeat split; reflexivity. Qed.

(** C9. [isCompatible] is symmetric: for all version-constraint strings
    [a] and [b], [isCompatible(a, b)] and [isCompatible(b, a)] are the same
    boolean. *)
Theorem isCompatible_symmetric (a b : string) :
  isCompatible a b = isCompatible b a.
Proof.
  unfold isCompatible.
  rewrite (String.eqb_sym b a).
  destruct (String.eqb a b); [reflexivity|].
  rewrite (andb_comm (startsWith b "^")), (andb_comm (startsWith b "~")).
  rewrite (strictEq_sym (getMajor b)), (strictEq_sym (getMinor b)).
  reflexivity.
Qed.



(** C10. Two different strings that start with the caret and contain no
    digit are reported compatible: both majors are [null], and
    [null === null]. *)
Theorem isCompatible_caret_without_digits (a b : string) :
  a <> b ->
  startsWith a "^" = true -> startsWith b "^" = true ->
  hasDigit a = false -> hasDigit b = false ->
  isCompatible a b = true.
Proof.
  intros Hne Ha Hb Da Db. unfold isCompatible, getMajor.
  destruct (String.eqb_spec a b); [reflexivity|].
  rewrite Ha, Hb, (matchDigits_none _ Da), (matchDigits_none _ Db).
  reflexivity.
Qed.

Lemma isCompatible_caret_without_digits_witness :
  isCompatible "^latest" "^next" = true.
Proof.
  apply isCompatible_caret_without_digits;
    [discriminate | reflexivity | reflexivity | reflexivity | reflexivity].
Defined.

End Compatibility.

(* ===================================================================== *)
(** * Running asynchronous methods *)
(* ===================================================================== *)

Section Running.
Variable client : Neo4jClient.

Lemma bind_returned (A B : Type) (m : Async A) (k : A -> Async B)
      (w w' : World) (b : B) :
  bind m k w = (Returned b, w') ->
  exists a w0, m w = (Returned a, w0) /\ k a w0 = (Returned b, w').
Proof.
  unfold bind. destruct (m w) as [[a|message] w0]; [eauto | discriminate].
Qed.

Lemma tryCatch_rethrow (A : Type) (body : Async A) (w : World) :
  tryCatch body (fun error => throw error) w = body w.
Proof.
  unfold tryCatch, throw. destruct (body w) as [[a|message] w0]; reflexivity.
Qed.


Lemma executeQuery_returned (R : Type) (query : Query R) (w w' : World)
      (rows : list R) :
  executeQuery client query w = (Returned rows, w') ->
  rows = snd (evalQuery (clock w) query (graph w))
  /\ w' = mkWorld (fst (evalQuery (clock w) query (graph w))) (clock w + 1).
Proof.
  unfold executeQuery.
  destruct (failure client (clock w) query); [discriminate|].
  destruct (usesApoc query && negb (apocInstalled client)); [discriminate|].
  destruct (evalQuery (clock w) query (graph w)) as [g rows'].
  intros H. inversion H. auto.
Qed.

Lemma executeQuery_failure (R : Type) (query : Query R) (w : World)
      (message : string) :
  failure client (clock w) query = Some message ->
  executeQuery client query w
  = (Thrown message, mkWorld (graph w) (clock w + 1)).
Proof. unfold executeQuery. intros ->. reflexivity. Qed.

(** A read query of a reliable client. *)
Lemma executeQuery_reliable (R : Type) (query : Query R) (w : World) :
  reliable client ->
  usesApoc query && negb (apocInstalled client) = false ->
  executeQuery client query w
  = (Returned (snd (evalQuery (clock w) query (graph w))),
     mkWorld (fst (evalQuery (clock w) query (graph w))) (clock w + 1)).
Proof.
  intros Hrel Hapoc. unfold executeQuery. rewrite Hrel, Hapoc.
  destruct (evalQuery (clock w) query (graph w)); reflexivity.
Qed.

End Running.

(** The sample workspace: five projects, eight packages, fourteen direct
    and fourteen derived relationships; three packages in conflict and two
    direct cycles. *)
Example company_counts :
  counts (graph Samples.company) = mkCounts 5 8 5 28 5.
Proof. vm_compute. reflexivity. Qed.

Example company_conflicts :
  match fst (VersionConflictAnalyzer.findVersionConflicts
               Samples.healthy Samples.company) with
  | Returned conflicts => map Conflict.packageName conflicts
  | Thrown _ => []
  end = ["axios"; "express"; "lodash"].
Proof. vm_compute. reflexivity. Qed.

Example company_direct_cycles :
  fst (CircularDependencyAnalyzer.findDirectCircularDependencies
         Samples.healthy Samples.company)
  = Returned [DirectCycle.mk "authService" "paymentService";
              DirectCycle.mk "dataAnalytics" "sharedUtils"].
Proof. vm_compute. reflexivity. Qed.

(** Without APOC the primary query fails and the basic one answers. *)
Example company_conflicts_without_apoc :
  fst (executeQuery Samples.plain ConflictsToSet Samples.company)
  = Thrown unknownFunction
  /\ fst (VersionConflictAnalyzer.findVersionConflicts
            Samples.plain Samples.company)
     = fst (VersionConflictAnalyzer.findVersionConflicts
              Samples.healthy Samples.company).
Proof. split; vm_compute; reflexivity. Qed.

(* ===================================================================== *)
(** * Failures inside the two [getStatistics] *)
(* ===================================================================== *)





(* ===================================================================== *)
(** * Cycle statistics of a store without cycles *)
(* ===================================================================== *)

(** What the statistics query returns when no path matches. *)
Lemma evalCycleStatistics_no_cycles (g : Graph) :
  cyclePaths g = [] ->
  evalCycleStatistics g = [CycleStats.mk (JsInteger 0) JsNull JsNull JsNull].
Proof. unfold evalCycleStatistics. intros ->. reflexivity. Qed.

(** What [getStatistics] makes of it: [totalCycles] is a driver
    [Integer], the test [=== 0] fails, and the row's [null]s go through. *)
Lemma getStatistics_no_cycles (client : Neo4jClient) (w : World) :
  reliable client ->
  cyclePaths (graph w) = [] ->
  fst (CircularDependencyAnalyzer.getStatistics client w)
  = Returned (Some (CycleStats.mk (JsInteger 0) JsNull JsNull (jsNat 0))).
Proof.
  intros Hrel Hnone.
  unfold CircularDependencyAnalyzer.getStatistics, tryCatch, bind.
  rewrite (executeQuery_reliable _ _ Hrel) by reflexivity.
  cbn [evalQuery fst snd].
  rewrite (evalCycleStatistics_no_cycles _ Hnone). reflexivity.
Qed.

(** C8 at the cleared store, which has no cycle: the call returns
    [{totalCycles: Integer 0, shortestCycle: null, longestCycle: null,
      avgCycleLength: 0}], not the all-zero record [noCycles]. *)
Theorem getStatistics_cleared_store :
  cyclePaths (graph Samples.start) = []
  /\ fst (CircularDependencyAnalyzer.getStatistics Samples.healthy Samples.start)
     = Returned (Some (CycleStats.mk (JsInteger 0) JsNull JsNull (jsNat 0)))
  /\ fst (CircularDependencyAnalyzer.getStatistics Samples.healthy Samples.start)
     <> Returned (Some CircularDependencyAnalyzer.noCycles).
Proof.
  split; [reflexivity|]. split; [reflexivity | discriminate].
Qed.

(* ===================================================================== *)
(** * Distinct values *)
(* ===================================================================== *)

Section DistinctFacts.
Variable A : Type.
Variable eqb : A -> A -> bool.
Hypothesis eqb_spec : forall x y, reflect (x = y) (eqb x y).

Lemma existsb_eqb_In (x : A) (l : list A) :
  existsb (eqb x) l = true <-> In x l.
Proof.
  rewrite existsb_exists. split.
  - intros [y [Hy E]]. destruct (eqb_spec x y); [now subst | discriminate].
  - intros H. exists x. split; [assumption|].
    destruct (eqb_spec x x); [reflexivity | contradiction].
Qed.

Lemma distinctAcc_In (l seen : list A) (x : A) :
  In x (distinctAcc eqb seen l) <-> In x l /\ ~ In x seen.
Proof.
  revert seen. induction l as [|y l IH]; intros seen; simpl.
  - tauto.
  - destruct (existsb (eqb y) seen) eqn:E.
    + apply existsb_eqb_In in E. rewrite IH.
      split; [tauto|]. intros [[->|H] Hs]; tauto.
    + assert (Hy : ~ In y seen).
      { intros H. apply existsb_eqb_In in H. congruence. }
      simpl. rewrite IH. simpl.
      destruct (eqb_spec y x) as [->|Hne]; [tauto|].
      split; [tauto|]. intros [[H|H] Hs]; [contradiction|].
      right. split; [assumption|]. intros [H'|H']; tauto.
Qed.

Lemma distinctAcc_NoDup (l seen : list A) : NoDup (distinctAcc eqb seen l).
Proof.
  revert seen. induction l as [|y l IH]; intros seen; simpl.
  - constructor.
  - destruct (existsb (eqb y) seen); [apply IH|].
    constructor; [|apply IH].
    rewrite distinctAcc_In. simpl. tauto.
Qed.

Lemma distinctAcc_all_seen (l seen : list A) :
  (forall x, In x l -> In x seen) -> distinctAcc eqb seen l = [].
Proof.
  induction l as [|y l IH]; intros H; simpl; [reflexivity|].
  rewrite (proj2 (existsb_eqb_In y seen)) by (apply H; now left).
  apply IH. intros x Hx. apply H. now right.
Qed.

Lemma distinctAcc_NoDup_id (l seen : list A) :
  NoDup l -> (forall x, In x l -> ~ In x seen) -> distinctAcc eqb seen l = l.
Proof.
  revert seen. induction l as [|y l IH]; intros seen Hnd Hs; simpl;
    [reflexivity|].
  inversion Hnd as [|? ? Hy Hl]; subst.
  destruct (existsb (eqb y) seen) eqn:E.
  - apply existsb_eqb_In in E. exfalso. apply (Hs y); [now left | assumption].
  - f_equal. apply IH; [assumption|].
    intros x Hx [<-|H]; [contradiction|].
    apply (Hs x); [now right | assumption].
Qed.

(** [DISTINCT] changes nothing in a list without repetition. *)
Lemma distinct_NoDup_id (l : list A) : NoDup l -> distinct eqb l = l.
Proof. intros H. apply distinctAcc_NoDup_id; auto. Qed.

Lemma distinct_In (l : list A) (x : A) : In x (distinct eqb l) <-> In x l.
Proof. unfold distinct. rewrite distinctAcc_In. simpl. tauto. Qed.

Lemma distinct_NoDup (l : list A) : NoDup (distinct eqb l).
Proof. apply distinctAcc_NoDup. Qed.

(** A non-empty list of copies of [k] has the one distinct value [k]. *)
Lemma distinct_constant (l : list A) (k : A) :
  l <> [] -> (forall x, In x l -> x = k) -> distinct eqb l = [k].
Proof.
  destruct l as [|y l]; [congruence|]. intros _ H.
  unfold distinct. simpl.
  rewrite (H y) by now left. f_equal.
  apply distinctAcc_all_seen. intros x Hx. left. symmetry. apply H. now right.
Qed.

Lemma distinct_nil (l : list A) : distinct eqb l = [] -> l = [].
Proof. destruct l; [reflexivity | discriminate]. Qed.

End DistinctFacts.

Lemma filter_twice (A : Type) (f : A -> bool) (l : list A) :
  filter f (filter f l) = filter f l.
Proof.
  induction l as [|x l IH]; simpl; [reflexivity|].
  destruct (f x) eqn:E; simpl; [rewrite E; f_equal|]; assumption.
Qed.

(* ===================================================================== *)
(** * The conflict of one package *)
(* ===================================================================== *)

(** Rows that all end in [k] form the single group [k]. *)
Lemma groupByPackage_single (rows : list DependsOn.t) (k : string) :
  rows <> [] ->
  (forall r, In r rows -> DependsOn.to r = k) ->
  groupByPackage rows = [(k, rows)].
Proof.
  intros Hne Hall. unfold groupByPackage.
  rewrite (@distinct_constant _ _ String.eqb_spec (map DependsOn.to rows) k).
  - simpl. do 2 f_equal.
    rewrite (forallb_filter_id _ rows); [reflexivity|].
    apply forallb_forall. intros r Hr. apply String.eqb_eq. now apply Hall.
  - destruct rows; [congruence | discriminate].
  - intros x Hx. apply in_map_iff in Hx as [r [<- Hr]]. now apply Hall.
Qed.

Lemma evalPackageConflict_rows (g : Graph) (packageName : string) :
  evalPackageConflict packageName g
  = match dependents g packageName with
    | [] => []
    | _ :: _ =>
        [Conflict.mk packageName (map conflictDep (dependents g packageName))]
    end.
Proof.
  unfold evalPackageConflict. fold (dependents g packageName).
  destruct (dependents g packageName) as [|r rows] eqn:E; [reflexivity|].
  rewrite (@groupByPackage_single (r :: rows) packageName);
    [reflexivity | discriminate |].
  intros r' Hr'. rewrite <- E in Hr'. unfold dependents in Hr'.
  apply filter_In in Hr' as [_ Hr']. now apply String.eqb_eq.
Qed.

(** C5. [findPackageConflict(name)] returns [null] exactly when the projects
    depending on the package use at most one distinct version-constraint
    string (none when nothing depends on it or it does not exist), and
    otherwise the record [{packageName, dependencies}] with one entry per
    depending project. *)
Theorem findPackageConflict_null_iff
        (client : Neo4jClient) (w : World) (packageName : string) :
  failure client (clock w) (PackageConflict packageName) = None ->
  (fst (VersionConflictAnalyzer.findPackageConflict client packageName w)
   = Returned None
   <-> (length (constraintsOn (graph w) packageName) <= 1)%nat)
  /\ ((1 < length (constraintsOn (graph w) packageName))%nat ->
      fst (VersionConflictAnalyzer.findPackageConflict client packageName w)
      = Returned (Some (Conflict.mk packageName
                          (map conflictDep (dependents (graph w) packageName))))).
Proof.
  intros Hok.
  unfold VersionConflictAnalyzer.findPackageConflict.
  rewrite tryCatch_rethrow. unfold bind, executeQuery. rewrite Hok.
  cbn [usesApoc andb evalQuery]. rewrite evalPackageConflict_rows.
  unfold constraintsOn.
  destruct (dependents (graph w) packageName) as [|r rows] eqn:E.
  - simpl. split; [split; auto | intros H; inversion H].
  - cbn [Conflict.dependencies]. rewrite map_map.
    change (map (fun x => ConflictDep.version (conflictDep x)) (r :: rows))
      with (map DependsOn.versionConstraint (r :: rows)).
    assert (Hpos : (0 < length (distinct String.eqb
                        (map DependsOn.versionConstraint (r :: rows))))%nat)
      by (unfold distinct; simpl; lia).
    revert Hpos.
    generalize (distinct String.eqb
                  (map DependsOn.versionConstraint (r :: rows))).
    intros unique Hpos.
    destruct (Nat.eqb_spec (length unique) 1) as [H1|H1]; simpl.
    + split; [split; [lia | reflexivity] | lia].
    + split; [split; [discriminate | lia] | reflexivity].
Qed.

Lemma findPackageConflict_null_iff_witness :
  fst (VersionConflictAnalyzer.findPackageConflict
         Samples.healthy "axios" Samples.company)
  = Returned (Some (Conflict.mk "axios"
                      [ConflictDep.mk "paymentService" "^1.0.0" "production";
                       ConflictDep.mk "dataAnalytics" "^0.27.0" "production"])).
Proof.
  apply (proj2 (findPackageConflict_null_iff
                  Samples.healthy Samples.company "axios" eq_refl)).
  vm_compute. lia.
Defined.

(* ===================================================================== *)
(** * Derived relationships *)
(* ===================================================================== *)

Lemma NodeRef_eqb_spec (a b : NodeRef) : reflect (a = b) (NodeRef_eqb a b).
Proof.
  destruct a as [x|x], b as [y|y]; simpl;
    try (constructor; discriminate);
    destruct (String.eqb_spec x y); constructor; congruence.
Qed.

Lemma NodeRef_eqb_eq (a b : NodeRef) : NodeRef_eqb a b = true <-> a = b.
Proof.
  destruct (NodeRef_eqb_spec a b); split; auto; discriminate.
Qed.

Lemma joins_ends (a : NodeRef) (b : string) (r : DependsOn.t) :
  joins a b r = true <-> ends r = (a, b).
Proof.
  unfold joins, ends. rewrite andb_true_iff, NodeRef_eqb_eq, String.eqb_eq.
  split; [intros [-> ->]; reflexivity | intros H; inversion H; auto].
Qed.

Lemma hasProject_In (g : Graph) (name : string) :
  hasProject g name = true <-> In name (map Project.name (projects g)).
Proof.
  unfold hasProject. rewrite existsb_exists, in_map_iff.
  split; intros [p [H1 H2]]; exists p.
  - apply String.eqb_eq in H2. auto.
  - split; [assumption | now apply String.eqb_eq].
Qed.

Lemma hasPackage_In (g : Graph) (name : string) :
  hasPackage g name = true <-> In name (map Package.name (packages g)).
Proof.
  unfold hasPackage. rewrite existsb_exists, in_map_iff.
  split; intros [p [H1 H2]]; exists p.
  - apply String.eqb_eq in H2. auto.
  - split; [assumption | now apply String.eqb_eq].
Qed.

Lemma linkRows_linkable (g : Graph) : Forall (linkable g) (linkRows g).
Proof.
  apply Forall_forall. intros row Hrow. unfold linkRows in Hrow.
  apply in_flat_map in Hrow as [proj [Hproj Hrow]].
  apply in_flat_map in Hrow as [pkg [Hpkg Hrow]].
  destruct (String.eqb_spec (Package.name pkg) (Project.name proj)) as [E|];
    [|contradiction].
  apply in_map_iff in Hrow as [r [<- Hr]].
  apply filter_In in Hr as [Hr Hfrom]. apply NodeRef_eqb_eq in Hfrom.
  unfold linkable. simpl. repeat split.
  - apply hasProject_In. rewrite E. now apply in_map.
  - apply hasPackage_In. now apply in_map.
  - assumption.
  - now rewrite E.
Qed.

Lemma linkOne_cases (now : Z) (rs : list DependsOn.t)
      (row : string * DependsOn.t) :
  linkOne now rs row = rs
  \/ linkOne now rs row = (rs ++ [derivedFrom now row])%list.
Proof.
  unfold linkOne, mergeOnCreate.
  destruct (existsb _ rs); [now left | now right].
Qed.

(** The fold of [MERGE] over the rows only appends relationships, each one
    built by [ON CREATE SET] from one of the rows. *)
Lemma link_fold_appends (now : Z) (rows : list (string * DependsOn.t))
      (rs : list DependsOn.t) :
  exists created,
    fold_left (linkOne now) rows rs = (rs ++ created)%list
    /\ Forall (fun r2 => exists row, In row rows /\ r2 = derivedFrom now row)
              created.
Proof.
  revert rs. induction rows as [|row rows IH]; intros rs; simpl.
  - exists []. split; [now rewrite app_nil_r | constructor].
  - destruct (IH (linkOne now rs row)) as [created [Hfold Hall]].
    assert (Hall' : Forall (fun r2 => exists row0,
                              (row = row0 \/ In row0 rows)
                              /\ r2 = derivedFrom now row0) created).
    { eapply Forall_impl; [|exact Hall].
      intros r2 [row' [Hin Heq]]. exists row'. auto. }
    rewrite Hfold.
    destruct (linkOne_cases now rs row) as [-> | ->].
    + exists created. auto.
    + exists (derivedFrom now row :: created). split.
      * now rewrite <- app_assoc.
      * constructor; [exists row; auto | assumption].
Qed.

(** C1, as stated, fails: linking the packages of [userService] in the
    sample workspace creates a derived relationship to [express], which is
    not the name of any project. *)
Lemma derived_edge_to_non_project :
  ~ (forall (client : Neo4jClient) (w w' : World) (count : JsValue)
            (r : DependsOn.t),
       GraphBuilder.linkPackageDependencies client w = (Returned count, w') ->
       In r (dependsOn (graph w')) -> ~ In r (dependsOn (graph w)) ->
       isDerived r = true ->
       hasProject (graph w') (DependsOn.to r) = true).
Proof.
  intros H.
  assert (E : hasProject
                (graph (snd (GraphBuilder.linkPackageDependencies
                               Samples.healthy Samples.beforeLink)))
                "express" = true).
  { apply (H Samples.healthy Samples.beforeLink
             (snd (GraphBuilder.linkPackageDependencies
                     Samples.healthy Samples.beforeLink))
             (jsNat 3)
             (DependsOn.mk (PackageRef "userService") "express" "^4.17.0"
                           "production" None None (Some "derived") None
                           (Some 19))).
    - reflexivity.
    - vm_compute. tauto.
    - vm_compute. intuition discriminate.
    - reflexivity. }
  vm_compute in E. discriminate.
Qed.

(** C1, amended.  A run of [linkPackageDependencies] only adds
    relationships; each added one is tagged [derived], starts at a package
    whose name is also the name of a project, ends where a direct
    relationship of that project ends, and copies its constraint and type.
    (The end need not be the name of a project.) *)
Theorem linkPackageDependencies_derives
        (client : Neo4jClient) (w w' : World) (count : JsValue) :
  GraphBuilder.linkPackageDependencies client w = (Returned count, w') ->
  exists created,
    dependsOn (graph w') = (dependsOn (graph w) ++ created)%list
    /\ Forall (fun r2 =>
         DependsOn.source r2 = Some "derived"
         /\ exists name r,
              DependsOn.from r2 = PackageRef name
              /\ hasProject (graph w) name = true
              /\ hasPackage (graph w) name = true
              /\ In r (dependsOn (graph w))
              /\ DependsOn.from r = ProjectRef name
              /\ DependsOn.to r = DependsOn.to r2
              /\ DependsOn.versionConstraint r = DependsOn.versionConstraint r2
              /\ DependsOn.type r = DependsOn.type r2)
         created.
Proof.
  unfold GraphBuilder.linkPackageDependencies. rewrite tryCatch_rethrow.
  intros Hrun. apply bind_returned in Hrun as [rows [w0 [Hq Hret]]].
  unfold ret in Hret. inversion Hret; subst w0.
  apply executeQuery_returned in Hq as [_ ->].
  cbn [evalQuery evalLinkPackages fst graph withDependsOn dependsOn].
  destruct (link_fold_appends (clock w) (linkRows (graph w))
                              (dependsOn (graph w)))
    as [created [Hfold Hall]].
  exists created. split; [assumption|].
  eapply Forall_impl; [|exact Hall].
  intros r2 [row [Hrow ->]].
  pose proof (linkRows_linkable (graph w)) as Hlink.
  rewrite Forall_forall in Hlink.
  destruct (Hlink row Hrow) as [Hproj [Hpkg [Hin Hfrom]]].
  split; [reflexivity|].
  exists (fst row), (snd row). simpl. auto 10.
Qed.

Lemma linkPackageDependencies_derives_witness :
  exists created,
    dependsOn (graph (snd (GraphBuilder.linkPackageDependencies
                             Samples.healthy Samples.beforeLink)))
    = (dependsOn (graph Samples.beforeLink) ++ created)%list.
Proof.
  destruct (@linkPackageDependencies_derives
              Samples.healthy Samples.beforeLink
              (snd (GraphBuilder.linkPackageDependencies
                      Samples.healthy Samples.beforeLink))
              (jsNat 3) eq_refl) as [created [Happ _]].
  exists created. exact Happ.
Defined.

(* ===================================================================== *)
(** * [MERGE] keeps what is there *)
(* ===================================================================== *)

Section MergeFacts.
Variable A : Type.
Variables (matches : A -> bool) (set : A -> A) (fresh : A).

Lemma mergeSet_length_matched (l : list A) :
  existsb matches l = true ->
  length (mergeSet matches set fresh l) = length l.
Proof. unfold mergeSet. intros ->. apply length_map. Qed.

Lemma mergeSet_established (l : list A) :
  (forall a, matches a = true -> matches (set a) = true) ->
  matches (set fresh) = true ->
  existsb matches (mergeSet matches set fresh l) = true.
Proof.
  intros Hset Hfresh. unfold mergeSet.
  destruct (existsb matches l) eqn:E.
  - apply existsb_exists in E as [x [Hx Hm]].
    apply existsb_exists. exists (set x). split; [|auto].
    apply in_map_iff. exists x. now rewrite Hm.
  - rewrite existsb_app. simpl. rewrite Hfresh. apply orb_true_iff. auto.
Qed.

Lemma mergeSet_preserves (P : A -> bool) (l : list A) :
  (forall a, matches a = true -> P a = true -> P (set a) = true) ->
  existsb P l = true ->
  existsb P (mergeSet matches set fresh l) = true.
Proof.
  intros Hset H. unfold mergeSet.
  destruct (existsb matches l).
  - apply existsb_exists in H as [x [Hx HP]].
    apply existsb_exists.
    exists (if matches x then set x else x). split.
    + apply in_map_iff. now exists x.
    + destruct (matches x) eqn:Hm; auto.
  - rewrite existsb_app, H. reflexivity.
Qed.

Lemma mergeOnCreate_length_matched (l : list A) :
  existsb matches l = true ->
  length (mergeOnCreate matches fresh l) = length l.
Proof. unfold mergeOnCreate. now intros ->. Qed.

Lemma mergeOnCreate_established (l : list A) :
  matches fresh = true ->
  existsb matches (mergeOnCreate matches fresh l) = true.
Proof.
  intros Hfresh. unfold mergeOnCreate.
  destruct (existsb matches l) eqn:E; [assumption|].
  rewrite existsb_app. simpl. rewrite Hfresh. apply orb_true_iff. auto.
Qed.

Lemma mergeOnCreate_preserves (P : A -> bool) (l : list A) :
  existsb P l = true ->
  existsb P (mergeOnCreate matches fresh l) = true.
Proof.
  intros H. unfold mergeOnCreate.
  destruct (existsb matches l); [assumption|].
  rewrite existsb_app, H. reflexivity.
Qed.

End MergeFacts.

Lemma extends_refl (g : Graph) : extends g g.
Proof. unfold extends. auto 10. Qed.

Lemma extends_trans (g1 g2 g3 : Graph) :
  extends g1 g2 -> extends g2 g3 -> extends g1 g3.
Proof.
  unfold extends.
  intros [A1 [A2 [A3 [A4 A5]]]] [B1 [B2 [B3 [B4 B5]]]]. auto 10.
Qed.

Lemma eqb_trans_true (x y z : string) :
  String.eqb x y = true -> String.eqb x z = true -> String.eqb y z = true.
Proof.
  rewrite !String.eqb_eq. congruence.
Qed.

Lemma evalMergeProject_extends (now : Z)
      (name path language version description : string) (totalDeps : Z)
      (g : Graph) :
  extends g (fst (evalMergeProject now name path language version description
                                   totalDeps g)).
Proof.
  unfold extends, evalMergeProject, hasProject, hasPackage, hasRelationship,
    hasFileNode, hasLink.
  cbn [fst projects packages files dependsOn hasFile withProjects].
  repeat split; auto.
  intros n. apply mergeSet_preserves.
  cbn [Project.name]. intros a. apply eqb_trans_true.
Qed.

Lemma evalMergePackage_extends (now : Z)
      (name version operator language : string) (g : Graph) :
  extends g (fst (evalMergePackage now name version operator language g)).
Proof.
  unfold extends, evalMergePackage, hasProject, hasPackage, hasRelationship,
    hasFileNode, hasLink.
  cbn [fst projects packages files dependsOn hasFile withPackages].
  repeat split; auto.
  intros n. apply mergeSet_preserves.
  cbn [Package.name]. intros a. apply eqb_trans_true.
Qed.

Lemma evalMergeDependsOn_extends (now : Z)
      (projectName packageName versionConstraint type : string)
      (lineNumber : Z) (g : Graph) :
  extends g (fst (evalMergeDependsOn now projectName packageName
                                     versionConstraint type lineNumber g)).
Proof.
  unfold evalMergeDependsOn.
  destruct (hasProject g projectName && hasPackage g packageName);
    [|apply extends_refl].
  unfold extends, hasProject, hasPackage, hasRelationship, hasFileNode, hasLink.
  cbn [fst projects packages files dependsOn hasFile withDependsOn].
  repeat split; auto.
  intros a b. apply mergeSet_preserves. intros r _ H. exact H.
Qed.

Lemma evalMergeFile_extends (now : Z)
      (projectName filePath fileName fileType language : string) (g : Graph) :
  extends g (fst (evalMergeFile now projectName filePath fileName fileType
                                language g)).
Proof.
  unfold evalMergeFile.
  destruct (hasProject g projectName); [|apply extends_refl].
  unfold extends, hasProject, hasPackage, hasRelationship, hasFileNode, hasLink.
  cbn [fst projects packages files dependsOn hasFile withFile].
  repeat split; auto.
  - intros p. apply mergeSet_preserves.
    cbn [File.path]. intros a. apply eqb_trans_true.
  - intros n p. apply mergeOnCreate_preserves.
Qed.

Lemma evalLinkPackages_extends (now : Z) (g : Graph) :
  extends g (fst (evalLinkPackages now g)).
Proof.
  unfold extends, evalLinkPackages, hasProject, hasPackage, hasRelationship,
    hasFileNode, hasLink.
  cbn [fst projects packages files dependsOn hasFile withDependsOn].
  repeat split; auto.
  intros a b H.
  destruct (link_fold_appends now (linkRows g) (dependsOn g))
    as [created [-> _]].
  rewrite existsb_app, H. reflexivity.
Qed.

(** No statement of the program removes a node or a relationship. *)
Lemma evalQuery_extends (now : Z) (R : Type) (query : Query R) (g : Graph) :
  extends g (fst (evalQuery now query g)).
Proof.
  destruct query; cbn [evalQuery fst];
    auto using extends_refl, evalMergeProject_extends, evalMergePackage_extends,
      evalMergeDependsOn_extends, evalMergeFile_extends,
      evalLinkPackages_extends.
Qed.

(* ===================================================================== *)
(** * [buildProjectGraph] twice *)
(* ===================================================================== *)

Lemma evalMergeProject_has (now : Z)
      (name path language version description : string) (totalDeps : Z)
      (g : Graph) :
  hasProject (fst (evalMergeProject now name path language version description
                                    totalDeps g)) name = true.
Proof.
  unfold evalMergeProject, hasProject. cbn [fst projects withProjects].
  apply mergeSet_established; cbn [Project.name]; intros;
    apply String.eqb_refl.
Qed.

Lemma evalMergePackage_has (now : Z)
      (name version operator language : string) (g : Graph) :
  hasPackage (fst (evalMergePackage now name version operator language g)) name
  = true.
Proof.
  unfold evalMergePackage, hasPackage. cbn [fst packages withPackages].
  apply mergeSet_established; cbn [Package.name]; intros;
    apply String.eqb_refl.
Qed.

Lemma evalMergeDependsOn_has (now : Z)
      (projectName packageName versionConstraint type : string)
      (lineNumber : Z) (g : Graph) :
  hasProject g projectName = true -> hasPackage g packageName = true ->
  hasRelationship (fst (evalMergeDependsOn now projectName packageName
                                           versionConstraint type lineNumber g))
                  (ProjectRef projectName) packageName = true.
Proof.
  intros Hp Hk. unfold evalMergeDependsOn, hasRelationship. rewrite Hp, Hk.
  cbn [andb fst dependsOn withDependsOn].
  apply mergeSet_established.
  - intros r Hr. exact Hr.
  - unfold joins. cbn [DependsOn.from DependsOn.to NodeRef_eqb].
    now rewrite !String.eqb_refl.
Qed.

Lemma evalMergeFile_has (now : Z)
      (projectName filePath fileName fileType language : string) (g : Graph) :
  hasProject g projectName = true ->
  hasFileNode (fst (evalMergeFile now projectName filePath fileName fileType
                                  language g)) filePath = true
  /\ hasLink (fst (evalMergeFile now projectName filePath fileName fileType
                                 language g)) projectName filePath = true.
Proof.
  intros Hp. unfold evalMergeFile, hasFileNode, hasLink. rewrite Hp.
  cbn [fst files hasFile withFile]. split.
  - apply mergeSet_established; cbn [File.path]; intros;
      apply String.eqb_refl.
  - apply mergeOnCreate_established.
    cbn [HasFile.project HasFile.file]. now rewrite !String.eqb_refl.
Qed.

Lemma evalMergeProject_counts (now : Z)
      (name path language version description : string) (totalDeps : Z)
      (g : Graph) :
  hasProject g name = true ->
  counts (fst (evalMergeProject now name path language version description
                                totalDeps g)) = counts g.
Proof.
  intros H. unfold evalMergeProject, counts.
  cbn [fst projects packages files dependsOn hasFile withProjects].
  now rewrite mergeSet_length_matched.
Qed.

Lemma evalMergePackage_counts (now : Z)
      (name version operator language : string) (g : Graph) :
  hasPackage g name = true ->
  counts (fst (evalMergePackage now name version operator language g))
  = counts g.
Proof.
  intros H. unfold evalMergePackage, counts.
  cbn [fst projects packages files dependsOn hasFile withPackages].
  now rewrite mergeSet_length_matched.
Qed.

Lemma evalMergeDependsOn_counts (now : Z)
      (projectName packageName versionConstraint type : string)
      (lineNumber : Z) (g : Graph) :
  hasRelationship g (ProjectRef projectName) packageName = true ->
  counts (fst (evalMergeDependsOn now projectName packageName
                                  versionConstraint type lineNumber g))
  = counts g.
Proof.
  intros H. unfold evalMergeDependsOn.
  destruct (hasProject g projectName && hasPackage g packageName);
    [|reflexivity].
  unfold counts.
  cbn [fst projects packages files dependsOn hasFile withDependsOn].
  now rewrite mergeSet_length_matched.
Qed.

Lemma evalMergeFile_counts (now : Z)
      (projectName filePath fileName fileType language : string) (g : Graph) :
  hasFileNode g filePath = true -> hasLink g projectName filePath = true ->
  counts (fst (evalMergeFile now projectName filePath fileName fileType
                             language g)) = counts g.
Proof.
  intros Hf Hl. unfold evalMergeFile.
  destruct (hasProject g projectName); [|reflexivity].
  unfold counts.
  cbn [fst projects packages files dependsOn hasFile withFile].
  rewrite mergeSet_length_matched by exact Hf.
  now rewrite mergeOnCreate_length_matched.
Qed.

Section BuildRuns.
Variable client : Neo4jClient.

(** The loop leaves every dependency with its package and relationship. *)
Lemma createDependencyLoop_establishes (projectName : string)
      (dependencies : list Dependency.t) :
  forall (n k : nat) (w w' : World),
    GraphBuilder.createDependencyLoop client projectName dependencies n w
    = (Returned k, w') ->
    hasProject (graph w) projectName = true ->
    extends (graph w) (graph w')
    /\ Forall (fun dep =>
                 hasPackage (graph w') (Dependency.name dep) = true
                 /\ hasRelationship (graph w') (ProjectRef projectName)
                                    (Dependency.name dep) = true)
              dependencies.
Proof.
  induction dependencies as [|dep rest IH]; intros n k w w' Hrun Hp.
  - simpl in Hrun. unfold ret in Hrun. inversion Hrun; subst.
    split; [apply extends_refl | constructor].
  - cbn [GraphBuilder.createDependencyLoop] in Hrun.
    apply bind_returned in Hrun as [r1 [w1 [Hq1 Hrun]]].
    apply bind_returned in Hrun as [r2 [w2 [Hq2 Hrun]]].
    apply executeQuery_returned in Hq1 as [_ Hw1].
    apply executeQuery_returned in Hq2 as [_ Hw2].
    cbn [evalQuery] in Hw1, Hw2.
    assert (E1 : extends (graph w) (graph w1))
      by (subst w1; apply evalMergePackage_extends).
    assert (E2 : extends (graph w1) (graph w2))
      by (subst w2; apply evalMergeDependsOn_extends).
    assert (K1 : hasPackage (graph w1) (Dependency.name dep) = true)
      by (subst w1; apply evalMergePackage_has).
    assert (P1 : hasProject (graph w1) projectName = true)
      by (apply E1; exact Hp).
    assert (R2 : hasRelationship (graph w2) (ProjectRef projectName)
                                 (Dependency.name dep) = true)
      by (subst w2; apply evalMergeDependsOn_has; assumption).
    assert (P2 : hasProject (graph w2) projectName = true)
      by (apply E2; exact P1).
    destruct (IH _ _ _ _ Hrun P2) as [E3 Hall].
    split.
    + eauto using extends_trans.
    + constructor; [|exact Hall]. split.
      * apply E3, E2, K1.
      * apply E3, R2.
Qed.

(** On a store that holds them already, the loop changes no count. *)
Lemma createDependencyLoop_counts (projectName : string)
      (dependencies : list Dependency.t) :
  forall (n k : nat) (w w' : World),
    GraphBuilder.createDependencyLoop client projectName dependencies n w
    = (Returned k, w') ->
    Forall (fun dep =>
              hasPackage (graph w) (Dependency.name dep) = true
              /\ hasRelationship (graph w) (ProjectRef projectName)
                                 (Dependency.name dep) = true)
           dependencies ->
    extends (graph w) (graph w') /\ counts (graph w') = counts (graph w).
Proof.
  induction dependencies as [|dep rest IH]; intros n k w w' Hrun Hall.
  - simpl in Hrun. unfold ret in Hrun. inversion Hrun; subst.
    split; [apply extends_refl | reflexivity].
  - cbn [GraphBuilder.createDependencyLoop] in Hrun.
    apply bind_returned in Hrun as [r1 [w1 [Hq1 Hrun]]].
    apply bind_returned in Hrun as [r2 [w2 [Hq2 Hrun]]].
    apply executeQuery_returned in Hq1 as [_ Hw1].
    apply executeQuery_returned in Hq2 as [_ Hw2].
    cbn [evalQuery] in Hw1, Hw2.
    apply Forall_cons_iff in Hall as [[Hk Hr] Hrest].
    assert (E1 : extends (graph w) (graph w1))
      by (subst w1; apply evalMergePackage_extends).
    assert (E2 : extends (graph w1) (graph w2))
      by (subst w2; apply evalMergeDependsOn_extends).
    assert (C1 : counts (graph w1) = counts (graph w))
      by (subst w1; apply evalMergePackage_counts; exact Hk).
    assert (C2 : counts (graph w2) = counts (graph w1)).
    { subst w2. apply evalMergeDependsOn_counts. apply E1. exact Hr. }
    assert (E12 : extends (graph w) (graph w2)) by eauto using extends_trans.
    assert (Hrest2 : Forall (fun d =>
                hasPackage (graph w2) (Dependency.name d) = true
                /\ hasRelationship (graph w2) (ProjectRef projectName)
                                   (Dependency.name d) = true) rest).
    { eapply Forall_impl; [|exact Hrest].
      intros d [Hd1 Hd2]. split; apply E12; assumption. }
    destruct (IH _ _ _ _ Hrun Hrest2) as [E3 C3].
    split; [eauto using extends_trans | congruence].
Qed.

(** A run that returns leaves the store covering the record. *)
Lemma buildProjectGraph_establishes (parsedData : ParsedData.t)
      (w w' : World) (b : bool) :
  GraphBuilder.buildProjectGraph client parsedData w = (Returned b, w') ->
  covered parsedData (graph w').
Proof.
  unfold GraphBuilder.buildProjectGraph. rewrite tryCatch_rethrow.
  intros Hrun.
  apply bind_returned in Hrun as [x1 [w1 [H1 Hrun]]].
  apply bind_returned in Hrun as [x2 [w2 [H2 Hrun]]].
  apply bind_returned in Hrun as [x3 [w3 [H3 Hrun]]].
  unfold ret in Hrun. inversion Hrun; subst w3 b.
  unfold GraphBuilder._createProjectNode in H1.
  apply bind_returned in H1 as [r1 [v1 [Hq1 Hr1]]].
  unfold ret in Hr1. inversion Hr1; subst v1.
  apply executeQuery_returned in Hq1 as [_ Hw1]. cbn [evalQuery] in Hw1.
  unfold GraphBuilder._createFileNode in H3.
  apply bind_returned in H3 as [r3 [v3 [Hq3 Hr3]]].
  unfold ret in Hr3. inversion Hr3; subst v3.
  apply executeQuery_returned in Hq3 as [_ Hw3]. cbn [evalQuery] in Hw3.
  assert (P1 : hasProject (graph w1) (ParsedData.projectName parsedData) = true)
    by (subst w1; apply evalMergeProject_has).
  destruct (@createDependencyLoop_establishes _ _ _ _ _ _ H2 P1) as [E2 Hall].
  assert (E3 : extends (graph w2) (graph w'))
    by (subst w'; apply evalMergeFile_extends).
  assert (P2 : hasProject (graph w2) (ParsedData.projectName parsedData) = true)
    by (apply E2; exact P1).
  assert (F3 : hasFileNode (graph w') (ParsedData.dependencyFile parsedData)
               = true
               /\ hasLink (graph w') (ParsedData.projectName parsedData)
                          (ParsedData.dependencyFile parsedData) = true)
    by (subst w'; apply evalMergeFile_has; exact P2).
  unfold covered. repeat split; try tauto.
  - apply E3, P2.
  - eapply Forall_impl; [|exact Hall].
    intros d [Hd1 Hd2]. split; apply E3; assumption.
Qed.

(** A run on a store that covers the record changes no count. *)
Lemma buildProjectGraph_covered_counts (parsedData : ParsedData.t)
      (w w' : World) (b : bool) :
  covered parsedData (graph w) ->
  GraphBuilder.buildProjectGraph client parsedData w = (Returned b, w') ->
  counts (graph w') = counts (graph w).
Proof.
  intros [Hp [Hall [Hf Hl]]].
  unfold GraphBuilder.buildProjectGraph. rewrite tryCatch_rethrow.
  intros Hrun.
  apply bind_returned in Hrun as [x1 [w1 [H1 Hrun]]].
  apply bind_returned in Hrun as [x2 [w2 [H2 Hrun]]].
  apply bind_returned in Hrun as [x3 [w3 [H3 Hrun]]].
  unfold ret in Hrun. inversion Hrun; subst w3 b.
  unfold GraphBuilder._createProjectNode in H1.
  apply bind_returned in H1 as [r1 [v1 [Hq1 Hr1]]].
  unfold ret in Hr1. inversion Hr1; subst v1.
  apply executeQuery_returned in Hq1 as [_ Hw1]. cbn [evalQuery] in Hw1.
  unfold GraphBuilder._createFileNode in H3.
  apply bind_returned in H3 as [r3 [v3 [Hq3 Hr3]]].
  unfold ret in Hr3. inversion Hr3; subst v3.
  apply executeQuery_returned in Hq3 as [_ Hw3]. cbn [evalQuery] in Hw3.
  assert (E1 : extends (graph w) (graph w1))
    by (subst w1; apply evalMergeProject_extends).
  assert (C1 : counts (graph w1) = counts (graph w))
    by (subst w1; apply evalMergeProject_counts; exact Hp).
  assert (Hall1 : Forall (fun d =>
              hasPackage (graph w1) (Dependency.name d) = true
              /\ hasRelationship (graph w1)
                                 (ProjectRef (ParsedData.projectName parsedData))
                                 (Dependency.name d) = true)
            (ParsedData.dependencies parsedData)).
  { eapply Forall_impl; [|exact Hall].
    intros d [Hd1 Hd2]. split; apply E1; assumption. }
  destruct (@createDependencyLoop_counts _ _ _ _ _ _ H2 Hall1) as [E2 C2].
  assert (C3 : counts (graph w') = counts (graph w2)).
  { subst w'. apply evalMergeFile_counts; apply E2, E1; assumption. }
  congruence.
Qed.

End BuildRuns.

(** C7. When [buildProjectGraph] has run for a Manifest Record and runs
    again for the same record, at any later time and whatever the store's
    clock, the numbers of Project, Package and File nodes and of DEPENDS_ON
    and HAS_FILE relationships after the second run are those after the
    first. *)
Theorem buildProjectGraph_idempotent
        (client client' : Neo4jClient) (parsedData : ParsedData.t)
        (w w1 v w2 : World) (b b' : bool) :
  GraphBuilder.buildProjectGraph client parsedData w = (Returned b, w1) ->
  graph v = graph w1 ->
  GraphBuilder.buildProjectGraph client' parsedData v = (Returned b', w2) ->
  counts (graph w2) = counts (graph w1).
Proof.
  intros Hfirst Hsame Hsecond.
  apply buildProjectGraph_establishes in Hfirst.
  rewrite <- Hsame in *.
  eapply buildProjectGraph_covered_counts; eassumption.
Qed.

Lemma buildProjectGraph_idempotent_witness :
  counts (graph (snd (GraphBuilder.buildProjectGraph
                        Samples.healthy Samples.projectA Samples.builtA)))
  = counts (graph Samples.builtA).
Proof.
  apply (@buildProjectGraph_idempotent
           Samples.healthy Samples.healthy Samples.projectA Samples.start
           Samples.builtA Samples.builtA
           (snd (GraphBuilder.buildProjectGraph
                   Samples.healthy Samples.projectA Samples.builtA))
           true true).
  - vm_compute. reflexivity.
  - reflexivity.
  - vm_compute. reflexivity.
Defined.

(* ===================================================================== *)
(** * Lists without repetition, and ordered lists *)
(* ===================================================================== *)

Lemma NoDup_map_filter (A B : Type) (keep : A -> bool) (image : A -> B) :
  forall rows : list A,
    NoDup (map image rows) -> NoDup (map image (filter keep rows)).
Proof.
  intros rows. induction rows as [|x l IH]; simpl; intros H; [constructor|].
  apply NoDup_cons_iff in H as [Hx Hl].
  destruct (keep x); simpl; [|auto].
  constructor; [|auto].
  intros Hin. apply Hx. apply in_map_iff in Hin as [y [Hy Hin]].
  apply filter_In in Hin as [Hin _]. rewrite <- Hy. now apply in_map.
Qed.

(** Where [g] separates whatever [f] separates, it maps a list without
    repeated [f] to a list without repetition. *)
Lemma NoDup_map_finer (A B C : Type) (f : A -> B) (g : A -> C) (l : list A) :
  NoDup (map f l) ->
  (forall x y, In x l -> In y l -> g x = g y -> f x = f y) ->
  NoDup (map g l).
Proof.
  induction l as [|x l IH]; simpl; intros H Hfg; [constructor|].
  apply NoDup_cons_iff in H as [Hx Hl]. constructor.
  - intros Hin. apply Hx. apply in_map_iff in Hin as [y [Hy Hin]].
    rewrite (Hfg x y); [now apply in_map | now left | now right | auto].
  - apply IH; [assumption|]. intros y z Hy Hz. apply Hfg; now right.
Qed.

(** A [flat_map] whose results name the element they come from. *)
Lemma NoDup_flat_map_keyed (A B K : Type) (key : A -> K) (origin : B -> K)
      (f : A -> list B) (l : list A) :
  NoDup (map key l) ->
  (forall x y, In x l -> In y (f x) -> origin y = key x) ->
  (forall x, In x l -> NoDup (f x)) ->
  NoDup (flat_map f l).
Proof.
  induction l as [|x l IH]; simpl; intros H Horigin Hf; [constructor|].
  apply NoDup_cons_iff in H as [Hx Hl].
  apply NoDup_app.
  - apply Hf. now left.
  - apply IH; [assumption | |]; intros; [apply Horigin | apply Hf]; auto.
  - intros y Hy Hin. apply Hx.
    apply in_flat_map in Hin as [x' [Hx' Hy']].
    rewrite <- (Horigin x y) by auto.
    rewrite (Horigin x' y) by auto. now apply in_map.
Qed.

Lemma leb_iff (a b : string) :
  String.leb a b = true <-> String_as_OT.lt a b \/ a = b.
Proof.
  unfold String.leb.
  destruct (String.compare a b) eqn:E.
  - apply String_as_OT.cmp_eq in E. tauto.
  - apply String_as_OT.cmp_lt in E. tauto.
  - split; [discriminate|].
    intros [H|H].
    + apply String_as_OT.cmp_lt in H. unfold String_as_OT.cmp in H. congruence.
    + apply String_as_OT.cmp_eq in H. unfold String_as_OT.cmp in H. congruence.
Qed.

Lemma leb_trans (a b c : string) :
  String.leb a b = true -> String.leb b c = true -> String.leb a c = true.
Proof.
  rewrite !leb_iff. intros [H1| ->] [H2| ->]; auto.
  left. eapply String_as_OT.lt_trans; eassumption.
Qed.

Lemma ltb_asym (a b : string) :
  String.ltb a b = true -> String.ltb b a = false.
Proof.
  unfold String.ltb. rewrite (String.compare_antisym b a).
  destruct (String.compare a b); simpl; intros H;
    [discriminate | reflexivity | discriminate].
Qed.

Section Ordering.
Variable A : Type.
Variable key : A -> string.

Lemma insertBy_first (x : A) (l : list A) :
  Forall (fun y => String.leb (key x) (key y) = true) l ->
  insertBy key x l = x :: l.
Proof.
  destruct l as [|y l]; simpl; [reflexivity|].
  intros H. apply Forall_cons_iff in H as [-> _]. reflexivity.
Qed.

Lemma insertBy_In (x y : A) (l : list A) :
  In y (insertBy key x l) <-> y = x \/ In y l.
Proof.
  induction l as [|z l IH]; simpl.
  - intuition.
  - destruct (String.leb (key x) (key z)); simpl; [intuition|].
    rewrite IH. intuition.
Qed.

Lemma insertBy_ordered (x : A) (l : list A) :
  ordered key l -> ordered key (insertBy key x l).
Proof.
  unfold ordered. induction l as [|y l IH]; simpl; intros H.
  - constructor; constructor.
  - apply StronglySorted_inv in H as [Hl Hy].
    destruct (String.leb (key x) (key y)) eqn:E.
    + constructor; [constructor; assumption|].
      constructor; [assumption|].
      eapply Forall_impl; [|exact Hy].
      intros z Hz. eapply leb_trans; eassumption.
    + constructor; [auto|].
      apply Forall_forall. intros z Hz.
      apply insertBy_In in Hz as [->|Hz].
      * destruct (String.leb_total (key x) (key y)); congruence.
      * rewrite Forall_forall in Hy. auto.
Qed.

Lemma orderBy_ordered (l : list A) : ordered key (orderBy key l).
Proof.
  induction l as [|x l IH]; simpl.
  - constructor.
  - now apply insertBy_ordered.
Qed.

Lemma filter_insertBy (f : A -> bool) (x : A) (l : list A) :
  ordered key l ->
  filter f (insertBy key x l)
  = if f x then insertBy key x (filter f l) else filter f l.
Proof.
  unfold ordered. induction l as [|y l IH]; intros H.
  - simpl. destruct (f x); reflexivity.
  - apply StronglySorted_inv in H as [Hl Hy].
    cbn [insertBy].
    destruct (String.leb (key x) (key y)) eqn:E.
    + change (filter f (x :: y :: l))
        with (if f x then x :: filter f (y :: l) else filter f (y :: l)).
      destruct (f x); [|reflexivity].
      rewrite insertBy_first; [reflexivity|].
      assert (Hall : Forall (fun z => String.leb (key x) (key z) = true)
                            (y :: l)).
      { constructor; [assumption|].
        eapply Forall_impl; [|exact Hy].
        intros z Hz. eapply leb_trans; eassumption. }
      apply Forall_forall. intros z Hz.
      apply filter_In in Hz as [Hz _].
      rewrite Forall_forall in Hall. now apply Hall.
    + cbn [filter]. rewrite (IH Hl).
      destruct (f y), (f x); cbn [insertBy]; rewrite ?E; reflexivity.
Qed.

(** Filtering before or after [ORDER BY] gives the same rows. *)
Lemma filter_orderBy (f : A -> bool) (l : list A) :
  filter f (orderBy key l) = orderBy key (filter f l).
Proof.
  induction l as [|x l IH]; [reflexivity|].
  cbn [orderBy fold_right]. fold (orderBy key l).
  rewrite filter_insertBy by apply orderBy_ordered.
  rewrite IH. cbn [filter]. destruct (f x); reflexivity.
Qed.

End Ordering.

(* ===================================================================== *)
(** * One relationship between two nodes *)
(* ===================================================================== *)

Lemma mergeSet_ends (matches : DependsOn.t -> bool)
      (set : DependsOn.t -> DependsOn.t) (fresh : DependsOn.t)
      (rs : list DependsOn.t) :
  (forall r, ends (set r) = ends r) ->
  (forall r, matches r = true <-> ends r = ends fresh) ->
  NoDup (map ends rs) ->
  NoDup (map ends (mergeSet matches set fresh rs)).
Proof.
  intros Hset Hmatch Hnd. unfold mergeSet.
  destruct (existsb matches rs) eqn:E.
  - rewrite map_map.
    rewrite (map_ext _ ends); [assumption|].
    intros r. destruct (matches r); auto.
  - rewrite map_app. simpl. rewrite Hset.
    apply NoDup_app; [assumption | repeat constructor; auto |].
    intros e He [<-|[]].
    apply in_map_iff in He as [r [Hr Hin]].
    assert (Hm : matches r = true) by now apply Hmatch.
    assert (Hex : existsb matches rs = true)
      by (apply existsb_exists; eauto).
    congruence.
Qed.

Lemma mergeOnCreate_ends (a : NodeRef) (b : string) (created : DependsOn.t)
      (rs : list DependsOn.t) :
  ends created = (a, b) ->
  NoDup (map ends rs) ->
  NoDup (map ends (mergeOnCreate (joins a b) created rs)).
Proof.
  intros Hc Hnd. unfold mergeOnCreate.
  destruct (existsb (joins a b) rs) eqn:E; [assumption|].
  rewrite map_app. simpl.
  apply NoDup_app; [assumption | repeat constructor; auto |].
  intros e He [<-|[]].
  apply in_map_iff in He as [r [Hr Hin]].
  assert (Hex : existsb (joins a b) rs = true).
  { apply existsb_exists. exists r. split; [assumption|].
    apply joins_ends. congruence. }
  congruence.
Qed.

Lemma link_fold_ends (now : Z) (rows : list (string * DependsOn.t))
      (rs : list DependsOn.t) :
  NoDup (map ends rs) -> NoDup (map ends (fold_left (linkOne now) rows rs)).
Proof.
  revert rs. induction rows as [|row rows IH]; intros rs H; simpl;
    [assumption|].
  apply IH. unfold linkOne. now apply mergeOnCreate_ends.
Qed.

(** Every statement keeps relationships single. *)
Lemma evalQuery_singleRelationships (now : Z) (R : Type) (query : Query R)
      (g : Graph) :
  singleRelationships g -> singleRelationships (fst (evalQuery now query g)).
Proof.
  unfold singleRelationships. intros H.
  destruct query; cbn [evalQuery fst]; try assumption.
  - unfold evalMergeDependsOn.
    destruct (hasProject g projectName && hasPackage g packageName);
      [|assumption].
    cbn [fst dependsOn withDependsOn].
    apply mergeSet_ends; [reflexivity | | assumption].
    intros r. apply joins_ends.
  - unfold evalMergeFile. destruct (hasProject g projectName); assumption.
  - unfold evalLinkPackages. cbn [fst dependsOn withDependsOn].
    now apply link_fold_ends.
Qed.

(** The stores of the program have single relationships. *)
Lemma reachable_singleRelationships (g : Graph) :
  reachable g -> singleRelationships g.
Proof.
  induction 1 as [|R query now g _ IH].
  - constructor.
  - now apply evalQuery_singleRelationships.
Qed.

(* ===================================================================== *)
(** * Direct cycles *)
(* ===================================================================== *)

Lemma evalDirectCycles_In (g : Graph) (a b : string) :
  In (DirectCycle.mk a b) (evalDirectCycles g)
  <-> hasRelationship g (PackageRef a) b = true
      /\ hasRelationship g (PackageRef b) a = true
      /\ String.ltb a b = true.
Proof.
  unfold evalDirectCycles, hasRelationship. split.
  - intros H. apply in_flat_map in H as [r1 [Hr1 H]].
    destruct (DependsOn.from r1) as [n|p1] eqn:Hfrom; [contradiction|].
    apply in_flat_map in H as [r2 [Hr2 H]].
    destruct (joins (PackageRef (DependsOn.to r1)) p1 r2) eqn:Hj;
      [|contradiction].
    destruct (String.ltb p1 (DependsOn.to r1)) eqn:Hlt; [|contradiction].
    destruct H as [H|[]]. inversion H; subst a b.
    repeat split; [| |assumption]; apply existsb_exists.
    + exists r1. split; [assumption|]. apply joins_ends.
      unfold ends. now rewrite Hfrom.
    + exists r2. auto.
  - intros [H1 [H2 Hlt]].
    apply existsb_exists in H1 as [r1 [Hr1 H1]].
    apply existsb_exists in H2 as [r2 [Hr2 H2]].
    apply joins_ends in H1. inversion H1 as [[Hfrom Hto]].
    apply in_flat_map. exists r1. split; [assumption|].
    rewrite Hfrom. apply in_flat_map. exists r2. split; [assumption|].
    rewrite Hto, H2, Hlt. now left.
Qed.

Lemma evalDirectCycles_NoDup (g : Graph) :
  singleRelationships g -> NoDup (evalDirectCycles g).
Proof.
  intros Hnd. unfold evalDirectCycles.
  apply NoDup_flat_map_keyed
    with (key := ends)
         (origin := fun c => (PackageRef (DirectCycle.package1 c),
                              DirectCycle.package2 c)).
  - exact Hnd.
  - intros r1 c Hr1 Hc.
    destruct (DependsOn.from r1) as [n|p1] eqn:Hfrom; [contradiction|].
    apply in_flat_map in Hc as [r2 [_ Hc]].
    destruct (joins _ p1 r2 && String.ltb p1 (DependsOn.to r1));
      [|contradiction].
    destruct Hc as [<-|[]]. unfold ends. now rewrite Hfrom.
  - intros r1 _.
    destruct (DependsOn.from r1) as [n|p1]; [constructor|].
    apply NoDup_flat_map_keyed
      with (key := ends)
           (origin := fun _ : DirectCycle.t =>
                        (PackageRef (DependsOn.to r1), p1)).
    + exact Hnd.
    + intros r2 c _ Hc.
      destruct (joins (PackageRef (DependsOn.to r1)) p1 r2) eqn:Hj;
        [|contradiction].
      symmetry. now apply joins_ends.
    + intros r2 _.
      destruct (joins _ p1 r2 && String.ltb p1 (DependsOn.to r1));
        repeat constructor; auto.
Qed.

Lemma DirectCycle_rebuild (rows : list DirectCycle.t) :
  map (fun record =>
         DirectCycle.mk (DirectCycle.package1 record)
                        (DirectCycle.package2 record)) rows = rows.
Proof.
  induction rows as [|[a b] rows IH]; simpl; [reflexivity | now rewrite IH].
Qed.

(** C6. On a store with single relationships,
    [findDirectCircularDependencies] returns the pairs of packages that
    depend on each other, as records [{package1, package2}] with
    [package1 < package2]: every such pair is there, once, and never in the
    other order.  For the store built from two projects D and E that depend
    on each other it returns the one record [{package1: "D", package2: "E"}]. *)
Theorem findDirectCircularDependencies_pairs :
  (forall (client : Neo4jClient) (w : World),
     failure client (clock w) DirectCycles = None ->
     singleRelationships (graph w) ->
     exists cycles,
       fst (CircularDependencyAnalyzer.findDirectCircularDependencies client w)
       = Returned cycles
       /\ NoDup cycles
       /\ (forall a b,
             In (DirectCycle.mk a b) cycles
             <-> hasRelationship (graph w) (PackageRef a) b = true
                 /\ hasRelationship (graph w) (PackageRef b) a = true
                 /\ String.ltb a b = true)
       /\ (forall a b,
             In (DirectCycle.mk a b) cycles -> ~ In (DirectCycle.mk b a) cycles))
  /\ fst (CircularDependencyAnalyzer.findDirectCircularDependencies
            Samples.healthy Samples.mutual)
     = Returned [DirectCycle.mk "D" "E"].
Proof.
  split; [|reflexivity].
  intros client w Hok Hnd. exists (evalDirectCycles (graph w)).
  split; [|split; [|split]].
  - unfold CircularDependencyAnalyzer.findDirectCircularDependencies.
    rewrite tryCatch_rethrow. unfold bind, executeQuery. rewrite Hok.
    cbn [usesApoc andb evalQuery ret fst]. now rewrite DirectCycle_rebuild.
  - now apply evalDirectCycles_NoDup.
  - apply evalDirectCycles_In.
  - intros a b Hab Hba.
    apply evalDirectCycles_In in Hab as [_ [_ Hab]].
    apply evalDirectCycles_In in Hba as [_ [_ Hba]].
    apply ltb_asym in Hab. congruence.
Qed.

Lemma findDirectCircularDependencies_pairs_witness :
  exists cycles,
    fst (CircularDependencyAnalyzer.findDirectCircularDependencies
           Samples.healthy Samples.company) = Returned cycles
    /\ NoDup cycles.
Proof.
  destruct (proj1 findDirectCircularDependencies_pairs
                  Samples.healthy Samples.company eq_refl)
    as [cycles [Hrun [Hnd _]]].
  - vm_compute. repeat constructor; simpl; intuition discriminate.
  - exists cycles. split; assumption.
Defined.

(* ===================================================================== *)
(** * The two conflict strategies *)
(* ===================================================================== *)

Lemma ConflictDep_eqb_spec (a b : ConflictDep.t) :
  reflect (a = b) (ConflictDep.eqb a b).
Proof.
  destruct a as [p1 v1 t1], b as [p2 v2 t2]. unfold ConflictDep.eqb. simpl.
  destruct (String.eqb_spec p1 p2), (String.eqb_spec v1 v2),
    (String.eqb_spec t1 t2); simpl; constructor; congruence.
Qed.

(** With single relationships, the entries collected for one package come
    from different projects, so no two of them are equal. *)
Lemma conflictDeps_NoDup (g : Graph) (k : string) :
  singleRelationships g ->
  NoDup (map conflictDep
             (filter (fun r => String.eqb (DependsOn.to r) k) (projectRows g))).
Proof.
  intros Hnd. apply NoDup_map_finer with (f := ends).
  - unfold projectRows. now do 2 apply NoDup_map_filter.
  - intros x y Hx Hy Heq.
    apply filter_In in Hx as [Hx Hxk]. apply filter_In in Hy as [Hy Hyk].
    apply String.eqb_eq in Hxk, Hyk.
    unfold projectRows in Hx, Hy.
    apply filter_In in Hx as [_ Hx]. apply filter_In in Hy as [_ Hy].
    unfold conflictDep, fromName in Heq. unfold ends.
    destruct (DependsOn.from x), (DependsOn.from y); try discriminate.
    inversion Heq. congruence.
Qed.

Lemma groupByPackage_In (rows : list DependsOn.t)
      (kv : string * list DependsOn.t) :
  In kv (groupByPackage rows) ->
  snd kv = filter (fun r => String.eqb (DependsOn.to r) (fst kv)) rows.
Proof.
  unfold groupByPackage. intros H.
  apply in_map_iff in H as [k [<- _]]. reflexivity.
Qed.

(** The store-side strategy computes what the caller-side filter leaves of
    the basic query. *)
Lemma evalConflictsToSet_basic (g : Graph) :
  singleRelationships g ->
  evalConflictsToSet g
  = filter VersionConflictAnalyzer.hasSeveralVersions (evalConflictsBasic g).
Proof.
  intros Hnd. unfold evalConflictsToSet, evalConflictsBasic.
  rewrite filter_orderBy. f_equal.
  rewrite (map_ext_in
             (fun kv => Conflict.mk (fst kv)
                          (distinct ConflictDep.eqb (map conflictDep (snd kv))))
             (fun kv => Conflict.mk (fst kv) (map conflictDep (snd kv)))).
  - reflexivity.
  - intros kv Hkv. f_equal.
    apply (@distinct_NoDup_id _ _ ConflictDep_eqb_spec).
    rewrite (groupByPackage_In _ _ Hkv). now apply conflictDeps_NoDup.
Qed.

Section ConflictRuns.
Variable client : Neo4jClient.
Hypothesis client_reliable : reliable client.

Lemma findVersionConflictsBasic_result (w : World) :
  fst (VersionConflictAnalyzer.findVersionConflictsBasic client w)
  = Returned (filter VersionConflictAnalyzer.hasSeveralVersions
                     (evalConflictsBasic (graph w))).
Proof.
  unfold VersionConflictAnalyzer.findVersionConflictsBasic.
  rewrite tryCatch_rethrow. unfold bind.
  rewrite (executeQuery_reliable _ _ client_reliable) by reflexivity.
  cbn [evalQuery snd fst].
  destruct (filter _ (evalConflictsBasic (graph w))); reflexivity.
Qed.

Lemma findVersionConflicts_result (w : World) :
  fst (VersionConflictAnalyzer.findVersionConflicts client w)
  = if apocInstalled client
    then Returned (evalConflictsToSet (graph w))
    else Returned (filter VersionConflictAnalyzer.hasSeveralVersions
                          (evalConflictsBasic (graph w))).
Proof.
  unfold VersionConflictAnalyzer.findVersionConflicts, tryCatch, bind.
  destruct (apocInstalled client) eqn:Hapoc.
  - rewrite (executeQuery_reliable _ _ client_reliable)
      by (cbn [usesApoc]; now rewrite Hapoc).
    cbn [evalQuery snd fst].
    destruct (evalConflictsToSet (graph w)); reflexivity.
  - unfold executeQuery at 1. rewrite client_reliable.
    cbn [usesApoc andb]. rewrite Hapoc. cbn [negb].
    change (includes unknownFunction "apoc") with true. cbv iota.
    exact (findVersionConflictsBasic_result
             (mkWorld (graph w) (clock w + 1))).
Qed.

End ConflictRuns.

(** C3. On a store with single relationships (every store the program
    produces), [findVersionConflicts] and [findVersionConflictsBasic] return
    the same list: the same packages, in the same order, each with the same
    list of dependencies; with or without the APOC plugin. *)
Theorem findVersionConflicts_same_as_basic (client : Neo4jClient) (w : World) :
  reliable client ->
  singleRelationships (graph w) ->
  fst (VersionConflictAnalyzer.findVersionConflicts client w)
  = fst (VersionConflictAnalyzer.findVersionConflictsBasic client w).
Proof.
  intros Hrel Hnd.
  rewrite (findVersionConflicts_result Hrel),
    (findVersionConflictsBasic_result Hrel).
  destruct (apocInstalled client); [|reflexivity].
  now rewrite evalConflictsToSet_basic.
Qed.

Lemma findVersionConflicts_same_as_basic_witness :
  fst (VersionConflictAnalyzer.findVersionConflicts
         Samples.healthy Samples.company)
  = fst (VersionConflictAnalyzer.findVersionConflictsBasic
           Samples.healthy Samples.company).
Proof.
  apply findVersionConflicts_same_as_basic.
  - intros now R query. reflexivity.
  - vm_compute. repeat constructor; simpl; intuition discriminate.
Defined.

(* ===================================================================== *)
(** * The runs return *)
(* ===================================================================== *)

Section ReliableRuns.
Variable client : Neo4jClient.
Hypothesis client_reliable : reliable client.

Lemma createDependencyLoop_returns (projectName : string)
      (dependencies : list Dependency.t) :
  forall (n : nat) (w : World),
  exists w',
    GraphBuilder.createDependencyLoop client projectName dependencies n w
    = (Returned (n + length dependencies)%nat, w').
Proof.
  induction dependencies as [|dep rest IH]; intros n w.
  - exists w. simpl. unfold ret. now rewrite Nat.add_0_r.
  - cbn [GraphBuilder.createDependencyLoop]. unfold bind.
    rewrite (executeQuery_reliable _ _ client_reliable) by reflexivity.
    rewrite (executeQuery_reliable _ _ client_reliable) by reflexivity.
    match goal with
    | |- context [GraphBuilder.createDependencyLoop client _ rest _ ?v] =>
        destruct (IH (S n) v) as [w' Hw']
    end.
    exists w'. rewrite Hw'. simpl length. now rewrite Nat.add_succ_r.
Qed.

(** With a store that does not fail, [buildProjectGraph] returns [true]. *)
Lemma buildProjectGraph_returns (parsedData : ParsedData.t) (w : World) :
  exists w',
    GraphBuilder.buildProjectGraph client parsedData w = (Returned true, w').
Proof.
  unfold GraphBuilder.buildProjectGraph. rewrite tryCatch_rethrow.
  unfold GraphBuilder._createProjectNode, GraphBuilder._createFileNode,
    GraphBuilder._createDependencyNodes, bind at 1 2.
  rewrite (executeQuery_reliable _ _ client_reliable) by reflexivity.
  unfold ret at 1. unfold bind at 1.
  match goal with
  | |- context [GraphBuilder.createDependencyLoop client ?p ?d ?n ?v] =>
      destruct (createDependencyLoop_returns p d n v) as [w2 ->]
  end.
  unfold bind.
  rewrite (executeQuery_reliable _ _ client_reliable) by reflexivity.
  unfold ret. eauto.
Qed.

End ReliableRuns.

(* ===================================================================== *)
(** * The bound on the length of paths *)
(* ===================================================================== *)

Section FilterLength.
Variable A : Type.
Variables p q : A -> bool.
Hypothesis p_q : forall x, p x = true -> q x = true.

Lemma filter_length_mono (l : list A) :
  (length (filter p l) <= length (filter q l))%nat.
Proof.
  induction l as [|x l IH]; simpl; [lia|].
  destruct (p x) eqn:Hp.
  - rewrite (p_q Hp). simpl. lia.
  - destruct (q x); simpl; lia.
Qed.

Lemma filter_length_less (l : list A) (a : A) :
  In a l -> p a = false -> q a = true ->
  (length (filter p l) < length (filter q l))%nat.
Proof.
  intros Hin Hp Hq. induction l as [|x l IH]; [contradiction|].
  destruct Hin as [->|Hin].
  - simpl. rewrite Hp, Hq. simpl. pose proof (filter_length_mono l). lia.
  - specialize (IH Hin). simpl.
    destruct (p x) eqn:Hpx.
    + rewrite (p_q Hpx). simpl. lia.
    + destruct (q x); simpl; lia.
Qed.

End FilterLength.

(** Taking a relationship leaves fewer to take. *)
Lemma unused_shrinks (rels : list (nat * DependsOn.t)) (used : list nat)
      (ir : nat * DependsOn.t) :
  In ir rels ->
  existsb (Nat.eqb (fst ir)) used = false ->
  (length (filter (fun x => negb (existsb (Nat.eqb (fst x)) (fst ir :: used)))
                  rels)
   < length (filter (fun x => negb (existsb (Nat.eqb (fst x)) used)) rels))%nat.
Proof.
  intros Hin Hfree. apply filter_length_less with (a := ir).
  - intros x. simpl. destruct (existsb (Nat.eqb (fst x)) used);
      [now rewrite orb_true_r | reflexivity].
  - assumption.
  - simpl. now rewrite Nat.eqb_refl.
  - now rewrite Hfree.
Qed.

Lemma flat_map_ext_in (A B : Type) (f g : A -> list B) (l : list A) :
  (forall x, In x l -> f x = g x) -> flat_map f l = flat_map g l.
Proof.
  induction l as [|x l IH]; simpl; intros H; [reflexivity|].
  rewrite (H x) by now left. f_equal. apply IH. intros y Hy. apply H. now right.
Qed.

(** Fuel beyond the number of unused relationships finds no further path. *)
Lemma trails_fuel (rels : list (nat * DependsOn.t)) (target : string) :
  forall (fuel : nat) (used : list nat) (at_ : string),
    (length (filter (fun x => negb (existsb (Nat.eqb (fst x)) used)) rels)
     <= fuel)%nat ->
    trails (S fuel) rels used at_ target = trails fuel rels used at_ target.
Proof.
  induction fuel as [|fuel IH]; intros used at_ Hfuel.
  - cbn [trails]. rewrite (flat_map_ext_in _ (fun _ => [])).
    + clear. induction rels; simpl; auto.
    + intros ir Hir.
      destruct (existsb (Nat.eqb (fst ir)) used) eqn:E.
      * now rewrite andb_false_r.
      * exfalso.
        assert (Hin : In ir (filter (fun x => negb (existsb (Nat.eqb (fst x))
                                                            used)) rels))
          by (apply filter_In; now rewrite E).
        destruct (filter _ rels); [contradiction | simpl in Hfuel; lia].
  - change (trails (S (S fuel)) rels used at_ target)
      with (flat_map (fun ir =>
              if NodeRef_eqb (DependsOn.from (snd ir)) (PackageRef at_)
                 && negb (existsb (Nat.eqb (fst ir)) used)
              then
                ((if String.eqb (DependsOn.to (snd ir)) target
                  then [[fst ir]] else [])
                 ++ map (cons (fst ir))
                        (trails (S fuel) rels (fst ir :: used)
                                (DependsOn.to (snd ir)) target))%list
              else []) rels).
    change (trails (S fuel) rels used at_ target)
      with (flat_map (fun ir =>
              if NodeRef_eqb (DependsOn.from (snd ir)) (PackageRef at_)
                 && negb (existsb (Nat.eqb (fst ir)) used)
              then
                ((if String.eqb (DependsOn.to (snd ir)) target
                  then [[fst ir]] else [])
                 ++ map (cons (fst ir))
                        (trails fuel rels (fst ir :: used)
                                (DependsOn.to (snd ir)) target))%list
              else []) rels).
    apply flat_map_ext_in. intros ir Hir.
    destruct (existsb (Nat.eqb (fst ir)) used) eqn:E.
    + now rewrite andb_false_r.
    + rewrite IH; [reflexivity|].
      pose proof (unused_shrinks rels used ir Hir E). lia.
Qed.

(** [cyclePaths] misses no path: more fuel than the number of relationships
    gives the same paths. *)
Lemma trails_enough (rels : list (nat * DependsOn.t)) (at_ target : string)
      (extra : nat) :
  trails (length rels + extra) rels [] at_ target
  = trails (length rels) rels [] at_ target.
Proof.
  induction extra as [|extra IH]; [now rewrite Nat.add_0_r|].
  rewrite Nat.add_succ_r, trails_fuel; [exact IH|].
  pose proof (filter_length_le
                (fun x : nat * DependsOn.t => negb (existsb (Nat.eqb (fst x)) []))
                rels).
  lia.
Qed.

(* ===================================================================== *)
(** * The methods stay within the stores of the program *)
(* ===================================================================== *)

Section Reachability.
Variable client : Neo4jClient.

Lemma ret_keepsReachable (A : Type) (a : A) : keepsReachable (ret a).
Proof. intros w H. exact H. Qed.

Lemma throw_keepsReachable (A : Type) (message : string) :
  keepsReachable (@throw A message).
Proof. intros w H. exact H. Qed.

Lemma bind_keepsReachable (A B : Type) (m : Async A) (k : A -> Async B) :
  keepsReachable m -> (forall a, keepsReachable (k a)) ->
  keepsReachable (bind m k).
Proof.
  intros Hm Hk w H. specialize (Hm w H). unfold bind.
  destruct (m w) as [[a|message] w']; simpl in *; [now apply Hk | assumption].
Qed.

Lemma tryCatch_keepsReachable (A : Type) (body : Async A)
      (handler : string -> Async A) :
  keepsReachable body -> (forall error, keepsReachable (handler error)) ->
  keepsReachable (tryCatch body handler).
Proof.
  intros Hb Hh w H. specialize (Hb w H). unfold tryCatch.
  destruct (body w) as [[a|message] w']; simpl in *; [assumption | now apply Hh].
Qed.

Lemma executeQuery_keepsReachable (R : Type) (query : Query R) :
  keepsReachable (executeQuery client query).
Proof.
  intros w H. unfold executeQuery.
  destruct (failure client (clock w) query); [exact H|].
  destruct (usesApoc query && negb (apocInstalled client)); [exact H|].
  pose proof (reachable_step query (clock w) H) as Hstep.
  destruct (evalQuery (clock w) query (graph w)); exact Hstep.
Qed.

Lemma createDependencyLoop_keepsReachable (projectName : string)
      (dependencies : list Dependency.t) :
  forall n, keepsReachable
              (GraphBuilder.createDependencyLoop client projectName
                                                 dependencies n).
Proof.
  induction dependencies as [|dep rest IH]; intros n;
    cbn [GraphBuilder.createDependencyLoop].
  - apply ret_keepsReachable.
  - repeat (apply bind_keepsReachable; [apply executeQuery_keepsReachable|];
            intros _).
    apply IH.
Qed.

Lemma buildProjectGraph_keepsReachable (parsedData : ParsedData.t) :
  keepsReachable (GraphBuilder.buildProjectGraph client parsedData).
Proof.
  unfold GraphBuilder.buildProjectGraph, GraphBuilder._createProjectNode,
    GraphBuilder._createDependencyNodes, GraphBuilder._createFileNode.
  apply tryCatch_keepsReachable; [|intros; apply throw_keepsReachable].
  repeat first
         [ apply ret_keepsReachable
         | apply executeQuery_keepsReachable
         | apply createDependencyLoop_keepsReachable
         | apply bind_keepsReachable; [|intros ?] ].
Qed.

Lemma linkPackageDependencies_keepsReachable :
  keepsReachable (GraphBuilder.linkPackageDependencies client).
Proof.
  unfold GraphBuilder.linkPackageDependencies.
  apply tryCatch_keepsReachable; [|intros; apply throw_keepsReachable].
  apply bind_keepsReachable;
    [apply executeQuery_keepsReachable | intros; apply ret_keepsReachable].
Qed.

End Reachability.

(** Whatever was loaded since the store was cleared, and whichever
    statements failed on the way, relationships are single. *)
Lemma loaded_singleRelationships (client : Neo4jClient)
      (records : list ParsedData.t) :
  singleRelationships
    (graph (fold_left (fun w parsedData => snd (Samples.load client parsedData w))
                      records Samples.start)).
Proof.
  apply reachable_singleRelationships.
  assert (H : reachable (graph Samples.start)) by constructor.
  revert H. generalize Samples.start.
  induction records as [|parsedData rest IH]; intros w H; simpl; [exact H|].
  apply IH. unfold Samples.load.
  apply bind_keepsReachable; [| |exact H].
  - apply buildProjectGraph_keepsReachable.
  - intros _. apply linkPackageDependencies_keepsReachable.
Qed.

(* ===================================================================== *)
(** * The shape of the stores of the program *)
(* ===================================================================== *)

Section MergeShape.
Variables (A K : Type) (key : A -> K).
Variables (matches : A -> bool) (set : A -> A) (fresh : A).
Hypothesis matches_key : forall a, matches a = true <-> key a = key (set fresh).
Hypothesis set_key : forall a, matches a = true -> key (set a) = key a.

(** [MERGE ... SET] keeps identities apart. *)
Lemma mergeSet_NoDup_keys (l : list A) :
  NoDup (map key l) -> NoDup (map key (mergeSet matches set fresh l)).
Proof.
  intros Hnd. unfold mergeSet.
  destruct (existsb matches l) eqn:E.
  - rewrite map_map. rewrite (map_ext_in _ key); [assumption|].
    intros a _. destruct (matches a) eqn:Ha; auto.
  - rewrite map_app. simpl.
    apply NoDup_app; [assumption | repeat constructor; auto |].
    intros k Hk [<-|[]].
    apply in_map_iff in Hk as [a [Ha Hin]].
    apply matches_key in Ha.
    assert (Hex : existsb matches l = true) by (apply existsb_exists; eauto).
    congruence.
Qed.

Lemma mergeSet_In_inv (l : list A) (x : A) :
  In x (mergeSet matches set fresh l) ->
  (In x l /\ matches x = false)
  \/ (exists a, In a l /\ matches a = true /\ x = set a)
  \/ (existsb matches l = false /\ x = set fresh).
Proof.
  unfold mergeSet. destruct (existsb matches l) eqn:E; intros H.
  - apply in_map_iff in H as [a [Ha Hin]].
    destruct (matches a) eqn:Hm; subst; [|now left].
    right. left. exists a. auto.
  - apply in_app_or in H as [H|[<-|[]]]; auto.
    left. split; [assumption|].
    destruct (matches x) eqn:Hm; [|reflexivity].
    assert (Hex : existsb matches l = true) by (apply existsb_exists; eauto).
    congruence.
Qed.

End MergeShape.

Lemma HasFile_eq (h : HasFile.t) (project file : string) :
  String.eqb (HasFile.project h) project && String.eqb (HasFile.file h) file
  = true <-> h = HasFile.mk project file.
Proof.
  destruct h as [p f]. simpl.
  rewrite andb_true_iff, !String.eqb_eq. split.
  - intros [-> ->]. reflexivity.
  - intros H. inversion H. auto.
Qed.

Lemma evalQuery_uniqueNodes (now : Z) (R : Type) (query : Query R) (g : Graph) :
  uniqueNodes g -> uniqueNodes (fst (evalQuery now query g)).
Proof.
  intros [Hp [Hk [Hf Hh]]].
  destruct query; cbn [evalQuery fst]; try (repeat split; assumption).
  - unfold evalMergeProject, uniqueNodes.
    cbn [fst projects packages files hasFile withProjects].
    repeat split; try assumption.
    apply mergeSet_NoDup_keys; [| |assumption]; intros a; cbn [Project.name];
      [apply String.eqb_eq | intros Ha; apply String.eqb_eq in Ha; auto].
  - unfold evalMergePackage, uniqueNodes.
    cbn [fst projects packages files hasFile withPackages].
    repeat split; try assumption.
    apply mergeSet_NoDup_keys; [| |assumption]; intros a; cbn [Package.name];
      [apply String.eqb_eq | intros Ha; apply String.eqb_eq in Ha; auto].
  - unfold evalMergeDependsOn.
    destruct (hasProject g projectName && hasPackage g packageName);
      repeat split; assumption.
  - unfold evalMergeFile.
    destruct (hasProject g projectName); [|repeat split; assumption].
    unfold uniqueNodes. cbn [fst projects packages files hasFile withFile].
    repeat split; try assumption.
    + apply mergeSet_NoDup_keys; [| |assumption]; intros a; cbn [File.path];
        [apply String.eqb_eq | intros Ha; apply String.eqb_eq in Ha; auto].
    + unfold mergeOnCreate.
      destruct (existsb _ (hasFile g)) eqn:E; [assumption|].
      apply NoDup_app; [assumption | repeat constructor; auto |].
      intros h Hin [<-|[]].
      assert (Hex : existsb
                      (fun h => String.eqb (HasFile.project h) projectName
                                && String.eqb (HasFile.file h) filePath)
                      (hasFile g) = true).
      { apply existsb_exists. eexists. split; [exact Hin|].
        now apply HasFile_eq. }
      congruence.
Qed.

Lemma hasNode_extends (g g' : Graph) (a : NodeRef) :
  extends g g' -> hasNode g a = true -> hasNode g' a = true.
Proof.
  intros [Hp [Hk _]]. destruct a; simpl; auto.
Qed.

(** A larger store whose new relationships join stored nodes. *)
Lemma endsExist_grow (g g' : Graph) :
  extends g g' ->
  (forall r, In r (dependsOn g') ->
             (exists r0, In r0 (dependsOn g) /\ ends r = ends r0)
             \/ (hasNode g' (DependsOn.from r) = true
                 /\ hasPackage g' (DependsOn.to r) = true)) ->
  (forall h, In h (hasFile g') ->
             In h (hasFile g)
             \/ (hasProject g' (HasFile.project h) = true
                 /\ hasFileNode g' (HasFile.file h) = true)) ->
  endsExist g -> endsExist g'.
Proof.
  intros Hext Hrels Hlinks [Hr Hf].
  pose proof Hext as [Hp [Hk [_ [Hfn _]]]].
  split.
  - intros r Hin. destruct (Hrels r Hin) as [[r0 [Hin0 He]]|H]; [|exact H].
    destruct (Hr r0 Hin0) as [H1 H2]. inversion He as [[Hfrom Hto]].
    rewrite Hfrom, Hto. split; eauto using hasNode_extends.
  - intros h Hin. destruct (Hlinks h Hin) as [Hin0|H]; [|exact H].
    destruct (Hf h Hin0). auto.
Qed.

Lemma evalQuery_endsExist (now : Z) (R : Type) (query : Query R) (g : Graph) :
  endsExist g -> endsExist (fst (evalQuery now query g)).
Proof.
  intros Hends.
  apply endsExist_grow with (g := g);
    [apply evalQuery_extends | | | exact Hends].
  - intros r Hin.
    destruct query; cbn [evalQuery fst] in Hin |- *;
      try (left; exists r; split; [exact Hin | reflexivity]).
    + unfold evalMergeDependsOn in *.
      destruct (hasProject g projectName) eqn:Hp;
        [|left; exists r; split; [exact Hin | reflexivity]].
      destruct (hasPackage g packageName) eqn:Hk;
        [|left; exists r; split; [exact Hin | reflexivity]].
      cbn [andb fst dependsOn withDependsOn] in Hin |- *.
      apply mergeSet_In_inv in Hin as [[Hin _]|[[a [Hin [_ ->]]]|[_ ->]]].
      * left. exists r. auto.
      * left. exists a. auto.
      * right. cbn [DependsOn.from DependsOn.to hasNode]. auto.
    + unfold evalMergeFile in *.
      destruct (hasProject g projectName); left; exists r; auto.
    + unfold evalLinkPackages in *.
      cbn [fst dependsOn withDependsOn] in Hin |- *.
      destruct (link_fold_appends now (linkRows g) (dependsOn g))
        as [created [Hfold Hall]].
      rewrite Hfold in Hin. apply in_app_or in Hin as [Hin|Hin];
        [left; exists r; auto|].
      right. rewrite Forall_forall in Hall.
      destruct (Hall r Hin) as [row [Hrow ->]].
      pose proof (linkRows_linkable g) as Hlink.
      rewrite Forall_forall in Hlink.
      destruct (Hlink row Hrow) as [_ [Hk [Hsrc _]]].
      destruct Hends as [Hr _].
      split; [exact Hk | apply (Hr _ Hsrc)].
  - intros h Hin.
    destruct query; cbn [evalQuery fst] in Hin |- *; try (now left).
    + unfold evalMergeDependsOn in *.
      destruct (hasProject g projectName && hasPackage g packageName);
        now left.
    + pose proof (evalMergeFile_has now projectName filePath fileName fileType
                                    language g) as Hhas.
      pose proof (evalMergeFile_extends now projectName filePath fileName
                                        fileType language g) as Hext.
      unfold evalMergeFile in *.
      destruct (hasProject g projectName) eqn:Hp; [|now left].
      specialize (Hhas eq_refl). destruct Hhas as [Hfile _].
      cbn [fst hasFile withFile] in Hin.
      unfold mergeOnCreate in Hin.
      destruct (existsb _ (hasFile g)); [now left|].
      apply in_app_or in Hin as [Hin|[<-|[]]]; [now left|].
      right. split; [|exact Hfile].
      destruct Hext as [Ep _]. apply Ep. exact Hp.
Qed.

Lemma load_keepsReachable (client : Neo4jClient) (parsedData : ParsedData.t) :
  keepsReachable (Samples.load client parsedData).
Proof.
  unfold Samples.load. apply bind_keepsReachable.
  - apply buildProjectGraph_keepsReachable.
  - intros _. apply linkPackageDependencies_keepsReachable.
Qed.

Lemma company_reachable : reachable (graph companyBuilt).
Proof.
  assert (H : keepsReachable
                (_ <- Samples.load Samples.healthy Samples.projectA ;;
                 _ <- Samples.load Samples.healthy Samples.projectB ;;
                 _ <- Samples.load Samples.healthy Samples.projectC ;;
                 _ <- Samples.load Samples.healthy Samples.projectD ;;
                 GraphBuilder.buildProjectGraph Samples.healthy Samples.projectE)).
  { repeat (apply bind_keepsReachable; [apply load_keepsReachable | intros _]).
    apply buildProjectGraph_keepsReachable. }
  exact (H Samples.start reachable_empty).
Qed.

(** X1. In every store the program produces, project names, package names
    and file paths are unique, and so are the [DEPENDS_ON] and [HAS_FILE]
    relationships between two nodes: [MERGE] alone keeps them so, whether
    or not the uniqueness constraints were created. *)
Theorem reachable_unique (g : Graph) :
  reachable g -> uniqueNodes g /\ singleRelationships g.
Proof.
  induction 1 as [|R query now g _ [IH1 IH2]].
  - repeat split; constructor.
  - split; [now apply evalQuery_uniqueNodes
           | now apply evalQuery_singleRelationships].
Qed.

Lemma reachable_unique_witness :
  uniqueNodes (graph companyBuilt) /\ singleRelationships (graph companyBuilt).
Proof. apply reachable_unique. apply company_reachable. Defined.

(** X2. In every store the program produces, each relationship joins nodes
    that are in the store: a [DEPENDS_ON] starts at a stored project or
    package and ends at a stored package, a [HAS_FILE] joins a stored
    project and a stored file. *)
Theorem reachable_endsExist (g : Graph) : reachable g -> endsExist g.
Proof.
  induction 1 as [|R query now g _ IH].
  - split; intros ? [].
  - now apply evalQuery_endsExist.
Qed.

Lemma reachable_endsExist_witness : endsExist (graph companyBuilt).
Proof. apply reachable_endsExist. apply company_reachable. Defined.

(* ===================================================================== *)
(** * [linkPackageDependencies] twice *)
(* ===================================================================== *)

Lemma link_fold_preserves (now : Z) (rows : list (string * DependsOn.t))
      (rs : list DependsOn.t) (P : DependsOn.t -> bool) :
  existsb P rs = true -> existsb P (fold_left (linkOne now) rows rs) = true.
Proof.
  intros H. destruct (link_fold_appends now rows rs) as [created [-> _]].
  rewrite existsb_app, H. reflexivity.
Qed.

(** After the fold every row has its package-to-package relationship. *)
Lemma link_fold_joined (now : Z) (rows : list (string * DependsOn.t)) :
  forall (rs : list DependsOn.t) (row : string * DependsOn.t),
    In row rows ->
    existsb (joins (PackageRef (fst row)) (DependsOn.to (snd row)))
            (fold_left (linkOne now) rows rs) = true.
Proof.
  induction rows as [|row0 rows IH]; intros rs row Hin; [contradiction|].
  simpl. destruct Hin as [->|Hin]; [|now apply IH].
  apply link_fold_preserves. unfold linkOne.
  apply mergeOnCreate_established. apply joins_ends. reflexivity.
Qed.

(** Rows that all have their relationship create nothing. *)
Lemma link_fold_fixed (now : Z) (rows : list (string * DependsOn.t))
      (rs : list DependsOn.t) :
  (forall row, In row rows ->
     existsb (joins (PackageRef (fst row)) (DependsOn.to (snd row))) rs = true) ->
  fold_left (linkOne now) rows rs = rs.
Proof.
  induction rows as [|row rows IH]; intros H; [reflexivity|].
  simpl. unfold linkOne at 2, mergeOnCreate.
  rewrite (H row) by now left. apply IH. intros row' Hin. apply H. now right.
Qed.

(** The derived relationships start at packages, so they add no row. *)
Lemma linkRows_after (now : Z) (g : Graph) :
  linkRows (fst (evalLinkPackages now g)) = linkRows g.
Proof.
  unfold linkRows, evalLinkPackages.
  cbn [fst projects packages dependsOn withDependsOn].
  destruct (link_fold_appends now (linkRows g) (dependsOn g))
    as [created [Hfold Hall]].
  fold (linkRows g). rewrite Hfold.
  apply flat_map_ext. intros proj. apply flat_map_ext. intros pkg.
  destruct (String.eqb (Package.name pkg) (Project.name proj)); [|reflexivity].
  f_equal. rewrite filter_app.
  rewrite <- (app_nil_r (filter _ (dependsOn g))) at 2. f_equal.
  clear Hfold. induction created as [|r created IH]; [reflexivity|].
  apply Forall_cons_iff in Hall as [[row [_ ->]] Hall].
  simpl. now apply IH.
Qed.

Lemma evalLinkPackages_again (now now' : Z) (g : Graph) :
  evalLinkPackages now' (fst (evalLinkPackages now g))
  = (fst (evalLinkPackages now g), snd (evalLinkPackages now g)).
Proof.
  unfold evalLinkPackages at 1. rewrite linkRows_after.
  unfold evalLinkPackages.
  cbn [fst snd dependsOn withDependsOn].
  rewrite (link_fold_fixed now' (linkRows g)
             (fold_left (linkOne now) (linkRows g) (dependsOn g)))
    by (intros row Hrow; now apply link_fold_joined).
  reflexivity.
Qed.

(** X3. A second run of [linkPackageDependencies] right after a first one
    changes nothing in the store (later clock, possibly another client) and
    returns the same number of links. *)
Theorem linkPackageDependencies_idempotent
        (client client' : Neo4jClient) (w w1 v w2 : World) (c1 c2 : JsValue) :
  GraphBuilder.linkPackageDependencies client w = (Returned c1, w1) ->
  graph v = graph w1 ->
  GraphBuilder.linkPackageDependencies client' v = (Returned c2, w2) ->
  graph w2 = graph w1 /\ c2 = c1.
Proof.
  unfold GraphBuilder.linkPackageDependencies. rewrite !tryCatch_rethrow.
  intros H1 Hsame H2.
  apply bind_returned in H1 as [rows1 [u1 [Hq1 Hr1]]].
  apply bind_returned in H2 as [rows2 [u2 [Hq2 Hr2]]].
  unfold ret in Hr1, Hr2. inversion Hr1; subst u1 c1.
  inversion Hr2; subst u2 c2.
  apply executeQuery_returned in Hq1 as [-> ->].
  apply executeQuery_returned in Hq2 as [-> ->].
  cbn [evalQuery graph]. rewrite Hsame. cbn [graph evalQuery].
  rewrite evalLinkPackages_again. auto.
Qed.

Lemma linkPackageDependencies_idempotent_witness :
  graph (snd (GraphBuilder.linkPackageDependencies
                Samples.healthy Samples.company))
  = graph Samples.company
  /\ fst (GraphBuilder.linkPackageDependencies Samples.healthy Samples.company)
     = Returned (jsNat 14).
Proof.
  destruct (@linkPackageDependencies_idempotent
              Samples.healthy Samples.healthy
              companyBuilt Samples.company Samples.company
              (snd (GraphBuilder.linkPackageDependencies
                      Samples.healthy Samples.company))
              (jsNat 14) (jsNat 14)) as [Hg Hc].
  - vm_compute. reflexivity.
  - reflexivity.
  - vm_compute. reflexivity.
  - split; [exact Hg | vm_compute; reflexivity].
Defined.

(* ===================================================================== *)
(** * What [_createDependencyNodes] leaves in the store *)
(* ===================================================================== *)

Lemma distinctAcc_seen_equiv (l : list string) :
  forall seen seen' : list string,
    (forall x, In x seen <-> In x seen') ->
    distinctAcc String.eqb seen l = distinctAcc String.eqb seen' l.
Proof.
  induction l as [|x l IH]; intros seen seen' Hsame; [reflexivity|].
  simpl.
  assert (E : existsb (String.eqb x) seen = existsb (String.eqb x) seen').
  { destruct (existsb (String.eqb x) seen) eqn:E1;
      destruct (existsb (String.eqb x) seen') eqn:E2; try reflexivity.
    - apply (@existsb_eqb_In _ _ String.eqb_spec _ _) in E1. apply Hsame in E1.
      apply (@existsb_eqb_In _ _ String.eqb_spec _ _) in E1. congruence.
    - apply (@existsb_eqb_In _ _ String.eqb_spec _ _) in E2. apply Hsame in E2.
      apply (@existsb_eqb_In _ _ String.eqb_spec _ _) in E2. congruence. }
  rewrite E. destruct (existsb (String.eqb x) seen'); [now apply IH|].
  f_equal. apply IH. intros y. simpl. now rewrite Hsame.
Qed.

Lemma hasPackage_names (g : Graph) (n : string) :
  hasPackage g n = existsb (String.eqb n) (map Package.name (packages g)).
Proof.
  unfold hasPackage. induction (packages g) as [|p ps IH]; [reflexivity|].
  simpl. now rewrite IH, (String.eqb_sym n).
Qed.

(** The package names after [MERGE (pkg:Package {name: $name})]. *)
Lemma evalMergePackage_names (now : Z) (name version operator language : string)
      (g : Graph) :
  map Package.name
      (packages (fst (evalMergePackage now name version operator language g)))
  = if hasPackage g name then map Package.name (packages g)
    else (map Package.name (packages g) ++ [name])%list.
Proof.
  unfold evalMergePackage, hasPackage, mergeSet.
  cbn [fst packages withPackages].
  destruct (existsb _ (packages g)).
  - rewrite map_map. apply map_ext_in. intros p _.
    destruct (String.eqb_spec (Package.name p) name); [|reflexivity].
    cbn [Package.name]. congruence.
  - now rewrite map_app.
Qed.

Lemma evalMergeDependsOn_packages (now : Z)
      (projectName packageName versionConstraint type : string)
      (lineNumber : Z) (g : Graph) :
  packages (fst (evalMergeDependsOn now projectName packageName
                                    versionConstraint type lineNumber g))
  = packages g.
Proof.
  unfold evalMergeDependsOn.
  destruct (hasProject g projectName && hasPackage g packageName); reflexivity.
Qed.

Section DependencyLoop.
Variable client : Neo4jClient.
Variable projectName : string.

Lemma createDependencyLoop_packages (dependencies : list Dependency.t) :
  forall (n k : nat) (w w' : World),
    GraphBuilder.createDependencyLoop client projectName dependencies n w
    = (Returned k, w') ->
    k = (n + length dependencies)%nat
    /\ map Package.name (packages (graph w'))
       = (map Package.name (packages (graph w))
          ++ distinctAcc String.eqb (map Package.name (packages (graph w)))
                         (map Dependency.name dependencies))%list.
Proof.
  induction dependencies as [|dep rest IH]; intros n k w w' Hrun.
  - simpl in Hrun. unfold ret in Hrun. inversion Hrun; subst.
    simpl. now rewrite Nat.add_0_r, app_nil_r.
  - cbn [GraphBuilder.createDependencyLoop] in Hrun.
    apply bind_returned in Hrun as [r1 [w1 [Hq1 Hrun]]].
    apply bind_returned in Hrun as [r2 [w2 [Hq2 Hrun]]].
    apply executeQuery_returned in Hq1 as [_ Hw1].
    apply executeQuery_returned in Hq2 as [_ Hw2].
    cbn [evalQuery] in Hw1, Hw2.
    destruct (IH _ _ _ _ Hrun) as [-> Hnames].
    split; [simpl; lia|].
    rewrite Hnames. subst w2. cbn [graph].
    rewrite evalMergeDependsOn_packages. subst w1. cbn [graph].
    rewrite evalMergePackage_names.
    cbn [map distinctAcc]. rewrite <- hasPackage_names.
    destruct (hasPackage (graph w) (Dependency.name dep)); [reflexivity|].
    rewrite <- app_assoc. cbn [app]. do 2 f_equal.
    apply distinctAcc_seen_equiv. intros x.
    rewrite in_app_iff. simpl. tauto.
Qed.

End DependencyLoop.

(** X4. [_createDependencyNodes] returns the number of dependency records
    it was given, a repeated name counted each time, while the store gains
    one Package node per distinct name that it did not hold yet, in order of
    first occurrence. *)
Theorem createDependencyNodes_count_and_packages
        (client : Neo4jClient) (projectName : string)
        (dependencies : list Dependency.t) (w w' : World) (k : nat) :
  GraphBuilder._createDependencyNodes client projectName dependencies w
  = (Returned k, w') ->
  k = length dependencies
  /\ map Package.name (packages (graph w'))
     = (map Package.name (packages (graph w))
        ++ distinctAcc String.eqb (map Package.name (packages (graph w)))
                       (map Dependency.name dependencies))%list.
Proof.
  unfold GraphBuilder._createDependencyNodes. intros Hrun.
  apply createDependencyLoop_packages in Hrun. exact Hrun.
Qed.

Lemma createDependencyNodes_count_and_packages_witness :
  map Package.name
      (packages (graph (snd (GraphBuilder._createDependencyNodes
                               Samples.healthy "app"
                               [Samples.caret "lodash" "4.17.21";
                                Samples.caret "jest" "29.6.1";
                                Samples.caret "lodash" "4.17.0"]
                               Samples.start))))
  = ["lodash"; "jest"].
Proof.
  destruct (@createDependencyNodes_count_and_packages
              Samples.healthy "app"
              [Samples.caret "lodash" "4.17.21"; Samples.caret "jest" "29.6.1";
               Samples.caret "lodash" "4.17.0"]
              Samples.start
              (snd (GraphBuilder._createDependencyNodes
                      Samples.healthy "app"
                      [Samples.caret "lodash" "4.17.21";
                       Samples.caret "jest" "29.6.1";
                       Samples.caret "lodash" "4.17.0"]
                      Samples.start))
              3%nat) as [_ Hnames].
  - vm_compute. reflexivity.
  - rewrite Hnames. vm_compute. reflexivity.
Defined.

(* ===================================================================== *)
(** * The last record of a name wins *)
(* ===================================================================== *)

Lemma lastNamed_none_cons (n : string) (dep : Dependency.t)
      (rest : list Dependency.t) :
  lastNamed n (dep :: rest) = None ->
  String.eqb (Dependency.name dep) n = false /\ lastNamed n rest = None.
Proof.
  simpl. destruct (lastNamed n rest); [discriminate|].
  destruct (String.eqb (Dependency.name dep) n); [discriminate | auto].
Qed.

Lemma untouched_refl (projectName n : string) (g : Graph) :
  untouched projectName n g g.
Proof. split; auto. Qed.

Lemma untouched_trans (projectName n : string) (g1 g2 g3 : Graph) :
  untouched projectName n g1 g2 -> untouched projectName n g2 g3 ->
  untouched projectName n g1 g3.
Proof. intros [A1 A2] [B1 B2]. split; auto. Qed.

Lemma written_untouched (projectName n : string) (dep : Dependency.t)
      (g g' : Graph) :
  written projectName n dep g -> untouched projectName n g g' ->
  written projectName n dep g'.
Proof. intros [A1 A2] [B1 B2]. split; auto. Qed.

Section LastWrite.
Variable client : Neo4jClient.
Variable projectName : string.

(** One round of the loop, for the record [dep]: its two statements leave
    every other name alone and overwrite the own name from [dep]. *)
Lemma round_effect (now1 now2 : Z) (dep : Dependency.t) (n : string)
      (g : Graph) :
  hasProject g projectName = true ->
  let g2 :=
    fst (evalQuery now2
           (MergeDependsOn projectName (Dependency.name dep)
                           (orString (Dependency.versionRange dep)
                                     (Dependency.version dep))
                           (orString (Dependency.type dep) "production")
                           (orZero (Dependency.lineNumber dep)))
           (fst (evalQuery now1
                   (MergePackage (Dependency.name dep) (Dependency.version dep)
                                 (orString (Dependency.operator dep) "")
                                 (orOptString (Dependency.language dep)
                                              "javascript")) g))) in
  if String.eqb (Dependency.name dep) n
  then written projectName n dep g2
  else untouched projectName n g g2.
Proof.
  intros Hp.
  set (g1 := fst (evalQuery now1 _ g)).
  intros g2.
  assert (Hpk : packages g2 = packages g1)
    by apply evalMergeDependsOn_packages.
  assert (Hp1 : hasProject g1 projectName = true)
    by (apply (evalQuery_extends now1 _ g); exact Hp).
  assert (Hk1 : hasPackage g1 (Dependency.name dep) = true)
    by apply evalMergePackage_has.
  assert (Hin1 : forall p, In p (packages g2) ->
            In p (packages g)
            \/ (Package.name p = Dependency.name dep /\ packageWritten dep p)).
  { intros p Hin. rewrite Hpk in Hin. subst g1. cbn [evalQuery] in Hin.
    unfold evalMergePackage in Hin. cbn [fst packages withPackages] in Hin.
    apply mergeSet_In_inv in Hin as [[H _]|[[a [_ [_ ->]]]|[_ ->]]];
      [now left | right | right]; repeat split. }
  assert (Hin2 : forall r, In r (dependsOn g2) ->
            In r (dependsOn g)
            \/ (ends r = (ProjectRef projectName, Dependency.name dep)
                /\ relationshipWritten dep r)).
  { intros r Hin. subst g2. cbn [evalQuery] in Hin.
    unfold evalMergeDependsOn in Hin. rewrite Hp1, Hk1 in Hin.
    cbn [andb fst dependsOn withDependsOn] in Hin.
    change (dependsOn g1) with (dependsOn g) in Hin.
    apply mergeSet_In_inv in Hin as [[H _]|[[a [_ [Ha ->]]]|[_ ->]]];
      [now left | right | right].
    - apply joins_ends in Ha. split; [exact Ha | repeat split].
    - repeat split. }
  destruct (String.eqb_spec (Dependency.name dep) n) as [E|Hne].
  - subst n. split.
    + intros p Hin Hname. rewrite Hpk in Hin. subst g1. cbn [evalQuery] in Hin.
      unfold evalMergePackage in Hin. cbn [fst packages withPackages] in Hin.
      apply mergeSet_In_inv in Hin as [[_ Hm]|[[a [_ [_ ->]]]|[_ ->]]];
        [|repeat split|repeat split].
      apply String.eqb_neq in Hm. contradiction.
    + intros r Hin Hends. subst g2. cbn [evalQuery] in Hin.
      unfold evalMergeDependsOn in Hin. rewrite Hp1, Hk1 in Hin.
      cbn [andb fst dependsOn withDependsOn] in Hin.
      apply mergeSet_In_inv in Hin as [[_ Hm]|[[a [_ [_ ->]]]|[_ ->]]];
        [|repeat split|repeat split].
      apply joins_ends in Hends. congruence.
  - split.
    + intros p Hin Hname.
      destruct (Hin1 p Hin) as [H|[H _]]; [exact H | congruence].
    + intros r Hin Hends.
      destruct (Hin2 r Hin) as [H|[H _]]; [exact H | congruence].
Qed.

Lemma createDependencyLoop_untouched (n : string)
      (dependencies : list Dependency.t) :
  forall (c k : nat) (w w' : World),
    GraphBuilder.createDependencyLoop client projectName dependencies c w
    = (Returned k, w') ->
    hasProject (graph w) projectName = true ->
    lastNamed n dependencies = None ->
    untouched projectName n (graph w) (graph w').
Proof.
  induction dependencies as [|dep rest IH]; intros c k w w' Hrun Hp Hnone.
  - simpl in Hrun. unfold ret in Hrun. inversion Hrun; subst.
    apply untouched_refl.
  - cbn [GraphBuilder.createDependencyLoop] in Hrun.
    apply bind_returned in Hrun as [r1 [w1 [Hq1 Hrun]]].
    apply bind_returned in Hrun as [r2 [w2 [Hq2 Hrun]]].
    apply executeQuery_returned in Hq1 as [_ Hw1].
    apply executeQuery_returned in Hq2 as [_ Hw2].
    apply lastNamed_none_cons in Hnone as [Hne Hnone].
    pose proof (round_effect (clock w) (clock w1) dep n (graph w) Hp) as Hround.
    cbv zeta in Hround. rewrite Hne in Hround.
    assert (Hg2 : graph w2
                  = fst (evalQuery (clock w1)
                           (MergeDependsOn projectName (Dependency.name dep)
                              (orString (Dependency.versionRange dep)
                                        (Dependency.version dep))
                              (orString (Dependency.type dep) "production")
                              (orZero (Dependency.lineNumber dep)))
                           (graph w1))) by (subst w2; reflexivity).
    assert (Hg1 : graph w1
                  = fst (evalQuery (clock w)
                           (MergePackage (Dependency.name dep)
                              (Dependency.version dep)
                              (orString (Dependency.operator dep) "")
                              (orOptString (Dependency.language dep)
                                           "javascript"))
                           (graph w))) by (subst w1; reflexivity).
    rewrite <- Hg1, <- Hg2 in Hround.
    eapply untouched_trans; [exact Hround|].
    eapply IH; [exact Hrun | | exact Hnone].
    rewrite Hg2. apply evalQuery_extends. rewrite Hg1.
    apply evalQuery_extends. exact Hp.
Qed.

Lemma createDependencyLoop_written (n : string) (d : Dependency.t)
      (dependencies : list Dependency.t) :
  forall (c k : nat) (w w' : World),
    GraphBuilder.createDependencyLoop client projectName dependencies c w
    = (Returned k, w') ->
    hasProject (graph w) projectName = true ->
    lastNamed n dependencies = Some d ->
    written projectName n d (graph w').
Proof.
  induction dependencies as [|dep rest IH]; intros c k w w' Hrun Hp Hlast;
    [discriminate|].
  cbn [GraphBuilder.createDependencyLoop] in Hrun.
  apply bind_returned in Hrun as [r1 [w1 [Hq1 Hrun]]].
  apply bind_returned in Hrun as [r2 [w2 [Hq2 Hrun]]].
  apply executeQuery_returned in Hq1 as [_ Hw1].
  apply executeQuery_returned in Hq2 as [_ Hw2].
  pose proof (round_effect (clock w) (clock w1) dep n (graph w) Hp) as Hround.
  cbv zeta in Hround.
  assert (Hg1 : graph w1
                = fst (evalQuery (clock w)
                         (MergePackage (Dependency.name dep)
                            (Dependency.version dep)
                            (orString (Dependency.operator dep) "")
                            (orOptString (Dependency.language dep)
                                         "javascript"))
                         (graph w))) by (subst w1; reflexivity).
  assert (Hg2 : graph w2
                = fst (evalQuery (clock w1)
                         (MergeDependsOn projectName (Dependency.name dep)
                            (orString (Dependency.versionRange dep)
                                      (Dependency.version dep))
                            (orString (Dependency.type dep) "production")
                            (orZero (Dependency.lineNumber dep)))
                         (graph w1))) by (subst w2; reflexivity).
  rewrite <- Hg1, <- Hg2 in Hround.
  assert (Hp2 : hasProject (graph w2) projectName = true).
  { rewrite Hg2. apply evalQuery_extends. rewrite Hg1.
    apply evalQuery_extends. exact Hp. }
  simpl in Hlast. destruct (lastNamed n rest) as [later|] eqn:Hrest.
  - inversion Hlast; subst later. eapply IH; eassumption.
  - destruct (String.eqb (Dependency.name dep) n); [|discriminate].
    inversion Hlast; subst d.
    eapply written_untouched; [exact Hround|].
    eapply createDependencyLoop_untouched; eassumption.
Qed.

End LastWrite.

Lemma buildProjectGraph_written
      (client : Neo4jClient) (parsedData : ParsedData.t) (w w' : World)
      (b : bool) (n : string) (dep : Dependency.t) :
  GraphBuilder.buildProjectGraph client parsedData w = (Returned b, w') ->
  lastNamed n (ParsedData.dependencies parsedData) = Some dep ->
  written (ParsedData.projectName parsedData) n dep (graph w').
Proof.
  unfold GraphBuilder.buildProjectGraph. rewrite tryCatch_rethrow.
  intros Hrun Hlast.
  apply bind_returned in Hrun as [x1 [w1 [H1 Hrun]]].
  apply bind_returned in Hrun as [x2 [w2 [H2 Hrun]]].
  apply bind_returned in Hrun as [x3 [w3 [H3 Hrun]]].
  unfold ret in Hrun. inversion Hrun; subst w3 b.
  unfold GraphBuilder._createProjectNode in H1.
  apply bind_returned in H1 as [r1 [v1 [Hq1 Hr1]]].
  unfold ret in Hr1. inversion Hr1; subst v1.
  apply executeQuery_returned in Hq1 as [_ Hw1]. cbn [evalQuery] in Hw1.
  unfold GraphBuilder._createFileNode in H3.
  apply bind_returned in H3 as [r3 [v3 [Hq3 Hr3]]].
  unfold ret in Hr3. inversion Hr3; subst v3.
  apply executeQuery_returned in Hq3 as [_ Hw3]. cbn [evalQuery] in Hw3.
  assert (P1 : hasProject (graph w1) (ParsedData.projectName parsedData) = true)
    by (subst w1; apply evalMergeProject_has).
  pose proof (@createDependencyLoop_written client _ n dep _ _ _ _ _ H2 P1 Hlast)
    as [Hpk Hrel].
  assert (Hsame : packages (graph w') = packages (graph w2)
                  /\ dependsOn (graph w') = dependsOn (graph w2)).
  { subst w'. cbn [graph]. unfold evalMergeFile.
    destruct (hasProject (graph w2) (ParsedData.projectName parsedData));
      split; reflexivity. }
  unfold written. destruct Hsame as [-> ->]. split; assumption.
Qed.

(** X5. Last write wins.  After a run of [buildProjectGraph] that returned,
    every Package node named [n] carries the version, operator and language
    of the last dependency record named [n], and every relationship from
    the project to [n] carries that record's constraint, type and line
    number; what earlier records of the same name set is overwritten. *)
Theorem buildProjectGraph_last_record_wins
        (client : Neo4jClient) (parsedData : ParsedData.t) (w w' : World)
        (b : bool) (n : string) (dep : Dependency.t) :
  GraphBuilder.buildProjectGraph client parsedData w = (Returned b, w') ->
  lastNamed n (ParsedData.dependencies parsedData) = Some dep ->
  (forall p, In p (packages (graph w')) -> Package.name p = n ->
             packageWritten dep p)
  /\ (forall r, In r (dependsOn (graph w')) ->
                ends r = (ProjectRef (ParsedData.projectName parsedData), n) ->
                relationshipWritten dep r).
Proof.
  intros Hrun Hlast. exact (buildProjectGraph_written _ _ _ _ Hrun Hlast).
Qed.

Lemma buildProjectGraph_last_record_wins_witness :
  In (Package.mk "lodash" "4.17.0" "^" "javascript" 5)
     (packages (graph builtTwice))
  /\ packageWritten (Samples.caret "lodash" "4.17.0")
                    (Package.mk "lodash" "4.17.0" "^" "javascript" 5).
Proof.
  assert (Hin : In (Package.mk "lodash" "4.17.0" "^" "javascript" 5)
                   (packages (graph builtTwice)))
    by (vm_compute; auto).
  split; [exact Hin|].
  apply (proj1 (@buildProjectGraph_last_record_wins
                  Samples.healthy Samples.twice Samples.start builtTwice
                  true "lodash" (Samples.caret "lodash" "4.17.0")
                  ltac:(vm_compute; reflexivity) eq_refl));
    [exact Hin | reflexivity].
Defined.

(** X6. After a run of [buildProjectGraph] that returned, the store holds
    the project, a Package node and a direct relationship from the project
    for every dependency record, the manifest's File node and its
    [HAS_FILE] relationship. *)
Theorem buildProjectGraph_postcondition
        (client : Neo4jClient) (parsedData : ParsedData.t) (w w' : World)
        (b : bool) :
  GraphBuilder.buildProjectGraph client parsedData w = (Returned b, w') ->
  b = true
  /\ hasProject (graph w') (ParsedData.projectName parsedData) = true
  /\ (forall dep, In dep (ParsedData.dependencies parsedData) ->
        hasPackage (graph w') (Dependency.name dep) = true
        /\ hasRelationship (graph w')
                           (ProjectRef (ParsedData.projectName parsedData))
                           (Dependency.name dep) = true)
  /\ hasFileNode (graph w') (ParsedData.dependencyFile parsedData) = true
  /\ hasLink (graph w') (ParsedData.projectName parsedData)
             (ParsedData.dependencyFile parsedData) = true.
Proof.
  intros Hrun.
  assert (Hb : b = true).
  { revert Hrun. unfold GraphBuilder.buildProjectGraph.
    rewrite tryCatch_rethrow. intros Hrun.
    apply bind_returned in Hrun as [x1 [w1 [_ Hrun]]].
    apply bind_returned in Hrun as [x2 [w2 [_ Hrun]]].
    apply bind_returned in Hrun as [x3 [w3 [_ Hrun]]].
    unfold ret in Hrun. now inversion Hrun. }
  apply buildProjectGraph_establishes in Hrun.
  destruct Hrun as [Hp [Hall [Hf Hl]]].
  rewrite Forall_forall in Hall. auto 10.
Qed.

Lemma buildProjectGraph_postcondition_witness :
  hasRelationship (graph Samples.builtA) (ProjectRef "authService") "express"
  = true.
Proof.
  destruct (@buildProjectGraph_postcondition
              Samples.healthy Samples.projectA Samples.start Samples.builtA true)
    as [_ [_ [Hall _]]].
  - vm_compute. reflexivity.
  - apply (Hall (Samples.caret "express" "4.18.0")). simpl. auto.
Defined.


(* ===================================================================== *)
(** * The remaining statements *)
(* ===================================================================== *)

Lemma executeStatement_returned (deployment : Deployment) (R : Type)
      (statement : Statement R) (w w' : World) (rows : list R) :
  executeStatement deployment statement w = (Returned rows, w') ->
  rows = snd (evalStatement statement (graph w))
  /\ graph w' = fst (evalStatement statement (graph w))
  /\ clock w' = clock w + 1.
Proof.
  unfold executeStatement.
  destruct (statementFailure deployment (clock w) statement); [discriminate|].
  destruct (evalStatement statement (graph w)) as [g rows0].
  intros H. inversion H; subst. simpl. auto.
Qed.

Lemma executeStatement_dependable (deployment : Deployment) (R : Type)
      (statement : Statement R) (w : World) :
  dependable deployment ->
  executeStatement deployment statement w
  = (Returned (snd (evalStatement statement (graph w))),
     mkWorld (fst (evalStatement statement (graph w))) (clock w + 1)).
Proof.
  intros H. unfold executeStatement. rewrite H.
  destruct (evalStatement statement (graph w)); reflexivity.
Qed.

(** The stores of the program are well formed. *)
Lemma reachable_wellformed (g : Graph) :
  reachable g -> uniqueNodes g /\ singleRelationships g /\ endsExist g.
Proof.
  induction 1 as [|R query now g _ [IH1 [IH2 IH3]]].
  - split; [|split];
      [repeat split; constructor | constructor | split; intros ? []].
  - split; [|split];
      [now apply evalQuery_uniqueNodes
      | now apply evalQuery_singleRelationships
      | now apply evalQuery_endsExist].
Qed.

Section Orders.
Variable A : Type.

Lemma insertBy_Permutation (key : A -> string) (x : A) (l : list A) :
  Permutation (x :: l) (insertBy key x l).
Proof.
  induction l as [|y l IH]; simpl; [reflexivity|].
  destruct (String.leb (key x) (key y)); [reflexivity|].
  etransitivity; [apply perm_swap|]. now apply perm_skip.
Qed.

Lemma orderBy_Permutation (key : A -> string) (l : list A) :
  Permutation l (orderBy key l).
Proof.
  induction l as [|x l IH]; simpl; [reflexivity|].
  etransitivity; [apply perm_skip, IH|]. apply insertBy_Permutation.
Qed.

Variable count : A -> nat.

Lemma insertDescending_Permutation (x : A) (l : list A) :
  Permutation (x :: l) (insertDescending count x l).
Proof.
  induction l as [|y l IH]; simpl; [reflexivity|].
  destruct (count y <=? count x)%nat; [reflexivity|].
  etransitivity; [apply perm_swap|]. now apply perm_skip.
Qed.

Lemma orderDescending_Permutation (l : list A) :
  Permutation l (orderDescending count l).
Proof.
  induction l as [|x l IH]; simpl; [reflexivity|].
  etransitivity; [apply perm_skip, IH|]. apply insertDescending_Permutation.
Qed.

Lemma insertDescending_descending (x : A) (l : list A) :
  descending count l -> descending count (insertDescending count x l).
Proof.
  unfold descending. induction l as [|y l IH]; simpl; intros H.
  - constructor; constructor.
  - apply StronglySorted_inv in H as [Hl Hy].
    destruct (Nat.leb_spec (count y) (count x)) as [E|E].
    + constructor; [constructor; assumption|].
      constructor; [assumption|].
      eapply Forall_impl; [|exact Hy]. simpl. intros z Hz. lia.
    + constructor; [auto|].
      eapply Permutation_Forall; [apply insertDescending_Permutation|].
      constructor; [lia | assumption].
Qed.

Lemma orderDescending_descending (l : list A) :
  descending count (orderDescending count l).
Proof.
  induction l as [|x l IH]; simpl; [constructor|].
  now apply insertDescending_descending.
Qed.

Lemma insertAscending_Permutation (x : A) (l : list A) :
  Permutation (x :: l) (insertAscending count x l).
Proof.
  induction l as [|y l IH]; simpl; [reflexivity|].
  destruct (count x <=? count y)%nat; [reflexivity|].
  etransitivity; [apply perm_swap|]. now apply perm_skip.
Qed.

Lemma orderAscending_Permutation (l : list A) :
  Permutation l (orderAscending count l).
Proof.
  induction l as [|x l IH]; simpl; [reflexivity|].
  etransitivity; [apply perm_skip, IH|]. apply insertAscending_Permutation.
Qed.

Lemma insertAscending_ascending (x : A) (l : list A) :
  ascending count l -> ascending count (insertAscending count x l).
Proof.
  unfold ascending. induction l as [|y l IH]; simpl; intros H.
  - constructor; constructor.
  - apply StronglySorted_inv in H as [Hl Hy].
    destruct (Nat.leb_spec (count x) (count y)) as [E|E].
    + constructor; [constructor; assumption|].
      constructor; [assumption|].
      eapply Forall_impl; [|exact Hy]. simpl. intros z Hz. lia.
    + constructor; [auto|].
      eapply Permutation_Forall; [apply insertAscending_Permutation|].
      constructor; [lia | assumption].
Qed.

Lemma orderAscending_ascending (l : list A) :
  ascending count (orderAscending count l).
Proof.
  induction l as [|x l IH]; simpl; [constructor|].
  now apply insertAscending_ascending.
Qed.

End Orders.

(** A key that is unique in the list selects one element. *)
Lemma filter_key_one (A : Type) (key : A -> string) (n : string) (l : list A) :
  NoDup (map key l) ->
  existsb (fun a => String.eqb (key a) n) l = true ->
  exists a, filter (fun a => String.eqb (key a) n) l = [a]
            /\ key a = n /\ In a l.
Proof.
  induction l as [|x l IH]; simpl; intros Hnd Hex; [discriminate|].
  apply NoDup_cons_iff in Hnd as [Hx Hl].
  destruct (String.eqb_spec (key x) n) as [E|E].
  - exists x. split; [|auto]. f_equal.
    clear IH Hex Hl. induction l as [|y l IH]; simpl; [reflexivity|].
    destruct (String.eqb_spec (key y) n) as [E'|E'].
    + exfalso. apply Hx. left. congruence.
    + apply IH. intros H. apply Hx. now right.
  - simpl in Hex. destruct (IH Hl Hex) as [a [H1 [H2 H3]]]. exists a. auto.
Qed.

Lemma flat_map_singletons (A B : Type) (f : A -> list B) (h : A -> B)
      (l : list A) :
  (forall x, In x l -> f x = [h x]) -> flat_map f l = map h l.
Proof.
  induction l as [|x l IH]; simpl; intros H; [reflexivity|].
  rewrite (H x) by now left. simpl. f_equal. apply IH.
  intros y Hy. apply H. now right.
Qed.

Lemma relationshipsOf_In (g : Graph) (projectName : string) (r : DependsOn.t) :
  In r (relationshipsOf g projectName)
  <-> In r (dependsOn g) /\ DependsOn.from r = ProjectRef projectName.
Proof.
  unfold relationshipsOf. rewrite filter_In, NodeRef_eqb_eq. tauto.
Qed.

(** A project has at most one relationship to a package. *)
Lemma relationshipsOf_NoDup (g : Graph) (projectName : string) :
  singleRelationships g ->
  NoDup (map DependsOn.to (relationshipsOf g projectName)).
Proof.
  intros H. apply NoDup_map_finer with (f := ends).
  - unfold relationshipsOf. now apply NoDup_map_filter.
  - intros x y Hx Hy E.
    apply relationshipsOf_In in Hx as [_ Hx].
    apply relationshipsOf_In in Hy as [_ Hy].
    unfold ends. congruence.
Qed.

(** X7. In a store the program produced, [getProjectDependencies] returns
    one row for each relationship of the project, in ascending order of the
    package name and with no package twice; the row of a relationship
    carries the relationship's constraint, type and line number. *)
Theorem getProjectDependencies_rows (deployment : Deployment)
        (projectName : string) (w w' : World) (rows : list DependencyRow.t) :
  reachable (graph w) ->
  GraphBuilderReads.getProjectDependencies deployment projectName w
  = (Returned rows, w') ->
  ordered DependencyRow.name rows
  /\ NoDup (map DependencyRow.name rows)
  /\ length rows = length (relationshipsOf (graph w) projectName)
  /\ forall r, In r (relationshipsOf (graph w) projectName) ->
       exists row, In row rows
                   /\ DependencyRow.name row = DependsOn.to r
                   /\ DependencyRow.constraint row = DependsOn.versionConstraint r
                   /\ DependencyRow.type row = DependsOn.type r
                   /\ DependencyRow.lineNumber row
                      = numberProperty (DependsOn.lineNumber r).
Proof.
  intros Hreach Hcall.
  apply executeStatement_returned in Hcall as [-> _].
  cbn [evalStatement snd]. unfold evalProjectDependencies.
  destruct (reachable_wellformed Hreach) as [[_ [Hk _]] [Hs [He _]]].
  set (g := graph w) in *.
  set (rels := relationshipsOf g projectName).
  set (h := fun r =>
              DependencyRow.mk (DependsOn.to r)
                (match packagesNamed g (DependsOn.to r) with
                 | pkg :: _ => Package.version pkg
                 | [] => ""
                 end)
                (DependsOn.versionConstraint r) (DependsOn.type r)
                (numberProperty (DependsOn.lineNumber r))).
  assert (Hflat :
            flat_map (fun r =>
              map (fun pkg =>
                     DependencyRow.mk (Package.name pkg) (Package.version pkg)
                                      (DependsOn.versionConstraint r)
                                      (DependsOn.type r)
                                      (numberProperty (DependsOn.lineNumber r)))
                  (packagesNamed g (DependsOn.to r))) rels
            = map h rels).
  { apply flat_map_singletons. intros r Hr.
    apply relationshipsOf_In in Hr as [Hr _].
    destruct (He r Hr) as [_ Hto].
    destruct (filter_key_one Package.name (DependsOn.to r) (packages g) Hk Hto)
      as [pkg [Hone [Hname _]]].
    unfold h, packagesNamed. rewrite Hone. simpl. now rewrite Hname. }
  rewrite Hflat.
  pose proof (orderBy_Permutation DependencyRow.name (map h rels)) as Hperm.
  split; [apply orderBy_ordered|]. split; [|split].
  - eapply Permutation_NoDup; [apply Permutation_map, Hperm|].
    rewrite map_map. cbn [h DependencyRow.name].
    now apply relationshipsOf_NoDup.
  - rewrite <- (Permutation_length Hperm). apply length_map.
  - intros r Hr. exists (h r). split; [|repeat split].
    eapply Permutation_in; [exact Hperm|]. now apply in_map.
Qed.

Lemma builtA_reachable : reachable (graph Samples.builtA).
Proof.
  apply (@buildProjectGraph_keepsReachable Samples.healthy Samples.projectA
                                           Samples.start).
  constructor.
Qed.

Lemma sound_dependable : dependable sound.
Proof. intros now R statement. reflexivity. Qed.

Lemma getProjectDependencies_rows_witness :
  ordered DependencyRow.name
          (evalProjectDependencies "authService" (graph Samples.builtA)).
Proof.
  destruct (@getProjectDependencies_rows
              sound "authService" Samples.builtA
              (snd (GraphBuilderReads.getProjectDependencies
                      sound "authService" Samples.builtA))
              (evalProjectDependencies "authService" (graph Samples.builtA))
              builtA_reachable) as [Hordered _].
  - vm_compute. reflexivity.
  - exact Hordered.
Defined.


(* ===================================================================== *)
(** * [getDependencyStats] *)
(* ===================================================================== *)

Section Assignments.
Variables (R : Type) (key : R -> string) (value : R -> JsValue).

(** [rows.forEach(row => { object[key(row)] = value(row); })] *)
Lemma forEach_assignments (rows : list R) (object : JsObject) :
  fold_left (fun stats row => setProperty (key row) (value row) stats)
            rows object
  = (object ++ map (fun row => (key row, value row)) rows)%list.
Proof.
  revert object. induction rows as [|row rows IH]; intros object; simpl.
  - now rewrite app_nil_r.
  - rewrite IH. unfold setProperty. now rewrite <- app_assoc.
Qed.

Lemma lastAssigned_other (rows : list R) (other : string) :
  ~ In other (map key rows) ->
  lastAssigned (map (fun row => (key row, value row)) rows) other = None.
Proof.
  induction rows as [|row rows IH]; simpl; intros H; [reflexivity|].
  rewrite IH by tauto.
  destruct (String.eqb_spec (key row) other) as [E|_]; [|reflexivity].
  exfalso. apply H. now left.
Qed.

Lemma lastAssigned_row (rows : list R) (row : R) :
  NoDup (map key rows) -> In row rows ->
  lastAssigned (map (fun row => (key row, value row)) rows) (key row)
  = Some (value row).
Proof.
  induction rows as [|first rows IH]; simpl; intros Hnd Hin; [contradiction|].
  apply NoDup_cons_iff in Hnd as [Hfirst Hnd].
  destruct Hin as [->|Hin].
  - rewrite lastAssigned_other by assumption. now rewrite String.eqb_refl.
  - now rewrite IH.
Qed.

Lemma replacesPrototype_none (rows : list R) :
  ~ In "__proto__" (map key rows) ->
  existsb replacesPrototype (map (fun row => (key row, value row)) rows)
  = false.
Proof.
  induction rows as [|row rows IH]; simpl; intros H; [reflexivity|].
  rewrite IH by tauto. unfold replacesPrototype. cbn [fst snd].
  destruct (String.eqb_spec (key row) "__proto__") as [E|_]; [|reflexivity].
  exfalso. apply H. now left.
Qed.

End Assignments.

(** X8. When no relationship of the project has the type [__proto__],
    reading [stats[type]] on the object [getDependencyStats] returns
    yields, for a type the project's relationships use, their number as a
    driver [Integer]; for any other name it yields the member of
    [Object.prototype] of that name when there is one ([constructor],
    [toString], ...), and [undefined] otherwise, never zero. *)
Theorem getDependencyStats_counts (deployment : Deployment)
        (projectName : string) (w w' : World) (stats : JsObject) :
  GraphBuilderReads.getDependencyStats deployment projectName w
  = (Returned stats, w') ->
  forallb (fun r => negb (String.eqb (DependsOn.type r) "__proto__"))
          (relationshipsOf (graph w) projectName) = true ->
  forall type : string,
    getProperty stats type
    = match length (filter (fun r => String.eqb (DependsOn.type r) type)
                           (relationshipsOf (graph w) projectName)) with
      | S n => Own (JsInteger (Z.of_nat (S n)))
      | O => if existsb (String.eqb type) objectPrototypeMembers
             then Inherited type else Undefined
      end.
Proof.
  intros Hcall Hplain type.
  unfold GraphBuilderReads.getDependencyStats in Hcall.
  apply bind_returned in Hcall as [results [w0 [Hrun Hret]]].
  apply executeStatement_returned in Hrun as [-> _].
  unfold ret in Hret.
  match type of Hret with
  | (Returned ?x, _) = _ => assert (Hstats : stats = x) by congruence
  end.
  clear Hret. subst stats.
  cbn [evalStatement snd]. unfold evalDependencyStats.
  rewrite forEach_assignments. cbn [app].
  set (rels := relationshipsOf (graph w) projectName) in *.
  set (mk := fun t =>
               TypeCount.mk t
                 (JsInteger
                    (Z.of_nat
                       (length (filter (fun r => String.eqb (DependsOn.type r) t)
                                       rels))))).
  set (types := distinct String.eqb (map DependsOn.type rels)).
  pose proof (orderBy_Permutation TypeCount.type (map mk types)) as Hperm.
  assert (Hkey : forall t,
             In t (map TypeCount.type (orderBy TypeCount.type (map mk types)))
             <-> In t (map DependsOn.type rels)).
  { intros t. split; intros H.
    - eapply Permutation_in in H; [|symmetry; apply Permutation_map, Hperm].
      rewrite map_map in H. cbn [mk TypeCount.type] in H. rewrite map_id in H.
      exact (proj1 (@distinct_In _ _ String.eqb_spec _ _) H).
    - eapply Permutation_in; [apply Permutation_map, Hperm|].
      rewrite map_map. cbn [mk TypeCount.type]. rewrite map_id.
      exact (proj2 (@distinct_In _ _ String.eqb_spec _ _) H). }
  assert (Hkeys : NoDup (map TypeCount.type
                             (orderBy TypeCount.type (map mk types)))).
  { eapply Permutation_NoDup; [apply Permutation_map, Hperm|].
    rewrite map_map. cbn [mk TypeCount.type]. rewrite map_id.
    apply (@distinct_NoDup _ _ String.eqb_spec). }
  assert (Hused : forall t,
             In t (map DependsOn.type rels)
             <-> filter (fun r => String.eqb (DependsOn.type r) t) rels <> []).
  { intros t. split.
    - intros H E. apply in_map_iff in H as [r [Hr Hin]].
      assert (Hf : In r (filter (fun r0 => String.eqb (DependsOn.type r0) t)
                                rels))
        by (apply filter_In; split; [assumption | now apply String.eqb_eq]).
      rewrite E in Hf. exact Hf.
    - intros H.
      destruct (filter (fun r => String.eqb (DependsOn.type r) t) rels)
        as [|r l] eqn:E; [congruence|].
      assert (Hf : In r (filter (fun r0 => String.eqb (DependsOn.type r0) t)
                                rels)) by (rewrite E; now left).
      apply filter_In in Hf as [H1 H2]. apply String.eqb_eq in H2.
      rewrite <- H2. now apply in_map. }
  assert (Hproto : ~ In "__proto__" (map DependsOn.type rels)).
  { intros H. apply in_map_iff in H as [r [Hr Hin]].
    pose proof (proj1 (forallb_forall _ _) Hplain r Hin) as Hne.
    cbv beta in Hne. rewrite Hr in Hne. discriminate. }
  unfold getProperty.
  rewrite replacesPrototype_none by (rewrite Hkey; exact Hproto).
  destruct (String.eqb_spec type "__proto__") as [->|Hother].
  - destruct (filter (fun r => String.eqb (DependsOn.type r) "__proto__") rels)
      as [|r l] eqn:E; [reflexivity|].
    exfalso. apply Hproto, Hused. rewrite E. discriminate.
  - destruct (in_dec string_dec type (map DependsOn.type rels)) as [Hin|Hout].
    + assert (Hrow : In (mk type) (orderBy TypeCount.type (map mk types))).
      { eapply Permutation_in; [exact Hperm|]. apply in_map.
        exact (proj2 (@distinct_In _ _ String.eqb_spec _ _) Hin). }
      pose proof (@lastAssigned_row _ TypeCount.type TypeCount.count _ _
                                    Hkeys Hrow) as Hget.
      cbn [mk TypeCount.type TypeCount.count] in Hget. rewrite Hget.
      apply Hused in Hin.
      destruct (filter (fun r => String.eqb (DependsOn.type r) type) rels);
        [congruence | reflexivity].
    + rewrite (@lastAssigned_other _ TypeCount.type TypeCount.count)
        by (rewrite Hkey; exact Hout).
      destruct (filter (fun r => String.eqb (DependsOn.type r) type) rels)
        as [|r l] eqn:E; [reflexivity|].
      exfalso. apply Hout, Hused. rewrite E. discriminate.
Qed.

Lemma getDependencyStats_counts_witness :
  getProperty
    (fold_left (fun stats row =>
                  setProperty (TypeCount.type row) (TypeCount.count row) stats)
               (evalDependencyStats "authService" (graph Samples.builtA)) [])
    "production"
  = Own (JsInteger 4)
  /\ getProperty
       (fold_left (fun stats row =>
                     setProperty (TypeCount.type row) (TypeCount.count row) stats)
                  (evalDependencyStats "authService" (graph Samples.builtA)) [])
       "constructor"
     = Inherited "constructor".
Proof.
  pose proof (@getDependencyStats_counts
                sound "authService" Samples.builtA
                (snd (GraphBuilderReads.getDependencyStats
                        sound "authService" Samples.builtA))
                (fold_left (fun stats row =>
                              setProperty (TypeCount.type row)
                                          (TypeCount.count row) stats)
                           (evalDependencyStats "authService"
                                                (graph Samples.builtA))
                           [])
                ltac:(vm_compute; reflexivity)
                ltac:(vm_compute; reflexivity)) as Hread.
  split; rewrite Hread; vm_compute; reflexivity.
Defined.

(* ===================================================================== *)
(** * [findSharedDependencies] *)
(* ===================================================================== *)

Lemma groupByPackage_iff (rows : list DependsOn.t)
      (kv : string * list DependsOn.t) :
  In kv (groupByPackage rows)
  <-> In (fst kv) (map DependsOn.to rows)
      /\ snd kv = filter (fun r => String.eqb (DependsOn.to r) (fst kv)) rows.
Proof.
  unfold groupByPackage. rewrite in_map_iff. split.
  - intros [k [<- Hk]]. simpl.
    apply (proj1 (@distinct_In _ _ String.eqb_spec _ _)) in Hk. auto.
  - intros [Hk Hsnd]. exists (fst kv). split.
    + destruct kv as [k rs]. simpl in *. now rewrite Hsnd.
    + now apply (@distinct_In _ _ String.eqb_spec).
Qed.

Lemma descending_map (A B : Type) (f : A -> B) (count : B -> nat)
      (l : list A) :
  descending (fun a => count (f a)) l -> descending count (map f l).
Proof.
  unfold descending. induction 1 as [|x l Hl IH Hx]; simpl; constructor.
  - exact IH.
  - apply Forall_map. exact Hx.
Qed.

Lemma descending_ext (A : Type) (count count' : A -> nat) (l : list A) :
  (forall x, count x = count' x) -> descending count l -> descending count' l.
Proof.
  intros E. unfold descending. induction 1 as [|x l Hl IH Hx]; constructor.
  - exact IH.
  - eapply Forall_impl; [|exact Hx]. simpl. intros y. now rewrite !E.
Qed.

(** X9. In a store the program produced, [findSharedDependencies] lists a
    package exactly when more than one project depends on it; a row names
    those projects, counts them in [usageCount], and the rows come in
    descending order of that count. *)
Theorem findSharedDependencies_rows (deployment : Deployment) (w w' : World)
        (rows : list SharedDependency.t) :
  reachable (graph w) ->
  GraphBuilderReads.findSharedDependencies deployment w = (Returned rows, w') ->
  (forall k : string,
      (exists row, In row rows /\ SharedDependency.package row = k)
      <-> (1 < length (dependents (graph w) k))%nat)
  /\ (forall row, In row rows ->
        SharedDependency.projects row
        = map fromName (dependents (graph w) (SharedDependency.package row))
        /\ SharedDependency.usageCount row
           = JsInteger (Z.of_nat (length (SharedDependency.projects row))))
  /\ descending (fun row => length (SharedDependency.projects row)) rows.
Proof.
  intros Hreach Hcall.
  apply executeStatement_returned in Hcall as [-> _].
  cbn [evalStatement snd]. unfold evalSharedDependencies.
  destruct (reachable_wellformed Hreach) as [_ [_ [He _]]].
  set (g := graph w) in *.
  set (joined := flat_map (fun kv => map (fun pkg => (pkg, snd kv))
                                         (packagesNamed g (fst kv)))
                          (groupByPackage (projectRows g))).
  set (count := fun kv : Package.t * list DependsOn.t => length (snd kv)).
  set (big := fun kv : Package.t * list DependsOn.t =>
                (1 <? length (snd kv))%nat).
  pose proof (orderDescending_Permutation count (filter big joined)) as Hperm.
  assert (Hjoined : forall kv, In kv joined
                    <-> In (fst kv) (packages g)
                        /\ In (Package.name (fst kv))
                              (map DependsOn.to (projectRows g))
                        /\ snd kv = dependents g (Package.name (fst kv))).
  { intros [pkg rs]. unfold joined. rewrite in_flat_map. simpl. split.
    - intros [[k rs0] [Hgroup Hin]]. simpl in Hin.
      apply in_map_iff in Hin as [pkg0 [E Hpkg]]. inversion E; subst.
      apply filter_In in Hpkg as [Hpkg Hname]. apply String.eqb_eq in Hname.
      apply groupByPackage_iff in Hgroup as [Hk Hrs]. simpl in Hk, Hrs.
      subst k. auto.
    - intros [Hpkg [Hk Hrs]]. exists (Package.name pkg, rs). split.
      + apply groupByPackage_iff. simpl. split; [assumption | exact Hrs].
      + simpl. apply in_map_iff. exists pkg. split; [reflexivity|].
        apply filter_In. split; [assumption | apply String.eqb_refl]. }
  split; [|split].
  - intros k. split.
    + intros [row [Hrow Hk]].
      apply in_map_iff in Hrow as [[pkg rs] [<- Hin]]. simpl in Hk. subst k.
      eapply Permutation_in in Hin; [|symmetry; exact Hperm].
      apply filter_In in Hin as [Hin Hbig].
      apply Hjoined in Hin as [_ [_ Hrs]]. simpl in Hrs.
      unfold big in Hbig. simpl in Hbig. apply Nat.ltb_lt in Hbig.
      now rewrite <- Hrs.
    + intros Hlen.
      assert (Hsome : exists r, In r (dependents g k)).
      { destruct (dependents g k) as [|r l]; [simpl in Hlen; lia|].
        exists r. now left. }
      destruct Hsome as [r Hr].
      pose proof Hr as Hr'. unfold dependents in Hr'.
      apply filter_In in Hr' as [Hrow Hto]. apply String.eqb_eq in Hto.
      assert (Hstored : In r (dependsOn g)).
      { unfold projectRows in Hrow. now apply filter_In in Hrow as [Hrow _]. }
      destruct (He r Hstored) as [_ Hpkg]. rewrite Hto in Hpkg.
      apply hasPackage_In in Hpkg. apply in_map_iff in Hpkg as [pkg [Hname Hpkg]].
      exists (SharedDependency.mk (Package.name pkg) (Package.version pkg)
                (JsInteger (Z.of_nat (length (dependents g k))))
                (map fromName (dependents g k))).
      split; [|exact Hname].
      apply in_map_iff. exists (pkg, dependents g k). split; [reflexivity|].
      eapply Permutation_in; [exact Hperm|].
      apply filter_In. split.
      * apply Hjoined. simpl. rewrite Hname. repeat split; [assumption|].
        rewrite <- Hto. now apply in_map.
      * unfold big. simpl. now apply Nat.ltb_lt.
  - intros row Hrow.
    apply in_map_iff in Hrow as [[pkg rs] [<- Hin]]. simpl.
    eapply Permutation_in in Hin; [|symmetry; exact Hperm].
    apply filter_In in Hin as [Hin _].
    apply Hjoined in Hin as [_ [_ Hrs]]. simpl in Hrs. subst rs.
    split; [reflexivity|]. now rewrite length_map.
  - apply descending_map. cbn [SharedDependency.projects].
    apply (@descending_ext _ count);
      [intros kv; now rewrite length_map | apply orderDescending_descending].
Qed.

Lemma findSharedDependencies_rows_witness :
  descending (fun row => length (SharedDependency.projects row))
             (evalSharedDependencies (graph companyBuilt)).
Proof.
  destruct (@findSharedDependencies_rows
              sound companyBuilt
              (snd (GraphBuilderReads.findSharedDependencies sound companyBuilt))
              (evalSharedDependencies (graph companyBuilt))
              company_reachable) as [_ [_ Hdescending]].
  - vm_compute. reflexivity.
  - exact Hdescending.
Defined.


(* ===================================================================== *)
(** * The methods of [Neo4jClient] *)
(* ===================================================================== *)

Lemma unwrapCount_reported (n : nat) :
  Z.of_nat n < 2 ^ 31 -> unwrapCount (countRow n) = reportedCount n.
Proof.
  intros Hn. unfold unwrapCount, countRow, reportedCount, low32.
  cbn [CountRow.count].
  rewrite Z.mod_small by lia.
  destruct (Z.ltb_spec (Z.of_nat n) (2 ^ 31)) as [_|H]; [|lia].
  destruct n as [|n]; [reflexivity|].
  destruct (Z.eqb_spec (Z.of_nat (S n)) 0) as [E|_]; [lia | reflexivity].
Qed.

(** X10. On a store with fewer than 2^31 nodes of each label and
    relationships, [getStats] reports the four sizes of the store; a size of
    zero is reported as the driver's [Integer] object, any other as a
    number.  The store is left as it is. *)
Theorem getStats_counts (deployment : Deployment) (w w' : World)
        (stats : DatabaseStats.t) :
  small (graph w) ->
  Neo4jClientMethods.getStats deployment w = (Returned stats, w') ->
  stats = DatabaseStats.mk (reportedCount (length (projects (graph w))))
                           (reportedCount (length (packages (graph w))))
                           (reportedCount (length (dependsOn (graph w))))
                           (reportedCount (length (files (graph w))))
  /\ graph w' = graph w.
Proof.
  intros [H1 [H2 [H3 H4]]] Hcall.
  unfold Neo4jClientMethods.getStats in Hcall.
  apply bind_returned in Hcall as [r1 [w1 [Hr1 Hcall]]].
  apply bind_returned in Hcall as [r2 [w2 [Hr2 Hcall]]].
  apply bind_returned in Hcall as [r3 [w3 [Hr3 Hcall]]].
  apply bind_returned in Hcall as [r4 [w4 [Hr4 Hcall]]].
  apply executeStatement_returned in Hr1 as [-> [G1 _]].
  apply executeStatement_returned in Hr2 as [-> [G2 _]].
  apply executeStatement_returned in Hr3 as [-> [G3 _]].
  apply executeStatement_returned in Hr4 as [-> [G4 _]].
  cbn [evalStatement fst snd] in *.
  unfold ret in Hcall.
  match type of Hcall with
  | (Returned ?x, _) = _ => assert (Hstats : stats = x) by congruence
  end.
  assert (Hworld : w' = w4) by congruence.
  subst stats w'. rewrite G4, G3, G2, G1. split; [|reflexivity].
  rewrite !unwrapCount_reported by assumption. reflexivity.
Qed.

Lemma getStats_counts_witness :
  fst (Neo4jClientMethods.getStats sound Samples.builtA)
  = Returned (DatabaseStats.mk (jsNat 1) (jsNat 4) (jsNat 4) (jsNat 1)).
Proof.
  destruct (Neo4jClientMethods.getStats sound Samples.builtA)
    as [[stats|message] w'] eqn:E.
  - destruct (@getStats_counts sound Samples.builtA w' stats) as [-> _].
    + vm_compute. repeat split; reflexivity.
    + exact E.
    + vm_compute. reflexivity.
  - vm_compute in E. discriminate.
Defined.

(** X11. [testConnection] returns [false] in every deployment and on every
    store: when the statement fails, from the [catch] block; when it
    succeeds, because the driver returns the [1] of [RETURN 1] as an
    [Integer] object, which [=== 1] never equals. *)
Theorem testConnection_false (deployment : Deployment) (w : World) :
  fst (Neo4jClientMethods.testConnection deployment w) = Returned false.
Proof.
  unfold Neo4jClientMethods.testConnection, tryCatch, bind, executeStatement.
  destruct (statementFailure deployment (clock w) ReturnOne); reflexivity.
Qed.

(** X12. [createConstraints] never throws and never stops early: whichever
    of the three statements fail, all three are sent, the call returns, and
    nodes and relationships are as before. *)
Theorem createConstraints_completes (deployment : Deployment) (w : World) :
  Neo4jClientMethods.createConstraints deployment w
  = (Returned tt, mkWorld (graph w) (clock w + 3)).
Proof.
  unfold Neo4jClientMethods.createConstraints,
    Neo4jClientMethods.createConstraint, tryCatch, bind, executeStatement, ret.
  cbn [evalStatement graph clock].
  destruct (statementFailure deployment (clock w)
                             (CreateConstraint "package_name"));
    cbn [graph clock];
    destruct (statementFailure deployment (clock w + 1)
                               (CreateConstraint "file_path"));
    cbn [graph clock];
    destruct (statementFailure deployment (clock w + 1 + 1)
                               (CreateConstraint "project_name"));
    cbn [graph clock];
    f_equal; f_equal; lia.
Qed.


(* ===================================================================== *)
(** * The cycle listings *)
(* ===================================================================== *)

Lemma combine_seq_lookup (A : Type) (l : list A) :
  forall (s i : nat) (x : A),
    In (i, x) (combine (seq s (length l)) l) ->
    (s <= i)%nat /\ nth_error l (i - s) = Some x.
Proof.
  induction l as [|y l IH]; simpl; intros s i x H; [contradiction|].
  destruct H as [E|H].
  - inversion E; subst. split; [lia|]. now rewrite Nat.sub_diag.
  - apply IH in H as [H1 H2]. split; [lia|].
    replace (i - s)%nat with (S (i - S s)) by lia. exact H2.
Qed.

Lemma combine_seq_In (A : Type) (l : list A) (x : A) :
  forall s : nat,
    In x l -> exists i, In (i, x) (combine (seq s (length l)) l).
Proof.
  induction l as [|y l IH]; simpl; intros s H; [contradiction|].
  destruct H as [->|H].
  - exists s. now left.
  - destruct (IH (S s) H) as [i Hi]. exists i. now right.
Qed.

Lemma indexed_lookup (g : Graph) (i : nat) (r : DependsOn.t) :
  In (i, r) (indexed g) -> nth_error (dependsOn g) i = Some r.
Proof.
  intros H. apply combine_seq_lookup in H as [_ H].
  now rewrite Nat.sub_0_r in H.
Qed.

Lemma indexed_stored (g : Graph) (i : nat) (r : DependsOn.t) :
  In (i, r) (indexed g) -> In r (dependsOn g).
Proof. intros H. eapply nth_error_In, indexed_lookup, H. Qed.

Lemma endOf_indexed (g : Graph) (i : nat) (r : DependsOn.t) :
  In (i, r) (indexed g) -> endOf g i = DependsOn.to r.
Proof. intros H. unfold endOf. now rewrite (indexed_lookup _ _ _ H). Qed.

Lemma chained_cons (g : Graph) (x y : string) (rest : list string) :
  chained g (x :: y :: rest)
  = hasRelationship g (PackageRef x) y && chained g (y :: rest).
Proof. reflexivity. Qed.

Lemma last_cons_map (A B : Type) (f : A -> B) (x : B) (l : list A) (d : B) :
  l <> [] -> last (x :: map f l) d = last (map f l) d.
Proof. destruct l; [congruence | reflexivity]. Qed.

(** A path the search finds walks along stored relationships from its start
    to its target. *)
Lemma trails_walk (g : Graph) (target : string) :
  forall (fuel : nat) (used : list nat) (at_ : string) (path : list nat),
    In path (trails fuel (indexed g) used at_ target) ->
    path <> []
    /\ chained g (at_ :: map (endOf g) path) = true
    /\ last (map (endOf g) path) "" = target.
Proof.
  induction fuel as [|fuel IH]; intros used at_ path H; [contradiction|].
  cbn [trails] in H. apply in_flat_map in H as [[i r] [Hir H]].
  cbn [fst snd] in H.
  destruct (NodeRef_eqb (DependsOn.from r) (PackageRef at_)
            && negb (existsb (Nat.eqb i) used)) eqn:Hstep; [|contradiction].
  apply andb_true_iff in Hstep as [Hfrom _].
  assert (Hrel : hasRelationship g (PackageRef at_) (DependsOn.to r) = true).
  { unfold hasRelationship. apply existsb_exists. exists r.
    split; [eapply indexed_stored, Hir|].
    unfold joins. now rewrite Hfrom, String.eqb_refl. }
  pose proof (endOf_indexed _ _ _ Hir) as Hend.
  apply in_app_or in H as [H|H].
  - destruct (String.eqb_spec (DependsOn.to r) target) as [E|E];
      [|contradiction].
    destruct H as [<-|[]]. cbn [map]. rewrite Hend.
    split; [discriminate|]. split; [|exact E].
    rewrite chained_cons, Hrel. reflexivity.
  - apply in_map_iff in H as [rest [<- H]].
    apply IH in H as [Hne [Hchain Hlast]].
    split; [discriminate|]. cbn [map]. rewrite Hend. split.
    + rewrite chained_cons, Hrel. exact Hchain.
    + now rewrite last_cons_map.
Qed.

(** The rows of one start are closed walks from that start. *)
Lemma cyclesFrom_shape (g : Graph) (start : string) (row : CycleRow.t) :
  In row (cyclesFrom g start) ->
  (2 <= CycleRow.cycleLength row)%nat
  /\ length (CycleRow.packageNames row) = S (CycleRow.cycleLength row)
  /\ chained g (CycleRow.packageNames row) = true
  /\ hd_error (CycleRow.packageNames row) = Some start
  /\ last (CycleRow.packageNames row) "" = start.
Proof.
  unfold cyclesFrom. intros H.
  apply in_map_iff in H as [path [<- H]].
  apply filter_In in H as [H Hlen]. apply Nat.ltb_lt in Hlen.
  apply trails_walk in H as [Hne [Hchain Hlast]].
  cbn [CycleRow.cycleLength CycleRow.packageNames].
  split; [lia|]. split; [simpl; now rewrite length_map|].
  split; [exact Hchain|]. split; [reflexivity|].
  now rewrite last_cons_map.
Qed.

Lemma CycleRow_eqb_spec (a b : CycleRow.t) : reflect (a = b) (CycleRow_eqb a b).
Proof.
  destruct a as [na la], b as [nb lb]. unfold CycleRow_eqb. simpl.
  destruct (list_eq_dec string_dec na nb) as [->|Hn]; simpl.
  - destruct (Nat.eqb_spec la lb) as [->|Hl]; constructor; congruence.
  - constructor. congruence.
Qed.

Lemma firstn_In (A : Type) (x : A) :
  forall (n : nat) (l : list A), In x (firstn n l) -> In x l.
Proof.
  induction n as [|n IH]; intros [|y l] H; simpl in *; try contradiction.
  destruct H as [->|H]; auto.
Qed.

Lemma firstn_NoDup (A : Type) (n : nat) :
  forall l : list A, NoDup l -> NoDup (firstn n l).
Proof.
  induction n as [|n IH]; intros [|x l] H; simpl; try constructor.
  - apply NoDup_cons_iff in H as [Hx _].
    intros Hin. apply Hx. eapply firstn_In, Hin.
  - apply IH. now apply NoDup_cons_iff in H as [_ H].
Qed.

Lemma ascending_firstn (A : Type) (count : A -> nat) (n : nat) :
  forall l : list A, ascending count l -> ascending count (firstn n l).
Proof.
  unfold ascending. induction n as [|n IH]; intros [|x l] H; simpl;
    try constructor.
  - apply IH. now apply StronglySorted_inv in H.
  - apply StronglySorted_inv in H as [_ H].
    apply Forall_forall. intros y Hy. apply firstn_In in Hy.
    revert y Hy. now apply Forall_forall.
Qed.

Lemma ascending_map (A B : Type) (f : A -> B) (count : B -> nat)
      (count' : A -> nat) (l : list A) :
  (forall a, count (f a) = count' a) ->
  ascending count' l -> ascending count (map f l).
Proof.
  intros E. unfold ascending. induction 1 as [|x l Hl IH Hx]; simpl;
    constructor.
  - exact IH.
  - apply Forall_map. eapply Forall_impl; [|exact Hx].
    simpl. intros y. now rewrite !E.
Qed.

(** What [RETURN DISTINCT ... ORDER BY cycleLength ASC LIMIT limit] keeps. *)
Lemma listCycles_spec (limit : nat) (rows : list CycleRow.t) :
  (length (listCycles limit rows) <= limit)%nat
  /\ ascending CycleRow.cycleLength (listCycles limit rows)
  /\ NoDup (listCycles limit rows)
  /\ forall row, In row (listCycles limit rows) -> In row rows.
Proof.
  unfold listCycles.
  pose proof (orderAscending_Permutation CycleRow.cycleLength
                (distinct CycleRow_eqb rows)) as Hperm.
  split; [apply firstn_le_length|].
  split; [apply ascending_firstn, orderAscending_ascending|]. split.
  - apply firstn_NoDup. eapply Permutation_NoDup; [exact Hperm|].
    apply (@distinct_NoDup _ _ CycleRow_eqb_spec).
  - intros row H. apply firstn_In in H.
    eapply Permutation_in in H; [|symmetry; exact Hperm].
    exact (proj1 (@distinct_In _ _ CycleRow_eqb_spec _ _) H).
Qed.

Lemma toCycle_steps (row : CycleRow.t) :
  steps (CycleListings.toCycle row) = CycleRow.cycleLength row.
Proof. unfold steps. simpl. apply Nat2Z.id. Qed.

Lemma toCycle_closedWalk (g : Graph) (start : string) (row : CycleRow.t) :
  In row (cyclesFrom g start) ->
  closedWalk g (CycleListings.toCycle row)
  /\ hd_error (Cycle.packages (CycleListings.toCycle row)) = Some start.
Proof.
  intros H. apply cyclesFrom_shape in H as [H1 [H2 [H3 [H4 H5]]]].
  split; [|exact H4].
  exists (CycleRow.cycleLength row). simpl.
  repeat split; try assumption. now rewrite H5.
Qed.

Lemma findCircularDependencies_result (deployment : Deployment) (w w' : World)
      (cycles : list Cycle.t) :
  CycleListings.findCircularDependencies deployment w = (Returned cycles, w') ->
  cycles = map CycleListings.toCycle (evalAllCycles (graph w)).
Proof.
  unfold CycleListings.findCircularDependencies. rewrite tryCatch_rethrow.
  intros H. apply bind_returned in H as [result [w0 [Hrun Hret]]].
  apply executeStatement_returned in Hrun as [-> _].
  cbn [evalStatement snd] in Hret.
  destruct (map CycleListings.toCycle (evalAllCycles (graph w)));
    unfold ret in Hret; now inversion Hret.
Qed.

(** X13. [findCircularDependencies] returns at most 100 cycles, no cycle
    twice, in ascending order of their length; each of them is a closed walk
    along stored relationships, with at least two relationships, one name
    more than relationships, and the first name again at the end. *)
Theorem findCircularDependencies_shape (deployment : Deployment) (w w' : World)
        (cycles : list Cycle.t) :
  CycleListings.findCircularDependencies deployment w = (Returned cycles, w') ->
  (length cycles <= 100)%nat
  /\ ascending steps cycles
  /\ NoDup (map Cycle.packages cycles)
  /\ forall c, In c cycles -> closedWalk (graph w) c.
Proof.
  intros H. apply findCircularDependencies_result in H as ->.
  unfold evalAllCycles.
  destruct (listCycles_spec 100
              (flat_map (fun p => cyclesFrom (graph w) (Package.name p))
                        (packages (graph w))))
    as [Hlen [Hasc [Hnd Hin]]].
  split; [now rewrite length_map|].
  split; [eapply ascending_map; [apply toCycle_steps | exact Hasc]|].
  split.
  - rewrite map_map. cbn [CycleListings.toCycle Cycle.packages].
    apply NoDup_map_finer with (f := fun row : CycleRow.t => row).
    + now rewrite map_id.
    + intros x y Hx Hy E.
      apply Hin in Hx. apply Hin in Hy.
      apply in_flat_map in Hx as [px [_ Hx]].
      apply in_flat_map in Hy as [py [_ Hy]].
      apply cyclesFrom_shape in Hx as [_ [Hx _]].
      apply cyclesFrom_shape in Hy as [_ [Hy _]].
      destruct x as [nx lx], y as [ny ly]. simpl in *. subst ny.
      f_equal. congruence.
  - intros c Hc. apply in_map_iff in Hc as [row [<- Hrow]].
    apply Hin in Hrow. apply in_flat_map in Hrow as [p [_ Hrow]].
    eapply toCycle_closedWalk, Hrow.
Qed.

Lemma mutual_reachable : reachable (graph Samples.mutual).
Proof.
  assert (H : keepsReachable
                (_ <- Samples.load Samples.healthy
                        (Samples.sample "D" [Samples.caret "E" "1.0.0"]) ;;
                 Samples.load Samples.healthy
                   (Samples.sample "E" [Samples.caret "D" "1.0.0"]))).
  { apply bind_keepsReachable; [|intros _]; apply load_keepsReachable. }
  exact (H Samples.start reachable_empty).
Qed.

Lemma findCircularDependencies_shape_witness :
  closedWalk (graph Samples.mutual) (Cycle.mk ["D"; "E"; "D"] (JsInteger 2)).
Proof.
  destruct (@findCircularDependencies_shape
              sound Samples.mutual
              (snd (CycleListings.findCircularDependencies sound Samples.mutual))
              (map CycleListings.toCycle (evalAllCycles (graph Samples.mutual))))
    as [_ [_ [_ Hall]]].
  - vm_compute. reflexivity.
  - apply Hall. vm_compute. auto.
Defined.

Lemma findProjectCircularDependencies_result (deployment : Deployment)
      (projectName : string) (w w' : World) (cycles : list Cycle.t) :
  CycleListings.findProjectCircularDependencies deployment projectName w
  = (Returned cycles, w') ->
  cycles = map CycleListings.toCycle (evalProjectCycles projectName (graph w)).
Proof.
  unfold CycleListings.findProjectCircularDependencies.
  rewrite tryCatch_rethrow.
  intros H. apply bind_returned in H as [result [w0 [Hrun Hret]]].
  apply executeStatement_returned in Hrun as [-> _].
  cbn [evalStatement snd] in Hret. unfold ret in Hret. now inversion Hret.
Qed.

(** X14. [findProjectCircularDependencies] returns at most 50 cycles in
    ascending order of their length; each is a closed walk along stored
    relationships that starts at a package the project depends on directly.
    A project without relationships, or one that is not stored, gets the
    empty list. *)
Theorem findProjectCircularDependencies_shape (deployment : Deployment)
        (projectName : string) (w w' : World) (cycles : list Cycle.t) :
  CycleListings.findProjectCircularDependencies deployment projectName w
  = (Returned cycles, w') ->
  (length cycles <= 50)%nat
  /\ ascending steps cycles
  /\ (forall c, In c cycles ->
        closedWalk (graph w) c
        /\ exists start,
             hd_error (Cycle.packages c) = Some start
             /\ hasRelationship (graph w) (ProjectRef projectName) start = true)
  /\ (relationshipsOf (graph w) projectName = [] -> cycles = []).
Proof.
  intros H. apply findProjectCircularDependencies_result in H as ->.
  unfold evalProjectCycles.
  destruct (listCycles_spec 50
              (flat_map (fun r => cyclesFrom (graph w) (DependsOn.to r))
                        (relationshipsOf (graph w) projectName)))
    as [Hlen [Hasc [_ Hin]]].
  split; [now rewrite length_map|].
  split; [eapply ascending_map; [apply toCycle_steps | exact Hasc]|].
  split.
  - intros c Hc. apply in_map_iff in Hc as [row [<- Hrow]].
    apply Hin in Hrow. apply in_flat_map in Hrow as [r [Hr Hrow]].
    apply toCycle_closedWalk in Hrow as [Hwalk Hhd].
    split; [exact Hwalk|]. exists (DependsOn.to r). split; [exact Hhd|].
    apply relationshipsOf_In in Hr as [Hr Hfrom].
    unfold hasRelationship. apply existsb_exists. exists r.
    split; [assumption|]. unfold joins.
    rewrite Hfrom, String.eqb_refl.
    now rewrite (proj2 (NodeRef_eqb_eq _ _) eq_refl).
  - intros ->. reflexivity.
Qed.

Lemma findProjectCircularDependencies_shape_witness :
  fst (CycleListings.findProjectCircularDependencies sound "D" Samples.mutual)
  = Returned [Cycle.mk ["E"; "D"; "E"] (JsInteger 2)]
  /\ hasRelationship (graph Samples.mutual) (ProjectRef "D") "E" = true.
Proof.
  split; [vm_compute; reflexivity|].
  destruct (@findProjectCircularDependencies_shape
              sound "D" Samples.mutual
              (snd (CycleListings.findProjectCircularDependencies
                      sound "D" Samples.mutual))
              [Cycle.mk ["E"; "D"; "E"] (JsInteger 2)])
    as [_ [_ [Hall _]]].
  - vm_compute. reflexivity.
  - destruct (Hall (Cycle.mk ["E"; "D"; "E"] (JsInteger 2)))
      as [_ [start [Hhd Hrel]]]; [now left|].
    simpl in Hhd. inversion Hhd; subst start. exact Hrel.
Defined.


(* ===================================================================== *)
(** * The cycle listing, the statistics and the direct cycles *)
(* ===================================================================== *)

Lemma flat_map_map_length (A B C : Type) (f : A -> list B)
      (h : A -> B -> C) (keep : B -> bool) (l : list A) :
  length (flat_map (fun x => map (h x) (filter keep (f x))) l)
  = length (filter keep (flat_map f l)).
Proof.
  induction l as [|x l IH]; simpl; [reflexivity|].
  rewrite filter_app, !length_app, length_map. now rewrite IH.
Qed.

(** The listing and the statistics search the same paths. *)
Lemma cycle_rows_nil (g : Graph) :
  flat_map (fun p => cyclesFrom g (Package.name p)) (packages g) = []
  <-> cyclePaths g = [].
Proof.
  unfold cyclesFrom, cyclePaths.
  rewrite <- !length_zero_iff_nil.
  now rewrite (flat_map_map_length
                 (fun p => trails (length (dependsOn g)) (indexed g) []
                                  (Package.name p) (Package.name p))
                 (fun p path =>
                    CycleRow.mk (Package.name p :: map (endOf g) path)
                                (length path))).
Qed.

Lemma listCycles_nil (limit : nat) (rows : list CycleRow.t) :
  (0 < limit)%nat -> (listCycles limit rows = [] <-> rows = []).
Proof.
  intros Hlimit. unfold listCycles. split.
  - intros H.
    pose proof (orderAscending_Permutation CycleRow.cycleLength
                  (distinct CycleRow_eqb rows)) as Hperm.
    destruct (orderAscending CycleRow.cycleLength (distinct CycleRow_eqb rows))
      as [|x l].
    + apply Permutation_sym, Permutation_nil in Hperm.
      now apply distinct_nil in Hperm.
    + destruct limit; [lia | discriminate].
  - intros ->. now destruct limit.
Qed.

(** The least row of the listing is at most any row there is. *)
Lemma listCycles_least (limit : nat) (rows : list CycleRow.t)
      (row : CycleRow.t) :
  (0 < limit)%nat -> In row rows ->
  exists least, In least (listCycles limit rows)
                /\ (CycleRow.cycleLength least <= CycleRow.cycleLength row)%nat.
Proof.
  intros Hlimit Hin. unfold listCycles.
  pose proof (orderAscending_Permutation CycleRow.cycleLength
                (distinct CycleRow_eqb rows)) as Hperm.
  pose proof (orderAscending_ascending CycleRow.cycleLength
                (distinct CycleRow_eqb rows)) as Hasc.
  apply (proj2 (@distinct_In _ _ CycleRow_eqb_spec _ _)) in Hin.
  eapply Permutation_in in Hin; [|exact Hperm].
  destruct (orderAscending CycleRow.cycleLength (distinct CycleRow_eqb rows))
    as [|x l]; [contradiction|].
  destruct limit as [|limit]; [lia|].
  exists x. split; [now left|].
  apply StronglySorted_inv in Hasc as [_ Hx].
  destruct Hin as [->|Hin]; [lia|].
  revert row Hin. now apply Forall_forall.
Qed.

Lemma getStatistics_total (client : Neo4jClient) (w w' : World)
      (s : CycleStats.t) :
  CircularDependencyAnalyzer.getStatistics client w = (Returned (Some s), w') ->
  CycleStats.totalCycles s
  = JsInteger (Z.of_nat (length (distinct listNatEqb (cyclePaths (graph w))))).
Proof.
  unfold CircularDependencyAnalyzer.getStatistics, tryCatch, bind.
  destruct (executeQuery client CycleStatistics w) as [[rows|m] w0] eqn:E.
  - apply executeQuery_returned in E as [-> _].
    cbn [evalQuery snd]. unfold evalCycleStatistics.
    cbn [CycleStats.totalCycles CycleStats.avgCycleLength strictEqZero].
    destruct (map (@length nat) (cyclePaths (graph w))) as [|n l];
      cbn [average CircularDependencyAnalyzer.roundAverage ret
           CycleStats.shortestCycle CycleStats.longestCycle];
      unfold ret; intros H; inversion H; reflexivity.
  - unfold ret. intros H. inversion H.
Qed.

(** X15. The two cycle reports agree on a store without cycles:
    [findCircularDependencies] returns the empty list exactly when the
    record of [getStatistics] counts zero cycles, and that zero is the
    driver's [Integer] object. *)
Theorem findCircularDependencies_empty_iff (deployment : Deployment)
        (client : Neo4jClient) (w w1 v v1 : World) (cycles : list Cycle.t)
        (s : CycleStats.t) :
  CycleListings.findCircularDependencies deployment w = (Returned cycles, w1) ->
  graph v = graph w ->
  CircularDependencyAnalyzer.getStatistics client v = (Returned (Some s), v1) ->
  (cycles = [] <-> CycleStats.totalCycles s = JsInteger 0).
Proof.
  intros Hlist Hsame Hstats.
  apply findCircularDependencies_result in Hlist as ->.
  apply getStatistics_total in Hstats. rewrite Hstats, Hsame.
  unfold evalAllCycles. split.
  - intros H. apply map_eq_nil in H.
    apply listCycles_nil in H; [|lia].
    apply cycle_rows_nil in H. now rewrite H.
  - intros H. inversion H as [Hzero].
    assert (Hnil : distinct listNatEqb (cyclePaths (graph w)) = []).
    { apply length_zero_iff_nil. lia. }
    apply distinct_nil in Hnil.
    apply cycle_rows_nil in Hnil. rewrite Hnil. reflexivity.
Qed.

Lemma findCircularDependencies_empty_iff_witness :
  fst (CycleListings.findCircularDependencies sound Samples.builtA)
  = Returned [].
Proof.
  destruct (CycleListings.findCircularDependencies sound Samples.builtA)
    as [[cycles|message] w1] eqn:Hlist.
  - destruct (CircularDependencyAnalyzer.getStatistics
                Samples.healthy Samples.builtA) as [[[s|]|message] v1] eqn:Hstats.
    + simpl. f_equal.
      apply (proj2 (@findCircularDependencies_empty_iff
                      sound Samples.healthy Samples.builtA w1 Samples.builtA v1
                      cycles s Hlist eq_refl Hstats)).
      vm_compute in Hstats. inversion Hstats. reflexivity.
    + vm_compute in Hstats. discriminate.
    + vm_compute in Hstats. discriminate.
  - vm_compute in Hlist. discriminate.
Defined.

(** Two packages that depend on each other are a row of two relationships. *)
Lemma mutual_pair_row (g : Graph) (a b : string) :
  endsExist g ->
  hasRelationship g (PackageRef a) b = true ->
  hasRelationship g (PackageRef b) a = true ->
  a <> b ->
  exists row,
    In row (flat_map (fun p => cyclesFrom g (Package.name p)) (packages g))
    /\ CycleRow.cycleLength row = 2%nat.
Proof.
  intros [He _] Hab Hba Hne.
  unfold hasRelationship in Hab, Hba.
  apply existsb_exists in Hab as [r1 [Hr1 Hj1]].
  apply existsb_exists in Hba as [r2 [Hr2 Hj2]].
  apply joins_ends in Hj1. apply joins_ends in Hj2.
  unfold ends in Hj1, Hj2.
  inversion Hj1 as [[Hfrom1 Hto1]]. inversion Hj2 as [[Hfrom2 Hto2]].
  clear Hj1 Hj2.
  destruct (He r2 Hr2) as [_ Hpkg]. rewrite Hto2 in Hpkg.
  apply hasPackage_In in Hpkg. apply in_map_iff in Hpkg as [p [Hname Hp]].
  destruct (combine_seq_In (dependsOn g) r1 0 Hr1) as [i Hi].
  destruct (combine_seq_In (dependsOn g) r2 0 Hr2) as [j Hj].
  fold (indexed g) in Hi, Hj.
  pose proof (indexed_lookup _ _ _ Hi) as Li.
  pose proof (indexed_lookup _ _ _ Hj) as Lj.
  assert (Hij : i <> j).
  { intros ->. rewrite Li in Lj. inversion Lj; subst r2. congruence. }
  assert (Hi' : (i < length (dependsOn g))%nat)
    by (apply nth_error_Some; congruence).
  assert (Hj' : (j < length (dependsOn g))%nat)
    by (apply nth_error_Some; congruence).
  exists (CycleRow.mk (a :: map (endOf g) [i; j]) 2). split; [|reflexivity].
  apply in_flat_map. exists p. split; [assumption|].
  rewrite Hname. unfold cyclesFrom.
  apply in_map_iff. exists [i; j]. split; [reflexivity|].
  apply filter_In. split; [|reflexivity].
  remember (indexed g) as rels eqn:Hrels.
  destruct (length (dependsOn g)) as [|[|m]]; [lia | lia |].
  cbn [trails]. apply in_flat_map. exists (i, r1). split; [assumption|].
  cbn [fst snd]. rewrite Hfrom1.
  rewrite (proj2 (NodeRef_eqb_eq _ _) eq_refl). cbn [existsb negb andb].
  apply in_or_app. right. apply in_map.
  apply in_flat_map. exists (j, r2). split; [assumption|].
  cbn [fst snd]. rewrite Hfrom2, Hto1.
  rewrite (proj2 (NodeRef_eqb_eq _ _) eq_refl). cbn [existsb].
  rewrite (proj2 (Nat.eqb_neq j i)) by congruence. cbn [orb negb andb].
  rewrite Hto2, String.eqb_refl. apply in_or_app. left. now left.
Qed.

(** X16. In a store the program produced, a pair that
    [findDirectCircularDependencies] reports is not lost to the limit of
    [findCircularDependencies]: whenever the first returns a pair, the
    second returns a cycle of length two. *)
Theorem direct_cycle_is_listed (client : Neo4jClient) (deployment : Deployment)
        (w w1 v v1 : World) (pairs : list DirectCycle.t)
        (cycles : list Cycle.t) :
  reachable (graph w) ->
  CircularDependencyAnalyzer.findDirectCircularDependencies client w
  = (Returned pairs, w1) ->
  graph v = graph w ->
  CycleListings.findCircularDependencies deployment v = (Returned cycles, v1) ->
  pairs <> [] ->
  exists c, In c cycles /\ Cycle.length c = JsInteger 2.
Proof.
  intros Hreach Hdirect Hsame Hlist Hsome.
  destruct (reachable_wellformed Hreach) as [_ [_ He]].
  apply findCircularDependencies_result in Hlist as ->. rewrite Hsame.
  unfold CircularDependencyAnalyzer.findDirectCircularDependencies in Hdirect.
  rewrite tryCatch_rethrow in Hdirect.
  apply bind_returned in Hdirect as [result [w0 [Hrun Hret]]].
  apply executeQuery_returned in Hrun as [-> _].
  cbn [evalQuery snd] in Hret. unfold ret in Hret.
  inversion Hret as [[Hpairs Hw]]. clear Hret Hw.
  destruct (evalDirectCycles (graph w)) as [|[a b] rest] eqn:E;
    [subst pairs; simpl in Hsome; congruence|].
  assert (Hin : In (DirectCycle.mk a b) (evalDirectCycles (graph w)))
    by (rewrite E; now left).
  apply evalDirectCycles_In in Hin as [Hab [Hba Hlt]].
  assert (Hne : a <> b).
  { intros ->. pose proof (ltb_asym _ _ Hlt). congruence. }
  destruct (mutual_pair_row He Hab Hba Hne) as [row [Hrow Hlen]].
  destruct (@listCycles_least 100%nat _ _ ltac:(lia) Hrow)
    as [least [Hleast Hle]].
  fold (evalAllCycles (graph w)) in Hleast.
  exists (CycleListings.toCycle least). split; [now apply in_map|].
  assert (Hmin : (2 <= CycleRow.cycleLength least)%nat).
  { unfold evalAllCycles in Hleast.
    apply listCycles_spec in Hleast.
    apply in_flat_map in Hleast as [p [_ Hleast]].
    now apply cyclesFrom_shape in Hleast as [Hleast _]. }
  unfold CycleListings.toCycle. cbn [Cycle.length].
  replace (CycleRow.cycleLength least) with 2%nat by lia. reflexivity.
Qed.

Lemma direct_cycle_is_listed_witness :
  exists c,
    In c (map CycleListings.toCycle (evalAllCycles (graph Samples.mutual)))
    /\ Cycle.length c = JsInteger 2.
Proof.
  destruct (@direct_cycle_is_listed
              Samples.healthy sound Samples.mutual
              (snd (CircularDependencyAnalyzer.findDirectCircularDependencies
                      Samples.healthy Samples.mutual))
              Samples.mutual
              (snd (CycleListings.findCircularDependencies sound Samples.mutual))
              [DirectCycle.mk "D" "E"]
              (map CycleListings.toCycle (evalAllCycles (graph Samples.mutual)))
              mutual_reachable)
    as [c Hc].
  - vm_compute. reflexivity.
  - reflexivity.
  - vm_compute. reflexivity.
  - discriminate.
  - exists c. exact Hc.
Defined.


(* ===================================================================== *)
(** * [JavaScriptParser] *)
(* ===================================================================== *)

Lemma afterPrefix_app (p : string) :
  forall s tail : string, afterPrefix p s = Some tail -> (p ++ tail)%string = s.
Proof.
  induction p as [|c p IH]; intros s tail H; simpl in *.
  - now inversion H.
  - destruct s as [|d s]; [discriminate|].
    destruct (Ascii.eqb_spec c d) as [->|_]; [|discriminate].
    f_equal. now apply IH.
Qed.

Lemma dotPlus_some (s version : string) :
  dotPlus s = Some version -> version = s /\ s <> "".
Proof.
  unfold dotPlus. destruct (String.eqb_spec s "") as [->|Hne]; cbn [orb];
    [intros H; discriminate|].
  destruct (existsb (includes s) lineTerminators); [intros H; discriminate|].
  intros H. inversion H; subst. auto.
Qed.

Lemma firstMatch_some (operators : list string) (versionStr : string)
      (parsed : ParsedVersion.t) :
  JavaScriptParser.firstMatch operators versionStr = Some parsed ->
  In (ParsedVersion.operator parsed) operators
  /\ (ParsedVersion.operator parsed ++ ParsedVersion.version parsed)%string
     = versionStr
  /\ ParsedVersion.version parsed <> "".
Proof.
  induction operators as [|operator rest IH]; simpl; [discriminate|].
  destruct (afterPrefix operator versionStr) as [tail|] eqn:Hprefix.
  - destruct (dotPlus tail) as [version|] eqn:Hdot.
    + intros H. inversion H; subst parsed. simpl.
      apply dotPlus_some in Hdot as [-> Hne].
      apply afterPrefix_app in Hprefix. auto.
    + intros H. destruct (IH H) as [H1 H2]. auto.
  - intros H. destruct (IH H) as [H1 H2]. auto.
Qed.

(** X17. [_parseVersion] loses nothing of a constraint other than [*] and
    [latest]: for the operators [git] and [file] the version is the whole
    constraint, for every other operator the operator followed by the
    version is the constraint again.  The version is empty only for the
    empty constraint. *)
Theorem parseVersion_round_trip (versionStr : string) :
  versionStr <> "*" -> versionStr <> "latest" ->
  (ParsedVersion.version (JavaScriptParser._parseVersion versionStr) = ""
   <-> versionStr = "")
  /\ ((In (ParsedVersion.operator (JavaScriptParser._parseVersion versionStr))
          ["git"; "file"]
       /\ ParsedVersion.version (JavaScriptParser._parseVersion versionStr)
          = versionStr)
      \/ (In (ParsedVersion.operator (JavaScriptParser._parseVersion versionStr))
             JavaScriptParser.patterns
          /\ (ParsedVersion.operator (JavaScriptParser._parseVersion versionStr)
              ++ ParsedVersion.version
                   (JavaScriptParser._parseVersion versionStr))%string
             = versionStr)).
Proof.
  intros Hstar Hlatest. unfold JavaScriptParser._parseVersion.
  destruct (String.eqb_spec versionStr "*") as [E|_]; [contradiction|].
  destruct (String.eqb_spec versionStr "latest") as [E|_]; [contradiction|].
  cbn [orb].
  destruct (includes versionStr "git" || includes versionStr "github").
  { cbn [ParsedVersion.version ParsedVersion.operator].
    split; [tauto|]. left. split; [now left | reflexivity]. }
  destruct (startsWith versionStr "file:").
  { cbn [ParsedVersion.version ParsedVersion.operator].
    split; [tauto|]. left. split; [right; now left | reflexivity]. }
  destruct (JavaScriptParser.firstMatch JavaScriptParser.patterns versionStr)
    as [parsed|] eqn:Hmatch.
  - apply firstMatch_some in Hmatch as [Hop [Happ Hne]].
    split; [|right; auto].
    split; [contradiction|]. intros ->.
    destruct (ParsedVersion.operator parsed); [|discriminate].
    simpl in Happ. contradiction.
  - cbn [ParsedVersion.version ParsedVersion.operator].
    split; [tauto|]. right. split; [|reflexivity].
    unfold JavaScriptParser.patterns. simpl. tauto.
Qed.

Lemma parseVersion_round_trip_witness :
  JavaScriptParser._parseVersion ">=4.18.0" = ParsedVersion.mk "4.18.0" ">="
  /\ (">=" ++ "4.18.0")%string = ">=4.18.0".
Proof.
  split; [vm_compute; reflexivity|].
  destruct (@parseVersion_round_trip ">=4.18.0") as [_ [[Hgit _]|[_ Hsame]]].
  - discriminate.
  - discriminate.
  - vm_compute in Hgit. intuition discriminate.
  - vm_compute in Hsame. vm_compute. exact Hsame.
Defined.

Lemma lastNamed_some (n : string) (dependencies : list Dependency.t) :
  In n (map Dependency.name dependencies) ->
  exists dep, lastNamed n dependencies = Some dep.
Proof.
  induction dependencies as [|dep rest IH]; simpl; [contradiction|].
  intros [E|H].
  - destruct (lastNamed n rest); [eauto|].
    rewrite E, String.eqb_refl. eauto.
  - destruct (IH H) as [d ->]. eauto.
Qed.

Lemma lastNamed_In (n : string) (dependencies : list Dependency.t)
      (dep : Dependency.t) :
  lastNamed n dependencies = Some dep ->
  In dep dependencies /\ Dependency.name dep = n.
Proof.
  induction dependencies as [|d rest IH]; simpl; [discriminate|].
  destruct (lastNamed n rest) as [later|].
  - intros H. inversion H; subst later. destruct IH; auto.
  - destruct (String.eqb_spec (Dependency.name d) n); [|discriminate].
    intros H. inversion H; subst. auto.
Qed.

(** What a record of [_extractDependencies] is made of. *)
Lemma extractDependencies_In (deps : list (string * string)) (type : string)
      (dep : Dependency.t) :
  In dep (JavaScriptParser._extractDependencies deps type) ->
  In (Dependency.name dep, Dependency.versionRange dep) deps
  /\ Dependency.type dep = type
  /\ Dependency.version dep
     = ParsedVersion.version
         (JavaScriptParser._parseVersion (Dependency.versionRange dep))
  /\ Dependency.operator dep
     = ParsedVersion.operator
         (JavaScriptParser._parseVersion (Dependency.versionRange dep))
  /\ Dependency.lineNumber dep = None
  /\ Dependency.language dep = None.
Proof.
  unfold JavaScriptParser._extractDependencies. intros H.
  apply in_map_iff in H as [[name raw] [<- H]]. simpl. auto 10.
Qed.

(** What a record of the Manifest Record is made of. *)
Lemma parsePackageJson_In (this : JavaScriptParser.t) (filePath : string)
      (packageJson : PackageJson.t) (dep : Dependency.t) :
  In dep (ParsedData.dependencies
            (JavaScriptParser._parsePackageJson this filePath packageJson)) ->
  In (Dependency.name dep, Dependency.versionRange dep, Dependency.type dep)
     (manifestEntries packageJson)
  /\ In (Dependency.type dep) ["production"; "development"; "peer"]
  /\ Dependency.version dep
     = ParsedVersion.version
         (JavaScriptParser._parseVersion (Dependency.versionRange dep))
  /\ Dependency.operator dep
     = ParsedVersion.operator
         (JavaScriptParser._parseVersion (Dependency.versionRange dep))
  /\ Dependency.lineNumber dep = None
  /\ Dependency.language dep = None.
Proof.
  unfold JavaScriptParser._parsePackageJson, manifestEntries.
  cbn [ParsedData.dependencies]. intros H.
  apply in_app_or in H as [H|H]; [|apply in_app_or in H as [H|H]];
    apply extractDependencies_In in H as [Hin [Htype Hrest]];
    (split; [|split; [rewrite Htype; simpl; tauto | exact Hrest]]);
    rewrite Htype.
  - apply in_or_app. left.
    apply in_map_iff. eexists. split; [|exact Hin]. reflexivity.
  - apply in_or_app. right. apply in_or_app. left.
    apply in_map_iff. eexists. split; [|exact Hin]. reflexivity.
  - apply in_or_app. right. apply in_or_app. right.
    apply in_map_iff. eexists. split; [|exact Hin]. reflexivity.
Qed.

(** X18. From [package.json] to the store: after the Manifest Record of
    [_parsePackageJson] is built, a relationship from the project to a
    package of the manifest carries a constraint exactly as the manifest
    writes it for that package, with the type of the section it stands in,
    and line number 0;
    the package node carries the version and the operator [_parseVersion]
    makes of such a constraint, and the language [javascript]. *)
Theorem manifest_constraint_is_stored (client : Neo4jClient)
        (this : JavaScriptParser.t) (filePath : string)
        (packageJson : PackageJson.t) (w w' : World) (b : bool) :
  GraphBuilder.buildProjectGraph
    client (JavaScriptParser._parsePackageJson this filePath packageJson) w
  = (Returned b, w') ->
  (forall r, In r (dependsOn (graph w')) ->
     DependsOn.from r
     = ProjectRef (orOptString (PackageJson.name packageJson)
                               (JavaScriptParser.projectName this)) ->
     In (DependsOn.to r) (map (fun e => fst (fst e)) (manifestEntries packageJson)) ->
     In (DependsOn.to r, DependsOn.versionConstraint r, DependsOn.type r)
        (manifestEntries packageJson)
     /\ DependsOn.lineNumber r = Some 0)
  /\ (forall p, In p (packages (graph w')) ->
        In (Package.name p)
           (map (fun e => fst (fst e)) (manifestEntries packageJson)) ->
        Package.language p = "javascript"
        /\ exists constraint type,
             In (Package.name p, constraint, type) (manifestEntries packageJson)
             /\ Package.version p
                = ParsedVersion.version
                    (JavaScriptParser._parseVersion constraint)
             /\ Package.operator p
                = ParsedVersion.operator
                    (JavaScriptParser._parseVersion constraint)).
Proof.
  intros Hrun.
  set (parsedData :=
         JavaScriptParser._parsePackageJson this filePath packageJson) in *.
  assert (Hnames : forall n,
             In n (map (fun e => fst (fst e)) (manifestEntries packageJson)) ->
             In n (map Dependency.name (ParsedData.dependencies parsedData))).
  { intros n. unfold parsedData, JavaScriptParser._parsePackageJson,
      manifestEntries, JavaScriptParser._extractDependencies.
    cbn [ParsedData.dependencies].
    rewrite !map_app, !map_map. cbn [Dependency.name fst]. auto. }
  assert (Hlast : forall n,
             In n (map (fun e => fst (fst e)) (manifestEntries packageJson)) ->
             exists dep,
               written (ParsedData.projectName parsedData) n dep (graph w')
               /\ In dep (ParsedData.dependencies parsedData)
               /\ Dependency.name dep = n).
  { intros n Hn. apply Hnames, lastNamed_some in Hn as [dep Hdep].
    exists dep. split.
    - exact (@buildProjectGraph_written client parsedData w w' b n dep
               Hrun Hdep).
    - now apply lastNamed_In. }
  split.
  - intros r Hr Hfrom Hto.
    destruct (Hlast _ Hto) as [dep [[_ Hrel] [Hin Hname]]].
    destruct (Hrel r Hr) as [Hc [Ht [_ Hl]]].
    { unfold ends. now rewrite Hfrom. }
    apply parsePackageJson_In in Hin as [Hentry [Htype [Hv [_ [Hline _]]]]].
    rewrite Hl, Hline. split; [|reflexivity].
    rewrite Hc, Ht, <- Hname.
    replace (orString (Dependency.type dep) "production")
      with (Dependency.type dep)
      by (simpl in Htype; destruct Htype as [<-|[<-|[<-|[]]]]; reflexivity).
    replace (orString (Dependency.versionRange dep) (Dependency.version dep))
      with (Dependency.versionRange dep); [exact Hentry|].
    unfold orString.
    destruct (String.eqb_spec (Dependency.versionRange dep) "") as [E|_];
      [|reflexivity].
    rewrite Hv, E. reflexivity.
  - intros p Hp Hname.
    destruct (Hlast _ Hname) as [dep [[Hpkg _] [Hin Hdep]]].
    destruct (Hpkg p Hp eq_refl) as [Hv [Ho Hl]].
    apply parsePackageJson_In in Hin as [Hentry [_ [Hv' [Ho' [_ Hlang]]]]].
    split; [now rewrite Hl, Hlang|].
    exists (Dependency.versionRange dep), (Dependency.type dep).
    rewrite <- Hdep. split; [exact Hentry|].
    split; [now rewrite Hv|].
    rewrite Ho, Ho'. unfold orString.
    destruct (String.eqb_spec
                (ParsedVersion.operator
                   (JavaScriptParser._parseVersion (Dependency.versionRange dep)))
                "") as [->|_]; reflexivity.
Qed.

Lemma manifest_constraint_is_stored_witness :
  Forall (fun r =>
            DependsOn.from r = ProjectRef "shop" ->
            In (DependsOn.to r)
               (map (fun e => fst (fst e)) (manifestEntries manifest)) ->
            In (DependsOn.to r, DependsOn.versionConstraint r, DependsOn.type r)
               (manifestEntries manifest)
            /\ DependsOn.lineNumber r = Some 0)
         (dependsOn (graph builtShop)).
Proof.
  destruct (@manifest_constraint_is_stored
              Samples.healthy shopParser "/work/shop/package.json" manifest
              Samples.start builtShop true) as [Hrel _].
  - vm_compute. reflexivity.
  - apply Forall_forall. exact Hrel.
Defined.


(* ===================================================================== *)
(** * The verdict of [printReport] *)
(* ===================================================================== *)

Lemma isCompatible_swap (a b : string) :
  VersionConflictAnalyzer.isCompatible a b
  = VersionConflictAnalyzer.isCompatible b a.
Proof.
  unfold VersionConflictAnalyzer.isCompatible.
  rewrite (String.eqb_sym b a).
  destruct (String.eqb a b); [reflexivity|].
  rewrite (andb_comm (startsWith b "^")), (andb_comm (startsWith b "~")).
  rewrite (strictEq_sym (VersionConflictAnalyzer.getMajor b)),
          (strictEq_sym (VersionConflictAnalyzer.getMinor b)).
  reflexivity.
Qed.

Lemma isCompatible_same (a : string) :
  VersionConflictAnalyzer.isCompatible a a = true.
Proof.
  unfold VersionConflictAnalyzer.isCompatible. now rewrite String.eqb_refl.
Qed.

(** Two different constraints are compatible only when both start with the
    caret or both with the tilde. *)
Lemma isCompatible_operators (a b : string) :
  a <> b -> VersionConflictAnalyzer.isCompatible a b = true ->
  (startsWith a "^" = true /\ startsWith b "^" = true)
  \/ (startsWith a "~" = true /\ startsWith b "~" = true).
Proof.
  intros Hne. unfold VersionConflictAnalyzer.isCompatible.
  destruct (String.eqb_spec a b); [contradiction|].
  destruct (startsWith a "^" && startsWith b "^") eqn:Hcaret.
  - apply andb_true_iff in Hcaret. auto.
  - destruct (startsWith a "~" && startsWith b "~") eqn:Htilde;
      [|discriminate].
    apply andb_true_iff in Htilde. auto.
Qed.

Lemma allCompatible_pairwise (versions : list string) :
  allCompatible versions = true
  <-> forall v1 v2, In v1 versions -> In v2 versions ->
                    VersionConflictAnalyzer.isCompatible v1 v2 = true.
Proof.
  induction versions as [|v rest IH]; simpl.
  - split; [intros _ v1 v2 [] | reflexivity].
  - rewrite andb_true_iff, forallb_forall, IH. split.
    + intros [Hv Hrest] v1 v2 [<-|H1] [<-|H2].
      * apply isCompatible_same.
      * now apply Hv.
      * rewrite isCompatible_swap. now apply Hv.
      * now apply Hrest.
    + intros H. split.
      * intros x Hx. apply H; [now left | now right].
      * intros v1 v2 H1 H2. apply H; now right.
Qed.

(** X19. The verdict of [printReport] does not depend on the order in which
    the store returns the dependencies of a conflict: [allCompatible] holds
    exactly when every two of the constraints are compatible, in either
    order, so any rearrangement of the list gets the same verdict. *)
Theorem allCompatible_order_independent (versions : list string) :
  (allCompatible versions = true
   <-> forall v1 v2, In v1 versions -> In v2 versions ->
                     VersionConflictAnalyzer.isCompatible v1 v2 = true)
  /\ forall versions', Permutation versions versions' ->
                       allCompatible versions' = allCompatible versions.
Proof.
  split; [apply allCompatible_pairwise|].
  intros versions' Hperm.
  destruct (allCompatible versions) eqn:E.
  - apply allCompatible_pairwise. intros v1 v2 H1 H2.
    apply (proj1 (allCompatible_pairwise versions) E);
      eapply Permutation_in; try eassumption; now apply Permutation_sym.
  - destruct (allCompatible versions') eqn:E'; [|reflexivity].
    rewrite <- E. symmetry. apply allCompatible_pairwise. intros v1 v2 H1 H2.
    apply (proj1 (allCompatible_pairwise versions') E');
      eapply Permutation_in; eassumption.
Qed.

(** X20. [printReport] prints "Versions may be compatible" under a conflict
    only when all its constraints are one and the same string, or all start
    with the caret, or all start with the tilde: constraints that mix
    operators, or pin exact versions that differ, always get "Potential
    incompatibility - different major versions", whatever their majors. *)
Theorem mayBeCompatible_same_operator (conflict : Conflict.t) :
  mayBeCompatible conflict = true ->
  (forall d1 d2, In d1 (Conflict.dependencies conflict) ->
                 In d2 (Conflict.dependencies conflict) ->
                 ConflictDep.version d1 = ConflictDep.version d2)
  \/ (forall d, In d (Conflict.dependencies conflict) ->
                startsWith (ConflictDep.version d) "^" = true)
  \/ (forall d, In d (Conflict.dependencies conflict) ->
                startsWith (ConflictDep.version d) "~" = true).
Proof.
  unfold mayBeCompatible. intros H.
  pose proof (proj1 (allCompatible_pairwise _) H) as Hall. clear H.
  set (deps := Conflict.dependencies conflict) in *.
  assert (Hpair : forall d1 d2, In d1 deps -> In d2 deps ->
            VersionConflictAnalyzer.isCompatible (ConflictDep.version d1)
                                                 (ConflictDep.version d2)
            = true).
  { intros d1 d2 H1 H2. apply Hall; now apply in_map. }
  clear Hall.
  destruct (Exists_dec
              (fun d1 => Exists (fun d2 => ConflictDep.version d1
                                           <> ConflictDep.version d2) deps)
              deps) as [Hdiff|Hsame].
  { intros d1. apply Exists_dec. intros d2.
    destruct (string_dec (ConflictDep.version d1) (ConflictDep.version d2));
      [right; auto | left; auto]. }
  - right.
    apply Exists_exists in Hdiff as [d1 [H1 Hdiff]].
    apply Exists_exists in Hdiff as [d2 [H2 Hne]].
    destruct (isCompatible_operators Hne (Hpair d1 d2 H1 H2))
      as [[Hc1 Hc2]|[Ht1 Ht2]].
    + left. intros d Hd.
      destruct (string_dec (ConflictDep.version d1) (ConflictDep.version d))
        as [<-|Hne']; [exact Hc1|].
      destruct (isCompatible_operators Hne' (Hpair d1 d H1 Hd))
        as [[_ Hc]|[Ht _]]; [exact Hc|].
      apply tilde_not_caret in Ht. congruence.
    + right. intros d Hd.
      destruct (string_dec (ConflictDep.version d1) (ConflictDep.version d))
        as [<-|Hne']; [exact Ht1|].
      destruct (isCompatible_operators Hne' (Hpair d1 d H1 Hd))
        as [[Hc _]|[_ Ht]]; [|exact Ht].
      apply tilde_not_caret in Ht1. congruence.
  - left. intros d1 d2 H1 H2.
    destruct (string_dec (ConflictDep.version d1) (ConflictDep.version d2))
      as [E|Hne]; [exact E|].
    exfalso. apply Hsame. apply Exists_exists. exists d1. split; [exact H1|].
    apply Exists_exists. exists d2. auto.
Qed.

Lemma mayBeCompatible_same_operator_witness :
  forallb (fun d => startsWith (ConflictDep.version d) "^")
          [ConflictDep.mk "authService" "^4.18.0" "production";
           ConflictDep.mk "userService" "^4.17.0" "production"]
  = true.
Proof.
  destruct (@mayBeCompatible_same_operator
              (Conflict.mk "express"
                 [ConflictDep.mk "authService" "^4.18.0" "production";
                  ConflictDep.mk "userService" "^4.17.0" "production"]))
    as [Hsame|[Hcaret|Htilde]].
  - vm_compute. reflexivity.
  - specialize (Hsame (ConflictDep.mk "authService" "^4.18.0" "production")
                      (ConflictDep.mk "userService" "^4.17.0" "production")
                      ltac:(simpl; auto) ltac:(simpl; auto)).
    discriminate.
  - apply forallb_forall. exact Hcaret.
  - specialize (Htilde (ConflictDep.mk "authService" "^4.18.0" "production")
                       ltac:(simpl; auto)).
    vm_compute in Htilde. discriminate.
Defined.


(* ===================================================================== *)
(** * [findProjectsUsingPackage] *)
(* ===================================================================== *)

Lemma dependents_In (g : Graph) (packageName : string) (r : DependsOn.t) :
  In r (dependents g packageName)
  <-> In r (dependsOn g)
      /\ DependsOn.from r = ProjectRef (fromName r)
      /\ DependsOn.to r = packageName.
Proof.
  unfold dependents, projectRows, fromName.
  rewrite !filter_In, String.eqb_eq.
  destruct (DependsOn.from r); intuition congruence.
Qed.

(** A package has at most one relationship from a project. *)
Lemma dependents_NoDup (g : Graph) (packageName : string) :
  singleRelationships g ->
  NoDup (map fromName (dependents g packageName)).
Proof.
  intros H. apply NoDup_map_finer with (f := ends).
  - unfold dependents, projectRows. now do 2 apply NoDup_map_filter.
  - intros x y Hx Hy E.
    apply dependents_In in Hx as [_ [Hx Hx']].
    apply dependents_In in Hy as [_ [Hy Hy']].
    unfold ends. congruence.
Qed.

(** X21. In a store the program produced, [findProjectsUsingPackage] returns
    exactly one row for each project that depends on the package, in
    ascending order of the project name and with no project twice; the row
    carries the constraint and the type of that project's relationship. *)
Theorem findProjectsUsingPackage_rows (deployment : Deployment)
        (packageName : string) (w w' : World) (rows : list UsingProject.t) :
  reachable (graph w) ->
  GraphBuilderReads.findProjectsUsingPackage deployment packageName w
  = (Returned rows, w') ->
  ordered UsingProject.project rows
  /\ NoDup (map UsingProject.project rows)
  /\ length rows = length (dependents (graph w) packageName)
  /\ forall r, In r (dependents (graph w) packageName) ->
       exists row, In row rows
                   /\ UsingProject.project row = fromName r
                   /\ UsingProject.versionConstraint row
                      = DependsOn.versionConstraint r
                   /\ UsingProject.dependencyType row = DependsOn.type r.
Proof.
  intros Hreach Hcall.
  apply executeStatement_returned in Hcall as [-> _].
  cbn [evalStatement snd]. unfold evalProjectsUsingPackage.
  destruct (reachable_wellformed Hreach) as [[Hp _] [Hs [He _]]].
  set (g := graph w) in *.
  set (rels := dependents g packageName).
  set (h := fun r =>
              UsingProject.mk (fromName r)
                (match projectsNamed g (fromName r) with
                 | proj :: _ => Project.language proj
                 | [] => ""
                 end)
                (DependsOn.versionConstraint r) (DependsOn.type r)).
  assert (Hflat :
            flat_map (fun r =>
              map (fun proj =>
                     UsingProject.mk (Project.name proj) (Project.language proj)
                                     (DependsOn.versionConstraint r)
                                     (DependsOn.type r))
                  (projectsNamed g (fromName r))) rels
            = map h rels).
  { apply flat_map_singletons. intros r Hr.
    apply dependents_In in Hr as [Hr [Hfrom _]].
    destruct (He r Hr) as [Hnode _]. rewrite Hfrom in Hnode. simpl in Hnode.
    destruct (filter_key_one Project.name (fromName r) (projects g) Hp Hnode)
      as [proj [Hone [Hname _]]].
    unfold h, projectsNamed. rewrite Hone. simpl. now rewrite Hname. }
  rewrite Hflat.
  pose proof (orderBy_Permutation UsingProject.project (map h rels)) as Hperm.
  split; [apply orderBy_ordered|]. split; [|split].
  - eapply Permutation_NoDup; [apply Permutation_map, Hperm|].
    rewrite map_map. cbn [h UsingProject.project].
    now apply dependents_NoDup.
  - rewrite <- (Permutation_length Hperm). apply length_map.
  - intros r Hr. exists (h r). split; [|repeat split].
    eapply Permutation_in; [exact Hperm|]. now apply in_map.
Qed.

Lemma findProjectsUsingPackage_rows_witness :
  ordered UsingProject.project
          (evalProjectsUsingPackage "express" (graph companyBuilt)).
Proof.
  destruct (@findProjectsUsingPackage_rows
              sound "express" companyBuilt
              (snd (GraphBuilderReads.findProjectsUsingPackage
                      sound "express" companyBuilt))
              (evalProjectsUsingPackage "express" (graph companyBuilt))
              company_reachable) as [Hordered _].
  - vm_compute. reflexivity.
  - exact Hordered.
Defined.


(* ===================================================================== *)
(** * A manifest built on the cleared store *)
(* ===================================================================== *)

Lemma hasRelationship_targets (g : Graph) (projectName n : string) :
  hasRelationship g (ProjectRef projectName) n
  = existsb (String.eqb n) (map DependsOn.to (relationshipsOf g projectName)).
Proof.
  unfold hasRelationship, relationshipsOf, joins.
  induction (dependsOn g) as [|r rs IH]; [reflexivity|].
  cbn [existsb filter].
  destruct (NodeRef_eqb (DependsOn.from r) (ProjectRef projectName));
    cbn [andb map existsb]; rewrite IH; [|reflexivity].
  now rewrite (String.eqb_sym n).
Qed.

Lemma filter_map_preserving (A B : Type) (keep : A -> bool) (image : A -> B)
      (update : A -> A) (l : list A) :
  (forall x, keep (update x) = keep x) ->
  (forall x, image (update x) = image x) ->
  map image (filter keep (map update l)) = map image (filter keep l).
Proof.
  intros Hkeep Himage. induction l as [|x l IH]; [reflexivity|].
  cbn [map filter]. rewrite Hkeep.
  destruct (keep x); cbn [map]; [rewrite Himage|]; now rewrite IH.
Qed.

(** What [MERGE (proj)-[r:DEPENDS_ON]->(pkg)] adds between two stored
    nodes: one relationship, unless there is one. *)
Lemma evalMergeDependsOn_adds (now : Z)
      (projectName packageName versionConstraint type : string)
      (lineNumber : Z) (g : Graph) :
  hasProject g projectName = true -> hasPackage g packageName = true ->
  map DependsOn.to
      (relationshipsOf
         (fst (evalMergeDependsOn now projectName packageName versionConstraint
                                  type lineNumber g)) projectName)
  = (map DependsOn.to (relationshipsOf g projectName)
     ++ if hasRelationship g (ProjectRef projectName) packageName
        then [] else [packageName])%list
  /\ length (dependsOn
               (fst (evalMergeDependsOn now projectName packageName
                                        versionConstraint type lineNumber g)))
     = (length (dependsOn g)
        + if hasRelationship g (ProjectRef projectName) packageName
          then 0 else 1)%nat.
Proof.
  intros Hp Hk. unfold evalMergeDependsOn. rewrite Hp, Hk.
  cbn [andb fst]. unfold relationshipsOf, hasRelationship, mergeSet.
  cbn [dependsOn withDependsOn].
  destruct (existsb (joins (ProjectRef projectName) packageName) (dependsOn g)).
  - split.
    + rewrite app_nil_r. apply filter_map_preserving; intros r;
        destruct (joins (ProjectRef projectName) packageName r); reflexivity.
    + rewrite length_map. lia.
  - split.
    + rewrite filter_app, map_app. cbn [filter DependsOn.from NodeRef_eqb].
      rewrite String.eqb_refl. reflexivity.
    + rewrite length_app. reflexivity.
Qed.

Section LoopCounts.
Variable client : Neo4jClient.
Variable projectName : string.

(** The loop adds one relationship for each name the project was not joined
    to, and touches no project, file or [HAS_FILE]. *)
Lemma createDependencyLoop_relationships (dependencies : list Dependency.t) :
  forall (n k : nat) (w w' : World),
    GraphBuilder.createDependencyLoop client projectName dependencies n w
    = (Returned k, w') ->
    hasProject (graph w) projectName = true ->
    length (dependsOn (graph w'))
    = (length (dependsOn (graph w))
       + length (distinctAcc String.eqb
                   (map DependsOn.to (relationshipsOf (graph w) projectName))
                   (map Dependency.name dependencies)))%nat
    /\ projects (graph w') = projects (graph w)
    /\ files (graph w') = files (graph w)
    /\ hasFile (graph w') = hasFile (graph w).
Proof.
  induction dependencies as [|dep rest IH]; intros n k w w' Hrun Hp.
  - simpl in Hrun. unfold ret in Hrun. inversion Hrun; subst.
    simpl. auto.
  - cbn [GraphBuilder.createDependencyLoop] in Hrun.
    apply bind_returned in Hrun as [r1 [w1 [Hq1 Hrun]]].
    apply bind_returned in Hrun as [r2 [w2 [Hq2 Hrun]]].
    apply executeQuery_returned in Hq1 as [_ Hw1].
    apply executeQuery_returned in Hq2 as [_ Hw2].
    cbn [evalQuery] in Hw1, Hw2.
    assert (Hp1 : hasProject (graph w1) projectName = true)
      by (subst w1; exact Hp).
    assert (Hk1 : hasPackage (graph w1) (Dependency.name dep) = true)
      by (subst w1; apply evalMergePackage_has).
    assert (Hsame1 : dependsOn (graph w1) = dependsOn (graph w))
      by (subst w1; reflexivity).
    destruct (evalMergeDependsOn_adds
                (clock w1) projectName (Dependency.name dep)
                (orString (Dependency.versionRange dep) (Dependency.version dep))
                (orString (Dependency.type dep) "production")
                (orZero (Dependency.lineNumber dep)) (graph w1) Hp1 Hk1)
      as [Htargets Hlength].
    assert (Hp2 : hasProject (graph w2) projectName = true).
    { subst w2. cbn [graph]. unfold evalMergeDependsOn. rewrite Hp1, Hk1.
      exact Hp1. }
    assert (Hrest2 : projects (graph w2) = projects (graph w)
                     /\ files (graph w2) = files (graph w)
                     /\ hasFile (graph w2) = hasFile (graph w)).
    { subst w2. cbn [graph]. unfold evalMergeDependsOn. rewrite Hp1, Hk1.
      subst w1. repeat split. }
    destruct (IH _ _ _ _ Hrun Hp2) as [Hlen [H1 [H2 H3]]].
    destruct Hrest2 as [E1 [E2 E3]].
    split; [|rewrite H1, H2, H3; auto].
    rewrite Hlen. subst w2. cbn [graph]. rewrite Hlength, Htargets.
    assert (Hrels : relationshipsOf (graph w1) projectName
                    = relationshipsOf (graph w) projectName)
      by (unfold relationshipsOf; now rewrite Hsame1).
    assert (Hhas : hasRelationship (graph w1) (ProjectRef projectName)
                                   (Dependency.name dep)
                   = existsb (String.eqb (Dependency.name dep))
                             (map DependsOn.to
                                  (relationshipsOf (graph w) projectName)))
      by (rewrite hasRelationship_targets; now rewrite Hrels).
    rewrite Hhas, Hrels, Hsame1. cbn [map distinctAcc].
    destruct (existsb (String.eqb (Dependency.name dep))
                      (map DependsOn.to (relationshipsOf (graph w) projectName))).
    + rewrite app_nil_r. lia.
    + cbn [length].
      rewrite (distinctAcc_seen_equiv
                 (map Dependency.name rest)
                 (map DependsOn.to (relationshipsOf (graph w) projectName)
                  ++ [Dependency.name dep])
                 (Dependency.name dep
                  :: map DependsOn.to (relationshipsOf (graph w) projectName))).
      * lia.
      * intros x. rewrite in_app_iff. simpl. tauto.
Qed.

End LoopCounts.

(** X22. On the store [clearDatabase] leaves, a manifest that
    [buildProjectGraph] builds gives exactly one project, one file and one
    [HAS_FILE], and as many packages and as many [DEPENDS_ON] relationships
    as the manifest has distinct dependency names, however often a name is
    repeated. *)
Theorem clearDatabase_then_build (deployment : Deployment)
        (client : Neo4jClient) (parsedData : ParsedData.t) (w w1 w2 : World)
        (b : bool) :
  Neo4jClientMethods.clearDatabase deployment w = (Returned tt, w1) ->
  GraphBuilder.buildProjectGraph client parsedData w1 = (Returned b, w2) ->
  counts (graph w2)
  = mkCounts 1
             (length (distinct String.eqb
                               (map Dependency.name
                                    (ParsedData.dependencies parsedData))))
             1
             (length (distinct String.eqb
                               (map Dependency.name
                                    (ParsedData.dependencies parsedData))))
             1.
Proof.
  intros Hclear Hrun.
  assert (Hempty : graph w1 = emptyGraph).
  { unfold Neo4jClientMethods.clearDatabase, bind, executeStatement in Hclear.
    destruct (statementFailure deployment (clock w) DetachDeleteAll);
      [discriminate|].
    cbn [evalStatement] in Hclear. unfold ret in Hclear.
    assert (E : w1 = mkWorld emptyGraph (clock w + 1)) by congruence.
    now rewrite E. }
  unfold GraphBuilder.buildProjectGraph in Hrun.
  rewrite tryCatch_rethrow in Hrun.
  apply bind_returned in Hrun as [x1 [v1 [H1 Hrun]]].
  apply bind_returned in Hrun as [x2 [v2 [H2 Hrun]]].
  apply bind_returned in Hrun as [x3 [v3 [H3 Hrun]]].
  unfold ret in Hrun.
  assert (Ev3 : w2 = v3) by congruence. subst v3. clear Hrun.
  unfold GraphBuilder._createProjectNode in H1.
  apply bind_returned in H1 as [r1 [u1 [Hq1 Hr1]]].
  unfold ret in Hr1. assert (Eu1 : v1 = u1) by congruence. subst u1. clear Hr1.
  apply executeQuery_returned in Hq1 as [_ Hw1]. cbn [evalQuery] in Hw1.
  unfold GraphBuilder._createFileNode in H3.
  apply bind_returned in H3 as [r3 [u3 [Hq3 Hr3]]].
  unfold ret in Hr3. assert (Eu3 : w2 = u3) by congruence. subst u3. clear Hr3.
  apply executeQuery_returned in Hq3 as [_ Hw3]. cbn [evalQuery] in Hw3.
  rewrite Hempty in Hw1.
  assert (Hg1 : projects (graph v1)
                = [Project.mk (ParsedData.projectName parsedData)
                              (ParsedData.projectPath parsedData)
                              (ParsedData.language parsedData)
                              (orOptString (ParsedData.version parsedData) "1.0.0")
                              (orOptString (ParsedData.description parsedData) "")
                              (ParsedData.totalDependencies parsedData)
                              (clock w1)]
                /\ packages (graph v1) = []
                /\ files (graph v1) = []
                /\ dependsOn (graph v1) = []
                /\ hasFile (graph v1) = [])
    by (subst v1; repeat split).
  destruct Hg1 as [G1 [G2 [G3 [G4 G5]]]].
  assert (P1 : hasProject (graph v1) (ParsedData.projectName parsedData) = true).
  { unfold hasProject. rewrite G1. cbn [existsb Project.name].
    now rewrite String.eqb_refl. }
  unfold GraphBuilder._createDependencyNodes in H2.
  pose proof H2 as Hloop.
  apply createDependencyLoop_packages in Hloop as [_ Hnames].
  pose proof H2 as Hloop.
  apply createDependencyLoop_relationships in Hloop as [Hrels [Q1 [Q3 Q5]]];
    [|exact P1].
  assert (Hpackages : length (packages (graph v2))
                      = length (distinct String.eqb
                                  (map Dependency.name
                                       (ParsedData.dependencies parsedData)))).
  { rewrite <- (length_map Package.name), Hnames, G2. reflexivity. }
  assert (Hrelationships :
            length (dependsOn (graph v2))
            = length (distinct String.eqb
                        (map Dependency.name
                             (ParsedData.dependencies parsedData)))).
  { rewrite Hrels. unfold relationshipsOf. rewrite G4. reflexivity. }
  assert (P2 : hasProject (graph v2) (ParsedData.projectName parsedData) = true)
    by (unfold hasProject; rewrite Q1; exact P1).
  subst w2. cbn [graph]. unfold evalMergeFile. rewrite P2.
  unfold counts. cbn [fst projects packages files dependsOn hasFile withFile].
  rewrite Q1, G1, Q3, G3, Q5, G5, Hpackages, Hrelationships. reflexivity.
Qed.

Lemma clearDatabase_then_build_witness :
  counts (graph (snd (GraphBuilder.buildProjectGraph
                        Samples.healthy Samples.twice
                        (snd (Neo4jClientMethods.clearDatabase
                                sound Samples.company)))))
  = mkCounts 1 2 1 2 1.
Proof.
  rewrite (@clearDatabase_then_build
             sound Samples.healthy Samples.twice Samples.company
             (snd (Neo4jClientMethods.clearDatabase sound Samples.company))
             (snd (GraphBuilder.buildProjectGraph
                     Samples.healthy Samples.twice
                     (snd (Neo4jClientMethods.clearDatabase
                             sound Samples.company))))
             true).
  - vm_compute. reflexivity.
  - vm_compute. reflexivity.
  - vm_compute. reflexivity.
Defined.
